(** * Expense tracker: aggregation engine and screen controllers

    A shallow embedding of the client-side logic of the expense tracker:
    the balance and totals of the list and dashboard screens, the analytics
    screen's bucketing functions, the add/edit form's validation and
    submission, and the list screen's delete.

    Amounts are JavaScript numbers.  The functions are written once over an
    interface [Number] of the arithmetic they use and are run at two
    instances: [float], the IEEE 754 binary64 numbers the program computes
    with, and [Qc], exact rationals, where no rounding takes place. *)

From Stdlib Require Import List Bool Arith ZArith Lia String Ascii DecimalString.
From Stdlib Require Import QArith Qabs Qcanon Lqa Floats.
From Stdlib Require Import Sorted Permutation OrderedTypeEx.
Import ListNotations.

Set Warnings "-inexact-float".

Close Scope Qc_scope.
Close Scope Q_scope.
Close Scope Z_scope.

(** ** Numbers *)

(** The operations on [number] that the sources use.  [truthy] is the
    conversion to boolean of [x || 0], [gtb x y] is [x > y], and [ofNat]
    reads a count (a length, a number of days) as a number. *)
Class Number (A : Type) := {
  zero : A;
  hundred : A;
  ofNat : nat -> A;
  add : A -> A -> A;
  sub : A -> A -> A;
  mul : A -> A -> A;
  div : A -> A -> A;
  gtb : A -> A -> bool;
  truthy : A -> bool
}.

(** binary64: [NaN], [+0] and [-0] are falsy; comparisons with [NaN] are
    false. *)
#[export] Instance float_Number : Number float := {
  zero := 0%float;
  hundred := 100%float;
  ofNat := fun n => PrimFloat.of_uint63 (Uint63.of_Z (Z.of_nat n));
  add := PrimFloat.add;
  sub := PrimFloat.sub;
  mul := PrimFloat.mul;
  div := PrimFloat.div;
  gtb := fun x y => PrimFloat.ltb y x;
  truthy := fun x => negb (PrimFloat.eqb x 0%float) && PrimFloat.eqb x x
}.

Definition Qc_gtb (x y : Qc) : bool :=
  match (x ?= y)%Qc with Gt => true | _ => false end.

Definition Qc_truthy (x : Qc) : bool :=
  if Qc_eq_dec x 0%Qc then false else true.

(** Exact rational arithmetic. *)
#[export] Instance Qc_Number : Number Qc := {
  zero := 0%Qc;
  hundred := Q2Qc (100 # 1);
  ofNat := fun n => Q2Qc (inject_Z (Z.of_nat n));
  add := Qcplus;
  sub := Qcminus;
  mul := Qcmult;
  div := Qcdiv;
  gtb := Qc_gtb;
  truthy := Qc_truthy
}.

(** ** Transactions *)

Inductive TransactionType := income | expense.

Definition TransactionType_eqb (a b : TransactionType) : bool :=
  match a, b with
  | income, income | expense, expense => true
  | _, _ => false
  end.

(** A row as the screens select it: [categories] is the joined category
    name, [None] when the join is null. *)
Record Transaction (A : Type) := mkTransaction {
  id : string;
  amount : A;
  description : string;
  type : TransactionType;
  date : string;
  categories : option string;
  subcategories : option string
}.

Arguments mkTransaction {A}.
Arguments id {A}.
Arguments amount {A}.
Arguments description {A}.
Arguments type {A}.
Arguments date {A}.
Arguments categories {A}.
Arguments subcategories {A}.

(** ** Remote store *)

(** What an awaited call to the store comes back with: rows, an error
    object, or an exception. *)
Inductive Response (T : Type) :=
| Data (rows : T)
| Error (message : string)
| Thrown (message : string).
Arguments Data {T}.
Arguments Error {T}.
Arguments Thrown {T}.

(** ** Balance and totals (transactions-list.tsx, dashboard) *)

Section Totals.
Context {A : Type} `{Number A}.

(** [xs.reduce((sum, t) => sum + t.amount, 0)] *)
Definition sumAmounts (xs : list (Transaction A)) : A :=
  fold_left (fun sum t => add sum (amount t)) xs zero.

Definition isIncome (t : Transaction A) : bool :=
  TransactionType_eqb (type t) income.

Definition isExpense (t : Transaction A) : bool :=
  TransactionType_eqb (type t) expense.

(** transactions-list.tsx, [getTotalBalance] *)
Definition getTotalBalance (transactions : list (Transaction A)) : A :=
  fold_left
    (fun total transaction =>
       if isIncome transaction
       then add total (amount transaction)
       else sub total (amount transaction))
    transactions zero.

(** transactions-list.tsx, [getTotals] *)
Definition getTotals (transactions : list (Transaction A)) : A * A :=
  let income := sumAmounts (filter isIncome transactions) in
  let expenses := sumAmounts (filter isExpense transactions) in
  (income, expenses).

(** The dashboard's statistics. *)
Record DashboardStats := mkDashboardStats {
  totalBalance : A;
  totalIncome : A;
  totalExpenses : A;
  transactionCount : nat;
  recentTransactions : list (Transaction A)
}.

(** [fetchDashboardData]: the statistics set from the store's answer;
    on an error they stay as they are. *)
Definition fetchDashboardData (response : Response (list (Transaction A)))
  (stats : DashboardStats) : DashboardStats :=
  match response with
  | Data transactions =>
      let totalIncome := sumAmounts (filter isIncome transactions) in
      let totalExpenses := sumAmounts (filter isExpense transactions) in
      let totalBalance := sub totalIncome totalExpenses in
      {| totalBalance := totalBalance;
         totalIncome := totalIncome;
         totalExpenses := totalExpenses;
         transactionCount := List.length transactions;
         recentTransactions := firstn 5 transactions |}
  | Error _ | Thrown _ => stats
  end.

End Totals.

Arguments DashboardStats A : clear implicits.

(** A transaction with only the fields the totals read. *)
Definition tx {A} (ty : TransactionType) (a : A) : Transaction A :=
  mkTransaction EmptyString a EmptyString ty EmptyString None None.

(** ** The JavaScript runtime the aggregation uses *)

Module JS.

(** [Map]: an association list in insertion order, one entry per key.
    [set] on a present key replaces the value where it stands; on a new key
    it appends. *)
Definition Map (V : Type) := list (string * V).

Fixpoint get {V} (k : string) (m : Map V) : option V :=
  match m with
  | [] => None
  | (k', v) :: m' => if String.eqb k k' then Some v else get k m'
  end.

Definition has {V} (k : string) (m : Map V) : bool :=
  match get k m with Some _ => true | None => false end.

Fixpoint set {V} (k : string) (v : V) (m : Map V) : Map V :=
  match m with
  | [] => [(k, v)]
  | (k', v') :: m' =>
      if String.eqb k k' then (k', v) :: m' else (k', v') :: set k v m'
  end.

(** [Array.prototype.sort(compare)]: a stable sort; the comparator's
    result is read by its sign. *)
Fixpoint insert {T} (cmp : T -> T -> comparison) (x : T) (l : list T)
  : list T :=
  match l with
  | [] => [x]
  | y :: l' =>
      match cmp x y with
      | Gt => y :: insert cmp x l'
      | _ => x :: l
      end
  end.

Definition sort {T} (cmp : T -> T -> comparison) (l : list T) : list T :=
  fold_right (insert cmp) [] l.

(** [a.localeCompare(b)] on the keys built here, digits and hyphens in one
    layout ([YYYY-MM] as the code pads it, [YYYY-MM-DD] of an ISO 8601
    timestamp): character by character.  The collation of keys of another
    make is the runtime's. *)
Definition localeCompare (a b : string) : comparison := String.compare a b.

(** [xs.slice(-n)] *)
Definition sliceLast {T} (n : nat) (l : list T) : list T :=
  skipn (List.length l - n) l.

(** [xs.slice(0, n)] *)
Definition sliceFirst {T} (n : nat) (l : list T) : list T := firstn n l.

(** [xs.map((x, index) => f x index)] *)
Fixpoint mapi_from {T U} (f : T -> nat -> U) (i : nat) (l : list T)
  : list U :=
  match l with
  | [] => []
  | x :: l' => f x i :: mapi_from f (S i) l'
  end.

Definition mapi {T U} (f : T -> nat -> U) (l : list T) : list U :=
  mapi_from f 0 l.

(** [String(n)] for an integer [n] *)
Definition String_of (n : Z) : string :=
  NilZero.string_of_int (Z.to_int n).

Fixpoint repeat_char (c : ascii) (n : nat) : string :=
  match n with
  | O => EmptyString
  | S n' => String c (repeat_char c n')
  end.

(** [s.padStart(n, c)] *)
Definition padStart (n : nat) (c : ascii) (s : string) : string :=
  (repeat_char c (n - String.length s) ++ s)%string.

(** [s.split('T')[0]] *)
Fixpoint split_T_0 (s : string) : string :=
  match s with
  | EmptyString => EmptyString
  | String c s' =>
      if Ascii.eqb c "T"%char then EmptyString else String c (split_T_0 s')
  end.

(** [s || d] on strings: the empty string is falsy. *)
Definition or_string (s : option string) (d : string) : string :=
  match s with
  | Some (String c r) => String c r
  | _ => d
  end.

End JS.

(** [x || 0] where [x] is a number or [undefined]. *)
Definition or_zero {A} `{Number A} (x : option A) : A :=
  match x with
  | Some v => if truthy v then v else zero
  | None => zero
  end.

(** The sign of a comparator's numeric result; [NaN] counts as [0]. *)
Definition sign {A} `{Number A} (v : A) : comparison :=
  if gtb v zero then Gt else if gtb zero v then Lt else Eq.

(** ** Analytics screen *)

Inductive TimePeriod := days7 | days30 | days90 | year1 | all.

Record MonthBucket (A : Type) := mkMonthBucket {
  mb_income : A;
  mb_expense : A
}.
Arguments mkMonthBucket {A}.
Arguments mb_income {A}.
Arguments mb_expense {A}.

Record MonthlyData (A : Type) := mkMonthlyData {
  md_month : string;
  md_income : A;
  md_expense : A;
  md_net : A
}.
Arguments mkMonthlyData {A}.
Arguments md_month {A}.
Arguments md_income {A}.
Arguments md_expense {A}.
Arguments md_net {A}.

Record CategoryBucket (A : Type) := mkCategoryBucket {
  cb_amount : A;
  cb_count : nat
}.
Arguments mkCategoryBucket {A}.
Arguments cb_amount {A}.
Arguments cb_count {A}.

Record CategorySpending (A : Type) := mkCategorySpending {
  cs_name : string;
  cs_amount : A;
  cs_count : nat;
  cs_percentage : A;
  cs_color : string
}.
Arguments mkCategorySpending {A}.
Arguments cs_name {A}.
Arguments cs_amount {A}.
Arguments cs_count {A}.
Arguments cs_percentage {A}.
Arguments cs_color {A}.

Record DailyData (A : Type) := mkDailyData {
  dd_date : string;
  dd_amount : A
}.
Arguments mkDailyData {A}.
Arguments dd_date {A}.
Arguments dd_amount {A}.

Record TotalStats (A : Type) := mkTotalStats {
  ts_totalIncome : A;
  ts_totalExpenses : A;
  ts_avgDaily : A;
  ts_transactionCount : nat;
  ts_topCategory : string;
  ts_savingsRate : A
}.
Arguments mkTotalStats {A}.
Arguments ts_totalIncome {A}.
Arguments ts_totalExpenses {A}.
Arguments ts_avgDaily {A}.
Arguments ts_transactionCount {A}.
Arguments ts_topCategory {A}.
Arguments ts_savingsRate {A}.

Section Analytics.
Context {A : Type} `{Number A}.

(** The [Date] object of the runtime, read in the device's time zone:
    [new Date(s).getFullYear()], [new Date(s).getMonth()] (0 to 11) and
    [new Date(s).toLocaleDateString('en-US', { month: 'short' })]. *)
Variable getFullYear : string -> Z.
Variable getMonth : string -> Z.
Variable monthShort : string -> string.

Definition monthKey (t : Transaction A) : string :=
  (JS.String_of (getFullYear (date t)) ++ "-"
   ++ JS.padStart 2 "0"%char (JS.String_of (getMonth (date t) + 1)%Z))%string.

(** One round of the [forEach] of [processMonthlyData]. *)
Definition monthlyStep (monthlyMap : JS.Map (MonthBucket A))
  (t : Transaction A) : JS.Map (MonthBucket A) :=
  let monthKey := monthKey t in
  let monthlyMap :=
    if negb (JS.has monthKey monthlyMap)
    then JS.set monthKey (mkMonthBucket zero zero) monthlyMap
    else monthlyMap in
  match JS.get monthKey monthlyMap with
  | Some monthData =>
      if isIncome t
      then JS.set monthKey
             (mkMonthBucket (add (mb_income monthData) (amount t))
                (mb_expense monthData)) monthlyMap
      else JS.set monthKey
             (mkMonthBucket (mb_income monthData)
                (add (mb_expense monthData) (amount t))) monthlyMap
  | None => monthlyMap
  end.

Definition monthlyMap (transactions : list (Transaction A))
  : JS.Map (MonthBucket A) :=
  fold_left monthlyStep transactions [].

(** The buckets kept, still under their year-month keys. *)
Definition monthlySorted (transactions : list (Transaction A))
  : list (string * MonthBucket A) :=
  JS.sliceLast 6
    (JS.sort (fun a b => JS.localeCompare (fst a) (fst b))
       (monthlyMap transactions)).

Definition processMonthlyData (transactions : list (Transaction A))
  : list (MonthlyData A) :=
  map (fun '(month, data) =>
         mkMonthlyData (monthShort (month ++ "-01"))
           (mb_income data) (mb_expense data)
           (sub (mb_income data) (mb_expense data)))
    (monthlySorted transactions).

Definition categoryName (t : Transaction A) : string :=
  JS.or_string (categories t) "Uncategorized".

(** One round of the [forEach] of [processCategoryData]. *)
Definition categoryStep (categoryMap : JS.Map (CategoryBucket A))
  (t : Transaction A) : JS.Map (CategoryBucket A) :=
  let categoryName := categoryName t in
  let categoryMap :=
    if negb (JS.has categoryName categoryMap)
    then JS.set categoryName (mkCategoryBucket zero 0) categoryMap
    else categoryMap in
  match JS.get categoryName categoryMap with
  | Some categoryData =>
      JS.set categoryName
        (mkCategoryBucket (add (cb_amount categoryData) (amount t))
           (cb_count categoryData + 1)) categoryMap
  | None => categoryMap
  end.

Definition categoryMap (transactions : list (Transaction A))
  : JS.Map (CategoryBucket A) :=
  fold_left categoryStep (filter isExpense transactions) [].

Definition categoryTotal (transactions : list (Transaction A)) : A :=
  fold_left (fun sum cat => add sum (cb_amount cat))
    (map snd (categoryMap transactions)) zero.

Definition colors : list string :=
  ["#FF6B6B"; "#4ECDC4"; "#45B7D1"; "#96CEB4"; "#FECA57"; "#FF9FF3";
   "#54A0FF"]%string.

(** The breakdown before the cut to seven entries. *)
Definition categoryRows (transactions : list (Transaction A))
  : list (CategorySpending A) :=
  let totalExpenses := categoryTotal transactions in
  JS.mapi (fun '(name, data) index =>
             mkCategorySpending name (cb_amount data) (cb_count data)
               (if gtb totalExpenses zero
                then mul (div (cb_amount data) totalExpenses) hundred
                else zero)
               (nth (index mod List.length colors) colors EmptyString))
    (categoryMap transactions).

Definition processCategoryData (transactions : list (Transaction A))
  : list (CategorySpending A) :=
  JS.sliceFirst 7
    (JS.sort (fun a b => sign (sub (cs_amount b) (cs_amount a)))
       (categoryRows transactions)).

(** One round of the [forEach] of [processDailyData]. *)
Definition dailyStep (dailyMap : JS.Map A) (t : Transaction A) : JS.Map A :=
  let dateKey := JS.split_T_0 (date t) in
  JS.set dateKey (add (or_zero (JS.get dateKey dailyMap)) (amount t)) dailyMap.

Definition dailyMap (transactions : list (Transaction A)) : JS.Map A :=
  fold_left dailyStep (filter isExpense transactions) [].

Definition processDailyData (transactions : list (Transaction A))
  : list (DailyData A) :=
  map (fun '(date, amount) => mkDailyData date amount)
    (JS.sliceLast 30
       (JS.sort (fun a b => JS.localeCompare (fst a) (fst b))
          (dailyMap transactions))).

(** One round of the [forEach] of [calculateTotalStats]. *)
Definition topStep (categoryMap : JS.Map A) (t : Transaction A) : JS.Map A :=
  let category := categoryName t in
  JS.set category (add (or_zero (JS.get category categoryMap)) (amount t))
    categoryMap.

Definition topCategoryMap (transactions : list (Transaction A)) : JS.Map A :=
  fold_left topStep (filter isExpense transactions) [].

Definition calculateTotalStats (timePeriod : TimePeriod)
  (transactions : list (Transaction A)) : TotalStats A :=
  let income := sumAmounts (filter isIncome transactions) in
  let expenses := sumAmounts (filter isExpense transactions) in
  let days :=
    match timePeriod with
    | days7 => 7 | days30 => 30 | days90 => 90 | year1 => 365
    | all => Nat.max 1 (List.length transactions)
    end in
  let categoryMap := topCategoryMap transactions in
  let topCategory :=
    JS.or_string
      (option_map fst
         (hd_error (JS.sort (fun a b => sign (sub (snd b) (snd a)))
                      categoryMap)))
      "None" in
  let savingsRate :=
    if gtb income zero then mul (div (sub income expenses) income) hundred
    else zero in
  mkTotalStats income expenses (div expenses (ofNat days))
    (List.length transactions) topCategory savingsRate.

End Analytics.

(** Three everyday amounts on which the two screens disagree. *)
Definition balance_sample : list (Transaction float) :=
  [tx income 0.3%float; tx expense 0.1%float; tx expense 0.2%float].

(** ** Vocabulary of the statements *)

(** Grouping: each [forEach] of the analytics screen is a fold of [upsert]
    for some key, initial value and update. *)
Definition default {V} (init : V) (o : option V) : V :=
  match o with Some v => v | None => init end.

Definition upsert {T V} (key : T -> string) (init : V) (upd : V -> T -> V)
  (m : JS.Map V) (t : T) : JS.Map V :=
  JS.set (key t) (upd (default init (JS.get (key t) m)) t) m.

Definition keyIs {T} (key : T -> string) (k : string) (t : T) : bool :=
  String.eqb (key t) k.

(** The comparator [([a], [b]) => a.localeCompare(b)] on entries, and the
    strict order it sorts into. *)
Definition byKey {V} (a b : string * V) : comparison :=
  JS.localeCompare (fst a) (fst b).

Definition keyLt {V} (a b : string * V) : Prop :=
  String.compare (fst a) (fst b) = Lt.

(** The last [n] entries of a map sorted by key. *)
Definition lastByKey {V} (n : nat) (m : JS.Map V) : list (string * V) :=
  JS.sliceLast n (JS.sort byKey m).

(** The update of one month's bucket by one transaction. *)
Definition updMonth {A} `{Number A} (d : MonthBucket A) (t : Transaction A)
  : MonthBucket A :=
  if isIncome t
  then mkMonthBucket (add (mb_income d) (amount t)) (mb_expense d)
  else mkMonthBucket (mb_income d) (add (mb_expense d) (amount t)).

(** The decimal digit [d] as a character, and numbers written with two and
    four digits, as ISO 8601 writes months, days and years. *)
Definition digit (d : Z) : ascii := ascii_of_nat (48 + Z.to_nat d).

Definition digits2 (n : Z) : string :=
  String (digit (n / 10)) (String (digit (n mod 10)) EmptyString).

Definition digits4 (n : Z) : string :=
  String (digit (n / 1000))
    (String (digit (n / 100 mod 10))
       (String (digit (n / 10 mod 10))
          (String (digit (n mod 10)) EmptyString))).

(** Calendar dates in ISO 8601 form, [YYYY-MM-DD]. *)
Definition isoDate (y m d : Z) : string :=
  (digits4 y ++ "-" ++ digits2 m ++ "-" ++ digits2 d)%string.

Definition fourDigitYear (y : Z) : Prop := (1000 <= y <= 9999)%Z.

Section AnalyticsVocabulary.
Context {A : Type} `{Number A}.
Variable getFullYear : string -> Z.
Variable getMonth : string -> Z.
Variable monthShort : string -> string.

(** The calendar month of a transaction, counted in months. *)
Definition monthOf (t : Transaction A) : Z :=
  (getFullYear (date t) * 12 + getMonth (date t))%Z.

(** The entry of the monthly series for the bucket [k], from the
    transactions directly: the month's incomes, the month's expenses and
    their difference. *)
Definition monthRow (transactions : list (Transaction A)) (k : string)
  : MonthlyData A :=
  let inMonth :=
    filter (keyIs (monthKey getFullYear getMonth) k) transactions in
  let income := sumAmounts (filter isIncome inMonth) in
  let expense := sumAmounts (filter isExpense inMonth) in
  mkMonthlyData (monthShort (k ++ "-01")) income expense (sub income expense).

(** The year-month keys of the series, in its order. *)
Definition monthlyKeys (transactions : list (Transaction A)) : list string :=
  map fst (monthlySorted getFullYear getMonth transactions).

End AnalyticsVocabulary.

(** The day of a transaction as the daily series keys it. *)
Definition dateKey {A} (t : Transaction A) : string := JS.split_T_0 (date t).

(** The entry of the daily series for the day [k], from the transactions
    directly: the sum of the day's expenses. *)
Definition dayRow {A} `{Number A} (transactions : list (Transaction A))
  (k : string) : DailyData A :=
  mkDailyData k
    (sumAmounts (filter (keyIs dateKey k) (filter isExpense transactions))).

(** An ISO 8601 timestamp of the day [y]-[m]-[d]. *)
Definition isoTimestamp (s : string) (y m d : Z) : Prop :=
  fourDigitYear y /\ (0 <= m <= 99)%Z /\ (0 <= d <= 99)%Z
  /\ exists time, s = (isoDate y m d ++ "T" ++ time)%string.

(** A calendar day as the number [yyyymmdd]. *)
Definition dayNumber (y m d : Z) : Z := (y * 10000 + m * 100 + d)%Z.

(** The summed expense amount of the category [c]. *)
Definition categorySum {A} `{Number A} (transactions : list (Transaction A))
  (c : string) : A :=
  sumAmounts (filter (keyIs categoryName c) (filter isExpense transactions)).

(** The comparator [([, a], [, b]) => b - a] on entries. *)
Definition byAmountDesc {A} `{Number A} (a b : string * A) : comparison :=
  sign (sub (snd b) (snd a)).

(** The update of one category's bucket by one expense. *)
Definition updCategory {A} `{Number A} (d : CategoryBucket A)
  (t : Transaction A) : CategoryBucket A :=
  mkCategoryBucket (add (cb_amount d) (amount t)) (cb_count d + 1).

(** The sum of the percentages of a breakdown. *)
Definition sumPercent {A} `{Number A} (rows : list (CategorySpending A)) : A :=
  fold_left (fun sum r => add sum (cs_percentage r)) rows zero.

(** An expense of the category [c]. *)
Definition spend {A} (c : string) (a : A) : Transaction A :=
  mkTransaction EmptyString a EmptyString expense EmptyString (Some c) None.

(** Eight categories with the same expense. *)
Definition breakdown_sample : list (Transaction float) :=
  map (fun c => spend c 1%float)
    ["A"; "B"; "C"; "D"; "E"; "F"; "G"; "H"]%string.

(** ** Add/edit form (add-transaction.tsx) *)

Module Form.

Record Category := mkCategory {
  cat_id : string;
  cat_name : string;
  cat_type : TransactionType
}.

Record Subcategory := mkSubcategory {
  sub_id : string;
  sub_name : string;
  sub_category_id : string
}.

(** The route parameters the screen is opened with. *)
Record Params := mkParams {
  isEditMode : bool;
  transactionId : string;
  p_amount : string;
  p_description : string;
  p_type : TransactionType;
  p_date : string;
  categoryName : string;
  subcategoryName : string
}.

(** The component's state; [date] is the [Date] held, given by the text
    it was built from: the ISO 8601 text of the current time or of a date
    picked, and in edit mode the text of the route parameter. *)
Record State := mkState {
  amount : string;
  description : string;
  type : TransactionType;
  date : string;
  categories : list Category;
  selectedCategory : string;
  subcategories : list Subcategory;
  selectedSubcategory : string;
  loading : bool
}.

(** The record sent to the store. *)
Record TransactionData := mkTransactionData {
  td_amount : float;
  td_description : string;
  td_type : TransactionType;
  td_date : string;
  td_category_id : string;
  td_subcategory_id : option string
}.

(** What the component does to the outside, in order. *)
Inductive Effect :=
| Alert (title message : string)
| SelectCategories
| SelectSubcategories (categoryId : string)
| Insert (data : TransactionData)
| Update (id : string) (data : TransactionData)
| RouterBack.

(** The store, as the form reads it. *)
Record Remote := mkRemote {
  categoriesTable : Response (list Category);
  subcategoriesOf : string -> Response (list Subcategory)
}.

Definition nonEmpty (s : string) : bool :=
  match s with EmptyString => false | String _ _ => true end.

Definition isNaN (x : float) : bool := negb (PrimFloat.eqb x x).

Definition setSubcategories (v : list Subcategory) (st : State) : State :=
  mkState (amount st) (description st) (type st) (date st) (categories st)
    (selectedCategory st) v (selectedSubcategory st) (loading st).

Definition setSelectedSubcategory (v : string) (st : State) : State :=
  mkState (amount st) (description st) (type st) (date st) (categories st)
    (selectedCategory st) (subcategories st) v (loading st).

Definition setSelectedCategory (v : string) (st : State) : State :=
  mkState (amount st) (description st) (type st) (date st) (categories st)
    v (subcategories st) (selectedSubcategory st) (loading st).

Definition setCategories (v : list Category) (st : State) : State :=
  mkState (amount st) (description st) (type st) (date st) v
    (selectedCategory st) (subcategories st) (selectedSubcategory st)
    (loading st).

Definition setAmount (v : string) (st : State) : State :=
  mkState v (description st) (type st) (date st) (categories st)
    (selectedCategory st) (subcategories st) (selectedSubcategory st)
    (loading st).

Definition setDescription (v : string) (st : State) : State :=
  mkState (amount st) v (type st) (date st) (categories st)
    (selectedCategory st) (subcategories st) (selectedSubcategory st)
    (loading st).

Definition setType (v : TransactionType) (st : State) : State :=
  mkState (amount st) (description st) v (date st) (categories st)
    (selectedCategory st) (subcategories st) (selectedSubcategory st)
    (loading st).

Definition setDate (v : string) (st : State) : State :=
  mkState (amount st) (description st) (type st) v (categories st)
    (selectedCategory st) (subcategories st) (selectedSubcategory st)
    (loading st).

Definition setLoading (v : bool) (st : State) : State :=
  mkState (amount st) (description st) (type st) (date st) (categories st)
    (selectedCategory st) (subcategories st) (selectedSubcategory st) v.

Section Controller.
Variable params : Params.
Variable remote : Remote.

(** [parseFloat] and [String.prototype.trim] of the runtime, and the
    current time, [new Date()]. *)
Variable parseFloat : string -> float.
Variable trim : string -> string.
Variable now : string.

Definition initialState : State :=
  mkState EmptyString EmptyString expense now [] EmptyString [] EmptyString false.

(** The effect on [subcategories] (edit mode): select the subcategory the
    record was opened with, by name. *)
Definition matchSubcategory (st : State) : State :=
  if isEditMode params && negb (Nat.eqb (List.length (subcategories st)) 0)
     && nonEmpty (subcategoryName params)
  then
    match find (fun sub => String.eqb (sub_name sub) (subcategoryName params))
            (subcategories st) with
    | Some subcategory => setSelectedSubcategory (sub_id subcategory) st
    | None => st
    end
  else st.

(** [fetchSubcategories] where the store answers before anything else
    happens: the answer is applied to the form the query is sent from.
    [FormAsync] has the query and its answer as two events. *)
Definition fetchSubcategories (categoryId : string) (st : State)
  : State * list Effect :=
  match subcategoriesOf remote categoryId with
  | Data data =>
      (matchSubcategory (setSubcategories data st),
       [SelectSubcategories categoryId])
  | Error _ | Thrown _ =>
      (setSubcategories [] st,
       [SelectSubcategories categoryId;
        Alert "Error" "Failed to fetch subcategories"])
  end.

(** The effect on [selectedCategory]. *)
Definition onSelectedCategory (st : State) : State * list Effect :=
  if nonEmpty (selectedCategory st)
  then fetchSubcategories (selectedCategory st) st
  else (setSelectedSubcategory EmptyString (setSubcategories [] st), []).

(** A change of [selectedCategory], with the effect it triggers. *)
Definition changeSelectedCategory (v : string) (st : State)
  : State * list Effect :=
  if String.eqb v (selectedCategory st) then (st, [])
  else onSelectedCategory (setSelectedCategory v st).

(** The effect on [categories] (edit mode): select the category the record
    was opened with, by name. *)
Definition matchCategory (st : State) : State * list Effect :=
  if isEditMode params && negb (Nat.eqb (List.length (categories st)) 0)
     && nonEmpty (categoryName params)
  then
    match find (fun cat => String.eqb (cat_name cat) (categoryName params))
            (categories st) with
    | Some category => changeSelectedCategory (cat_id category) st
    | None => (st, [])
    end
  else (st, []).

Definition fetchCategories (st : State) : State * list Effect :=
  match categoriesTable remote with
  | Data data =>
      let (st', effs) := matchCategory (setCategories data st) in
      (st', SelectCategories :: effs)
  | Error _ | Thrown _ =>
      (setCategories [] st,
       [SelectCategories; Alert "Error" "Failed to fetch categories"])
  end.

(** Mounting: [initializeForm], after which the form is shown. *)
Definition initializeForm : State * list Effect :=
  let (st, effs) := fetchCategories initialState in
  if isEditMode params && nonEmpty (p_amount params)
  then (setDate (if nonEmpty (p_date params) then p_date params else date st)
          (setType (p_type params)
             (setDescription (p_description params)
                (setAmount (p_amount params) st))),
        effs)
  else (st, effs).

Definition resetForm (st : State) : State * list Effect :=
  let st := setDate now
              (setSelectedSubcategory EmptyString
                 (setType expense (setDescription EmptyString (setAmount EmptyString st)))) in
  changeSelectedCategory EmptyString st.

(** [validateForm]: the alert shown, if the form is refused. *)
Definition validateForm (st : State) : option Effect :=
  if negb (nonEmpty (amount st)) || isNaN (parseFloat (amount st))
  then Some (Alert "Invalid Input" "Please enter a valid amount")
  else if PrimFloat.leb (parseFloat (amount st)) 0
  then Some (Alert "Invalid Input" "Amount must be greater than 0")
  else if negb (nonEmpty (selectedCategory st))
  then Some (Alert "Missing Information" "Please select a category")
  else if negb (nonEmpty (trim (description st)))
  then Some (Alert "Missing Information" "Please enter a description")
  else None.

Definition transactionData (st : State) : TransactionData :=
  mkTransactionData (parseFloat (amount st)) (trim (description st))
    (type st) (date st) (selectedCategory st)
    (if nonEmpty (selectedSubcategory st)
     then Some (selectedSubcategory st) else None).

(** [handleSubmit] for a form whose date is valid and given by its ISO
    8601 text, which is then what [toISOString] sends; [response] is what
    the store answers to the insert or update, if one is sent.
    [FormDates.handleSubmit] has the date as the code computes it. *)
Definition handleSubmit (response : Response unit) (st : State)
  : State * list Effect :=
  match validateForm st with
  | Some alert => (st, [alert])
  | None =>
      let request :=
        if isEditMode params
        then Update (transactionId params) (transactionData st)
        else Insert (transactionData st) in
      let outcome :=
        match response with
        | Data _ =>
            Alert "Success"
              (if isEditMode params
               then "Transaction updated successfully!"
               else "Transaction added successfully!")
        | Error _ =>
            Alert "Error"
              (if isEditMode params
               then "Failed to update transaction. Please try again."
               else "Failed to add transaction. Please try again.")
        | Thrown _ =>
            Alert "Error" "An unexpected error occurred. Please try again."
        end in
      (setLoading false (setLoading true st), [request; outcome])
  end.

(** The [OK] button of the success alert. *)
Definition successOk (st : State) : State * list Effect :=
  if isEditMode params then (st, [RouterBack]) else resetForm st.

(** What the user does on the form. *)
Inductive Event :=
| TypeAmount (text : string)
| TypeDescription (text : string)
| PressType (v : TransactionType)
| PickDate (v : string)
| PickCategory (v : string)
| PickSubcategory (v : string)
| PressSubmit (response : Response unit)
| PressOk.

Definition isSuccess (e : Effect) : bool :=
  match e with
  | Alert title _ => String.eqb title "Success"
  | _ => false
  end.

(** The values a picker offers: the empty placeholder and the listed ids;
    the subcategory picker is disabled while the list is empty.  [OK] is
    there to press while the success alert is the last thing shown. *)
Definition offered (st : State) (effects : list Effect) (e : Event) : bool :=
  match e with
  | PressOk =>
      match rev effects with
      | last :: _ => isSuccess last
      | [] => false
      end
  | PickCategory v =>
      negb (nonEmpty v)
      || existsb (fun cat => String.eqb (cat_id cat) v)
           (filter (fun cat => TransactionType_eqb (cat_type cat) (type st))
              (categories st))
  | PickSubcategory v =>
      negb (Nat.eqb (List.length (subcategories st)) 0)
      && (negb (nonEmpty v)
          || existsb (fun sub => String.eqb (sub_id sub) v)
               (subcategories st))
  | _ => true
  end.

Definition step (st : State) (e : Event) : State * list Effect :=
  match e with
  | TypeAmount text => (setAmount text st, [])
  | TypeDescription text => (setDescription text st, [])
  | PressType v => (setType v st, [])
  | PickDate v => (setDate v st, [])
  | PickCategory v => changeSelectedCategory v st
  | PickSubcategory v => (setSelectedSubcategory v st, [])
  | PressSubmit response => handleSubmit response st
  | PressOk => successOk st
  end.

(** The form after a sequence of events, with everything done to the
    outside; [None] when an event picks a value that is not offered. *)
Fixpoint run (st : State) (effects : list Effect) (events : list Event)
  : option (State * list Effect) :=
  match events with
  | [] => Some (st, effects)
  | e :: events' =>
      if offered st effects e
      then let (st', effs) := step st e in run st' (effects ++ effs) events'
      else None
  end.

Definition session (events : list Event) : option (State * list Effect) :=
  let (st, effs) := initializeForm in run st effs events.

(** The selected subcategory, when there is one, is a child of the
    selected category. *)
Definition subcategoryBelongs (st : State) : Prop :=
  selectedSubcategory st <> EmptyString ->
  exists sub, In sub (subcategories st)
    /\ sub_id sub = selectedSubcategory st
    /\ sub_category_id sub = selectedCategory st.

(** No request that writes to the store. *)
Definition noWrite (effects : list Effect) : Prop :=
  forall e, In e effects ->
    match e with Insert _ | Update _ _ => False | _ => True end.

End Controller.

End Form.

(** ** Transactions list (transactions-list.tsx) *)

Module TransactionsList.

Inductive Effect :=
| Alert (title message : string)
| Delete (id : string).

(** The button pressed on the confirmation alert. *)
Inductive Choice := Cancel | DeleteIt.

(** The double quote, as a string. *)
Definition quote : string := String (ascii_of_nat 34) EmptyString.

Section Controller.
Context {A : Type}.

(** [deleteTransaction]; [response] is the store's answer to the delete. *)
Definition deleteTransaction (id' : string) (response : Response unit)
  (transactions : list (Transaction A))
  : list (Transaction A) * list Effect :=
  match response with
  | Data _ =>
      (filter (fun t => negb (String.eqb (id t) id')) transactions,
       [Delete id'; Alert "Success" "Transaction deleted successfully"])
  | Error _ =>
      (transactions,
       [Delete id'; Alert "Error" "Failed to delete transaction"])
  | Thrown _ =>
      (transactions,
       [Delete id'; Alert "Error" "An unexpected error occurred"])
  end.

(** [confirmDelete], with the button the user presses. *)
Definition confirmDelete (id' description' : string) (choice : Choice)
  (response : Response unit) (transactions : list (Transaction A))
  : list (Transaction A) * list Effect :=
  let ask :=
    Alert "Delete Transaction"
      ("Are you sure you want to delete " ++ quote ++ description'
       ++ quote ++ "?") in
  match choice with
  | Cancel => (transactions, [ask])
  | DeleteIt =>
      let (transactions', effects) :=
        deleteTransaction id' response transactions in
      (transactions', ask :: effects)
  end.

End Controller.

End TransactionsList.

(** ** Concrete runtimes and inputs for the examples *)

Module Samples.

(** The value of a string of decimal digits. *)
Definition digitValue (c : ascii) : option Z :=
  let n := Z.of_nat (nat_of_ascii c) in
  if ((48 <=? n) && (n <=? 57))%Z then Some (n - 48)%Z else None.

Fixpoint digitsValue (acc : Z) (s : string) : option Z :=
  match s with
  | EmptyString => Some acc
  | String c s' =>
      match digitValue c with
      | Some d => digitsValue (acc * 10 + d) s'
      | None => None
      end
  end.

Definition numberAt (start len : nat) (s : string) : Z :=
  match digitsValue 0 (substring start len s) with
  | Some n => n
  | None => 0%Z
  end.

(** [getFullYear] and [getMonth] of [new Date(s)] for an ISO 8601
    timestamp [s] in UTC, on a device whose time zone is UTC. *)
Definition utcFullYear (s : string) : Z := numberAt 0 4 s.
Definition utcMonth (s : string) : Z := (numberAt 5 2 s - 1)%Z.
Definition utcDay (s : string) : Z := numberAt 8 2 s.

(** The short English month name of the date [YYYY-MM-01]. *)
Definition monthShort (s : string) : string :=
  nth (Z.to_nat (utcMonth s))
    ["Jan"; "Feb"; "Mar"; "Apr"; "May"; "Jun"; "Jul"; "Aug"; "Sep"; "Oct";
     "Nov"; "Dec"]%string EmptyString.

(** [parseFloat] on an optionally signed string of at most 18 digits;
    [NaN] on any other string. *)
Definition parseFloatInteger (s : string) : float :=
  let magnitude (digits : string) : float :=
    match digits with
    | EmptyString => PrimFloat.nan
    | _ =>
        if Nat.leb (String.length digits) 18
        then match digitsValue 0 digits with
             | Some n => PrimFloat.of_uint63 (Uint63.of_Z n)
             | None => PrimFloat.nan
             end
        else PrimFloat.nan
    end in
  match s with
  | String "-"%char digits => PrimFloat.opp (magnitude digits)
  | String "+"%char digits => magnitude digits
  | _ => magnitude s
  end.

Definition isSpace (c : ascii) : bool :=
  let n := nat_of_ascii c in
  Nat.eqb n 32 || (Nat.leb 9 n && Nat.leb n 13).

Fixpoint trimStart (s : string) : string :=
  match s with
  | String c s' => if isSpace c then trimStart s' else s
  | EmptyString => EmptyString
  end.

Fixpoint trimEnd (s : string) : string :=
  match s with
  | String c s' =>
      match trimEnd s' with
      | EmptyString => if isSpace c then EmptyString else String c EmptyString
      | rest => String c rest
      end
  | EmptyString => EmptyString
  end.

(** [trim] on text whose white space is ASCII. *)
Definition trimAscii (s : string) : string := trimEnd (trimStart s).

(** The transactions of the specification's example. *)
Definition salaryAndFood : list (Transaction float) :=
  [tx income 1000%float; spend "Food" 300%float; spend "Food" 200%float].

(** Transactions with a date and a kind. *)
Definition dated {A} (d : string) (ty : TransactionType) (a : A)
  : Transaction A :=
  mkTransaction EmptyString a EmptyString ty d (Some "Food"%string) None.

Definition winter : list (Transaction Qc) :=
  [dated "2023-12-30T09:00:00.000Z" expense (Q2Qc 40);
   dated "2024-01-02T10:30:00.000Z" income (Q2Qc 1000);
   dated "2024-01-02T18:45:00.000Z" expense (Q2Qc 25);
   dated "2024-02-11T08:15:00.000Z" expense (Q2Qc 10)].

(** A store with two expense categories and a subcategory in each. *)
Definition food := Form.mkCategory "c1" "Food" expense.
Definition travel := Form.mkCategory "c2" "Travel" expense.
Definition groceries := Form.mkSubcategory "s1" "Groceries" "c1".
Definition flights := Form.mkSubcategory "s2" "Flights" "c2".

Definition store : Form.Remote :=
  Form.mkRemote (Data [food; travel])
    (fun categoryId =>
       Data (filter (fun sub => String.eqb (Form.sub_category_id sub) categoryId)
               [groceries; flights])).

(** Opened to add a transaction. *)
Definition addMode : Form.Params :=
  Form.mkParams false EmptyString EmptyString EmptyString expense EmptyString EmptyString EmptyString.

Definition session (events : list Form.Event)
  : option (Form.State * list Form.Effect) :=
  Form.session addMode store parseFloatInteger trimAscii
    "2024-03-01T12:00:00.000Z" events.

(** Choose Food and Groceries, then change the category to Travel. *)
Definition changeOfCategory : list Form.Event :=
  [Form.TypeAmount "12"; Form.TypeDescription "Lunch";
   Form.PickCategory "c1"; Form.PickSubcategory "s1";
   Form.PickCategory "c2"].

(** Food and rent tie at 500; food comes first. *)
Definition foodAndRent : list (Transaction Qc) :=
  [spend "Food" (Q2Qc 300); spend "Rent" (Q2Qc 500);
   spend "Food" (Q2Qc 200); tx income (Q2Qc 1500)].

(** A form filled in but for the sign of the amount. *)
Definition minusFive : Form.State :=
  Form.mkState "-5" "Lunch" expense "2024-03-01T12:00:00.000Z"
    [food; travel] "c1" [groceries] EmptyString false.

(** A form that passes validation, with no subcategory chosen. *)
Definition lunch : Form.State :=
  Form.mkState "12" "  Lunch " expense "2024-03-01T12:00:00.000Z"
    [food; travel] "c1" [groceries] EmptyString false.

(** A list of two transactions. *)
Definition twoRows : list (Transaction float) :=
  [mkTransaction "t1" 12%float "Lunch" expense "2024-03-01T12:00:00.000Z"
     (Some "Food") None;
   mkTransaction "t2" 1000%float "Salary" income "2024-03-01T09:00:00.000Z"
     None None]%string.

End Samples.

(** ** Analytics screen: the time window and the fetch *)

Definition TimePeriod_eqb (a b : TimePeriod) : bool :=
  match a, b with
  | days7, days7 | days30, days30 | days90, days90 | year1, year1
  | all, all => true
  | _, _ => false
  end.

(** The sum of [f] over a list, from 0 on, as [reduce] takes it. *)
Definition sumBy {A} `{Number A} {T} (f : T -> A) (l : list T) : A :=
  fold_left (fun sum x => add sum (f x)) l zero.

(** The number of expenses of the category [c]. *)
Definition categoryCount {A} `{Number A} (transactions : list (Transaction A))
  (c : string) : nat :=
  List.length
    (filter (keyIs categoryName c) (filter isExpense transactions)).

Module Analytics.

(** [new Date('2020-01-01')], in milliseconds since the epoch. *)
Definition farBack : Z := 1577836800000.

(** [getDateFilter]; [now] is [new Date().getTime()] and the result the
    time of the date returned. *)
Definition getDateFilter (now : Z) (timePeriod : TimePeriod) : Z :=
  match timePeriod with
  | days7 => now - 7 * 24 * 60 * 60 * 1000
  | days30 => now - 30 * 24 * 60 * 60 * 1000
  | days90 => now - 90 * 24 * 60 * 60 * 1000
  | year1 => now - 365 * 24 * 60 * 60 * 1000
  | all => farBack
  end%Z.

Inductive Effect :=
| Alert (title message : string)
| Select (fromDate : Z).

Record State (A : Type) := mkState {
  loading : bool;
  transactions : list (Transaction A);
  timePeriod : TimePeriod;
  monthlyData : list (MonthlyData A);
  categorySpending : list (CategorySpending A);
  dailySpending : list (DailyData A);
  totalStats : TotalStats A
}.
Arguments mkState {A}.
Arguments loading {A}.
Arguments transactions {A}.
Arguments timePeriod {A}.
Arguments monthlyData {A}.
Arguments categorySpending {A}.
Arguments dailySpending {A}.
Arguments totalStats {A}.

Section Screen.
Context {A : Type} `{Number A}.
Variable getFullYear : string -> Z.
Variable getMonth : string -> Z.
Variable monthShort : string -> string.

Definition initialState : State A :=
  mkState true [] days30 [] [] []
    (mkTotalStats zero zero zero 0 EmptyString zero).

Definition setLoading (v : bool) (st : State A) : State A :=
  mkState v (transactions st) (timePeriod st) (monthlyData st)
    (categorySpending st) (dailySpending st) (totalStats st).

Definition setTimePeriod (v : TimePeriod) (st : State A) : State A :=
  mkState (loading st) (transactions st) v (monthlyData st)
    (categorySpending st) (dailySpending st) (totalStats st).

(** [fetchAnalyticsData]; [response] is the store's answer to the query
    from the window's start on. *)
Definition fetchAnalyticsData (now : Z)
  (response : Response (list (Transaction A))) (st : State A)
  : State A * list Effect :=
  let fromDate := getDateFilter now (timePeriod st) in
  match response with
  | Data data =>
      (mkState false data (timePeriod st)
         (processMonthlyData getFullYear getMonth monthShort data)
         (processCategoryData data)
         (processDailyData data)
         (calculateTotalStats (timePeriod st) data),
       [Select fromDate])
  | Error _ =>
      (setLoading false (setLoading true st),
       [Select fromDate; Alert "Error" "Failed to fetch analytics data"])
  | Thrown _ =>
      (setLoading false (setLoading true st),
       [Select fromDate; Alert "Error" "An unexpected error occurred"])
  end.

(** A press on the period selector, with the fetch that the effect on
    [timePeriod] starts when the period changes. *)
Definition pressPeriod (period : TimePeriod) (now : Z)
  (response : Response (list (Transaction A))) (st : State A)
  : State A * list Effect :=
  if TimePeriod_eqb period (timePeriod st) then (st, [])
  else fetchAnalyticsData now response (setTimePeriod period st).

(** The screen after mounting and a sequence of presses. *)
Fixpoint presses (st : State A)
  (events : list (TimePeriod * Z * Response (list (Transaction A))))
  : State A :=
  match events with
  | [] => st
  | (period, now, response) :: events' =>
      presses (fst (pressPeriod period now response st)) events'
  end.

Definition session (now : Z) (response : Response (list (Transaction A)))
  (events : list (TimePeriod * Z * Response (list (Transaction A))))
  : State A :=
  presses (fst (fetchAnalyticsData now response initialState)) events.

(** The charts are those of the transactions held, and so is the summary,
    for some period, once there are transactions. *)
Definition coherent (st : State A) : Prop :=
  loading st = false
  /\ monthlyData st
     = processMonthlyData getFullYear getMonth monthShort (transactions st)
  /\ categorySpending st = processCategoryData (transactions st)
  /\ dailySpending st = processDailyData (transactions st)
  /\ (transactions st = []
      \/ exists period,
           totalStats st = calculateTotalStats period (transactions st)).

End Screen.

End Analytics.

(** ** Transactions list: fetch, delete and edit *)

Module ListScreen.

(** [fetchTransactions]: the list after the store's answer. *)
Definition fetchTransactions {A} (response : Response (list (Transaction A)))
  (transactions : list (Transaction A))
  : list (Transaction A) * list TransactionsList.Effect :=
  match response with
  | Data data => (data, [])
  | Error _ =>
      (transactions,
       [TransactionsList.Alert "Error" "Failed to fetch transactions"])
  | Thrown _ =>
      (transactions,
       [TransactionsList.Alert "Error" "An unexpected error occurred"])
  end.

(** What happens on the screen: a fetch (on mount, on focus, on pull to
    refresh) and a long press on the row at [index], with the button then
    pressed on the confirmation. *)
Inductive Event (A : Type) :=
| Fetch (response : Response (list (Transaction A)))
| LongPress (index : nat) (choice : TransactionsList.Choice)
    (response : Response unit).
Arguments Fetch {A}.
Arguments LongPress {A}.

Definition step {A} (transactions : list (Transaction A)) (e : Event A)
  : list (Transaction A) :=
  match e with
  | Fetch response => fst (fetchTransactions response transactions)
  | LongPress index choice response =>
      match nth_error transactions index with
      | Some item =>
          fst (TransactionsList.confirmDelete (id item) (description item)
                 choice response transactions)
      | None => transactions
      end
  end.

Definition run {A} (transactions : list (Transaction A))
  (events : list (Event A)) : list (Transaction A) :=
  fold_left step events transactions.

Definition isFetched {A} (e : Event A) : bool :=
  match e with
  | Fetch (Data _) => true
  | _ => false
  end.

(** [editTransaction]: the route parameters the form is opened with;
    [toString] is [Number.prototype.toString]. *)
Definition editTransaction (toString : float -> string)
  (transaction : Transaction float) : Form.Params :=
  Form.mkParams true (id transaction) (toString (amount transaction))
    (description transaction) (type transaction) (date transaction)
    (JS.or_string (categories transaction) EmptyString)
    (JS.or_string (subcategories transaction) EmptyString).

(** The amount of a transaction with the sign it enters the balance with. *)
Definition signedAmount (t : Transaction Qc) : Qc :=
  if isIncome t then amount t else (- amount t)%Qc.

End ListScreen.

(** ** Modal transaction form *)

Module TransactionForm.

Record EditData := mkEditData {
  ed_id : string;
  ed_title : string;
  ed_amount : float;
  ed_category : string
}.

Record State := mkState {
  title : string;
  amount : string;
  category : string
}.

Record Row := mkRow {
  r_title : string;
  r_amount : float;
  r_category : string
}.

Inductive Effect :=
| Update (id : string) (row : Row)
| Insert (row : Row)
| Saved
| Close.

Section Modal.
Variable parseFloat : string -> float.
Variable toString : float -> string.

(** The effect on [editData]: the fields filled from the record, or
    emptied. *)
Definition onEditData (editData : option EditData) : State :=
  match editData with
  | Some e => mkState (ed_title e) (toString (ed_amount e)) (ed_category e)
  | None => mkState EmptyString EmptyString EmptyString
  end.

(** [saveTransaction]; [response] is the store's answer to the request. *)
Definition saveTransaction (editData : option EditData)
  (response : Response unit) (st : State) : list Effect :=
  if negb (Form.nonEmpty (title st)) || negb (Form.nonEmpty (amount st))
  then []
  else
    let row := mkRow (title st) (parseFloat (amount st)) (category st) in
    let request :=
      match editData with
      | Some e => Update (ed_id e) row
      | None => Insert row
      end in
    match response with
    | Thrown _ => [request]
    | Data _ | Error _ => [request; Saved; Close]
    end.

End Modal.

End TransactionForm.

(** ** Add/edit form: vocabulary of the sessions *)

Module FormSession.
Import Form.

(** A request that writes to the store. *)
Definition isWrite (e : Effect) : bool :=
  match e with
  | Insert _ | Update _ _ => true
  | _ => false
  end.

(** The categories the store listed when the form was mounted. *)
Definition loaded (remote : Remote) : list Category :=
  match categoriesTable remote with
  | Data data => data
  | Error _ | Thrown _ => []
  end.

(** The store answers the query for the subcategories of a category with
    subcategories of that category. *)
Definition faithful (remote : Remote) : Prop :=
  forall categoryId rows,
    subcategoriesOf remote categoryId = Data rows ->
    forall sub, In sub rows -> sub_category_id sub = categoryId.

End FormSession.

(** ** Further concrete inputs *)

Module MoreSamples.

(** [Number.prototype.toString] on the numbers that are integers; the
    empty string on the others. *)
Definition toStringInteger (x : float) : string :=
  match Prim2SF x with
  | S754_zero _ => "0"%string
  | S754_finite negative m e =>
      let magnitude :=
        if (0 <=? e)%Z then Some (Z.pos m * 2 ^ e)%Z
        else if (Z.pos m mod 2 ^ (- e) =? 0)%Z
             then Some (Z.pos m / 2 ^ (- e))%Z
             else None in
      match magnitude with
      | Some n => JS.String_of (if negative then - n else n)%Z
      | None => EmptyString
      end
  | _ => EmptyString
  end.

(** Three rows with their ids. *)
Definition ledger : list (Transaction Qc) :=
  [mkTransaction "t1" (Q2Qc 12) "Lunch" expense "2024-03-01T12:00:00.000Z"
     (Some "Food"%string) None;
   mkTransaction "t2" (Q2Qc 1000) "Salary" income "2024-03-01T09:00:00.000Z"
     None None;
   mkTransaction "t3" (Q2Qc 30) "Train" expense "2024-02-27T07:30:00.000Z"
     (Some "Travel"%string) None].

(** The list is fetched, a refresh fails, the first row is deleted, and
    a delete of the next is refused by the store. *)
Definition listEvents : list (ListScreen.Event Qc) :=
  [ListScreen.Fetch (Error "offline"%string);
   ListScreen.Fetch (Data ledger);
   ListScreen.Fetch (Thrown "timeout"%string);
   ListScreen.LongPress 0 TransactionsList.DeleteIt (Data tt);
   ListScreen.LongPress 0 TransactionsList.DeleteIt (Error "denied"%string)].

(** A lunch is entered under Food and Groceries and submitted. *)
Definition lunchEntered : list Form.Event :=
  [Form.TypeAmount "12"%string; Form.TypeDescription "Lunch"%string;
   Form.PickCategory "c1"%string; Form.PickSubcategory "s1"%string;
   Form.PressSubmit (Data tt)].

End MoreSamples.

(** ** Vocabulary of the statements on running totals and their order *)

Section RunningTotals.
Context {A : Type} `{Number A}.

(** [b - a > 0]: the test by which the comparator [(a, b) => b - a] of a
    sort puts [b] before [a]. *)
Definition exceeds (b a : A) : bool := gtb (sub b a) zero.

(** The comparator orders the numbers of a list consistently, as
    [Array.prototype.sort] asks of its comparator: on these numbers
    [exceeds] is asymmetric and its negation is transitive.  In binary64
    this fails only where a difference is [NaN]. *)
Definition consistent (l : list A) : Prop :=
  (forall a b, In a l -> In b l -> exceeds b a = true -> exceeds a b = false)
  /\ (forall a b c, In a l -> In b l -> In c l ->
        exceeds b a = false -> exceeds c b = false -> exceeds c a = false).

(** [x || 0] resets no total: whenever the amount of a transaction is
    added to the total so far of its key, that total is not a falsy number
    other than 0.  In binary64 this says that no total added to is [NaN]
    or [-0]. *)
Definition steadyTotals (key : Transaction A -> string)
  (l : list (Transaction A)) : Prop :=
  forall pre t post,
    l = pre ++ t :: post ->
    let total := sumAmounts (filter (keyIs key (key t)) pre) in
    truthy total = false -> total = zero.

End RunningTotals.

(** ** Vocabulary of the statement on rounding *)

(** The value of a binary64 number that is finite; the others are given
    the value 0. *)
Definition floatValue (x : float) : Q :=
  match Prim2SF x with
  | S754_finite negative m e =>
      ((if negative then -1 else 1) * inject_Z (Z.pos m) * 2 ^ e)%Q
  | _ => 0%Q
  end.

(** The unit roundoff of binary64, [2^-53]. *)
Definition binary64_roundoff : Q := (1 # 9007199254740992)%Q.

(** The amounts of the categories, in the order in which the categories
    are first met. *)
Definition categoryAmounts {A} `{Number A} (transactions : list (Transaction A))
  : list A :=
  map (fun e => cb_amount (snd e)) (categoryMap transactions).

Section Rounding.
Context {A : Type} `{Number A}.
Local Open Scope Q_scope.

(** The value of a number of the arithmetic, and the largest relative
    error of an operation. *)
Variable val : A -> Q.
Variable u : Q.

(** The sum of the values of a list of numbers. *)
Definition sumOf (l : list A) : Q := fold_right (fun x s => val x + s) 0 l.

(** [x] is the number [exact] up to rounding. *)
Definition rounded (x : A) (exact : Q) : Prop :=
  Qabs (val x - exact) <= u * Qabs exact.

(** The computation of the shares of a list of positive amounts is
    rounded: each addition of the total, and each division and
    multiplication of a share, returns its exact result up to rounding,
    and [total > 0] is read off the value of the total. *)
Definition roundedShares (amounts : list A) : Prop :=
  let total := fold_left add amounts zero in
  val zero == 0 /\ val hundred == 100
  /\ (gtb total zero = true -> 0 < val total)
  /\ (forall a, In a amounts -> 0 < val a)
  /\ (forall pre a post,
        amounts = pre ++ a :: post ->
        let sofar := fold_left add pre zero in
        rounded (add sofar a) (val sofar + val a))
  /\ (forall a, In a amounts ->
        rounded (div a total) (val a / val total)
        /\ rounded (mul (div a total) hundred) (val (div a total) * 100)).

End Rounding.

(** ** Inputs in binary64 *)

Module FloatSamples.

(** Two categories whose exact sums tie at [10000000000000002]; in
    binary64 the running total of [A] stays at [1e16]. *)
Definition roundedTie : list (Transaction float) :=
  [spend "A" 1e16%float; spend "A" 1%float; spend "A" 1%float;
   spend "B" 10000000000000002%float].

(** Expenses of three days and an income, with ISO 8601 timestamps. *)
Definition winter : list (Transaction float) :=
  [Samples.dated "2023-12-30T09:00:00.000Z" expense 40%float;
   Samples.dated "2024-01-02T10:30:00.000Z" income 1000%float;
   Samples.dated "2024-01-02T18:45:00.000Z" expense 25.5%float;
   Samples.dated "2024-02-11T08:15:00.000Z" expense 0.1%float;
   Samples.dated "2024-01-02T21:00:00.000Z" expense 0.2%float].

(** Three categories of the same expense: each share is a third. *)
Definition thirds : list (Transaction float) :=
  [spend "Food" 1%float; spend "Rent" 1%float; spend "Fun" 1%float;
   tx income 10%float].

End FloatSamples.

(** ** Add/edit form: answers that arrive later *)

(** [Form.fetchSubcategories] applies the store's answer where the query
    is sent, which is what happens when the answer arrives before anything
    else does.  Here the query and its answer are two events: the form is
    shown while a query is under way, and the answer is applied to the form
    as it is when it arrives. *)
Module FormAsync.
Import Form.

(** What the user does, and the arrival of the answer to a query for the
    subcategories of a category. *)
Inductive Event :=
| User (e : Form.Event)
| SubcategoriesArrive (categoryId : string).

(** The form, the queries for subcategories under way, and what has been
    done to the outside so far. *)
Record Screen := mkScreen {
  form : State;
  queries : list string;
  effects : list Effect
}.

Fixpoint removeFirst (c : string) (l : list string) : list string :=
  match l with
  | [] => []
  | x :: l' => if String.eqb c x then l' else x :: removeFirst c l'
  end.

Section Controller.
Variable params : Params.
Variable remote : Remote.
Variable parseFloat : string -> float.
Variable trim : string -> string.
Variable now : string.

(** The effect on [selectedCategory], up to the [await] of
    [fetchSubcategories]: the query is sent, or else the list and the
    selected subcategory are emptied. *)
Definition onSelectedCategory (st : State)
  : State * list string * list Effect :=
  if nonEmpty (selectedCategory st)
  then (st, [selectedCategory st],
        [SelectSubcategories (selectedCategory st)])
  else (setSelectedSubcategory EmptyString (setSubcategories [] st), [], []).

Definition changeSelectedCategory (v : string) (st : State)
  : State * list string * list Effect :=
  if String.eqb v (selectedCategory st) then (st, [], [])
  else onSelectedCategory (setSelectedCategory v st).

(** [fetchSubcategories] after its [await]: the answer is set as the list
    of the form as it then is, whatever category is selected by then; the
    effect on [subcategories] follows. *)
Definition subcategoriesArrive (categoryId : string) (st : State)
  : State * list Effect :=
  match subcategoriesOf remote categoryId with
  | Data data => (matchSubcategory params (setSubcategories data st), [])
  | Error _ | Thrown _ =>
      (setSubcategories [] st,
       [Alert "Error" "Failed to fetch subcategories"])
  end.

Definition matchCategory (st : State) : State * list string * list Effect :=
  if isEditMode params && negb (Nat.eqb (List.length (categories st)) 0)
     && nonEmpty (categoryName params)
  then
    match find (fun cat => String.eqb (cat_name cat) (categoryName params))
            (categories st) with
    | Some category => changeSelectedCategory (cat_id category) st
    | None => (st, [], [])
    end
  else (st, [], []).

(** Mounting, up to the moment the form is shown: the categories are
    loaded and the fields filled; in edit mode the query for the
    subcategories of the record's category is under way. *)
Definition initializeForm : Screen :=
  let '(st, qs, effs) :=
    match categoriesTable remote with
    | Data data =>
        let '(st', qs, effs) :=
          matchCategory (setCategories data (initialState now)) in
        (st', qs, SelectCategories :: effs)
    | Error _ | Thrown _ =>
        (setCategories [] (initialState now), [],
         [SelectCategories; Alert "Error" "Failed to fetch categories"])
    end in
  if isEditMode params && nonEmpty (p_amount params)
  then mkScreen
         (setDate (if nonEmpty (p_date params) then p_date params
                   else date st)
            (setType (p_type params)
               (setDescription (p_description params)
                  (setAmount (p_amount params) st))))
         qs effs
  else mkScreen st qs effs.

(** An answer can arrive for a query that is under way. *)
Definition offered (s : Screen) (e : Event) : bool :=
  match e with
  | User e' => Form.offered (form s) (effects s) e'
  | SubcategoriesArrive c => existsb (String.eqb c) (queries s)
  end.

Definition step (s : Screen) (e : Event) : Screen :=
  match e with
  | User (PickCategory v) =>
      let '(st, qs, effs) := changeSelectedCategory v (form s) in
      mkScreen st (queries s ++ qs) (effects s ++ effs)
  | User e' =>
      let (st, effs) :=
        Form.step params remote parseFloat trim now (form s) e' in
      mkScreen st (queries s) (effects s ++ effs)
  | SubcategoriesArrive c =>
      let (st, effs) := subcategoriesArrive c (form s) in
      mkScreen st (removeFirst c (queries s)) (effects s ++ effs)
  end.

Fixpoint run (s : Screen) (events : list Event) : option Screen :=
  match events with
  | [] => Some s
  | e :: events' => if offered s e then run (step s e) events' else None
  end.

Definition session (events : list Event) : option Screen :=
  run initializeForm events.

(** The user acts only while no query is under way: every answer arrives
    before the next thing the user does. *)
Fixpoint calmFrom (s : Screen) (events : list Event) : bool :=
  match events with
  | [] => true
  | e :: events' =>
      match e, queries s with
      | User _, _ :: _ => false
      | _, _ => if offered s e then calmFrom (step s e) events' else true
      end
  end.

Definition calm (events : list Event) : bool := calmFrom initializeForm events.

End Controller.

End FormAsync.

(** ** Add/edit form: the date sent *)

(** The form holds a [Date]; [Form.State] gives it by the text it was
    built from: the ISO 8601 text of the current time and of a date
    picked, and in edit mode the text of the route parameter.
    [Form.handleSubmit] sends that text, which is what the code sends when
    the text is the ISO 8601 text of a valid date.  Here the date is sent
    as the code computes it, by [toISOString]. *)
Module FormDates.
Import Form.

Section Submission.
Variable params : Params.
Variable parseFloat : string -> float.
Variable trim : string -> string.

(** [new Date(text).toISOString()]: the ISO 8601 text of the date, and
    [None] where the text does not parse: the date is invalid and the call
    throws. *)
Variable toISOString : string -> option string.

Definition transactionData (iso : string) (st : State) : TransactionData :=
  mkTransactionData (parseFloat (amount st)) (trim (description st))
    (type st) iso (selectedCategory st)
    (if nonEmpty (selectedSubcategory st)
     then Some (selectedSubcategory st) else None).

(** [handleSubmit]; the record is built inside the [try], so that an
    invalid date ends in the [catch] before anything is sent. *)
Definition handleSubmit (response : Response unit) (st : State)
  : State * list Effect :=
  match validateForm parseFloat trim st with
  | Some alert => (st, [alert])
  | None =>
      match toISOString (date st) with
      | None =>
          (setLoading false (setLoading true st),
           [Alert "Error" "An unexpected error occurred. Please try again."])
      | Some iso =>
          let request :=
            if isEditMode params
            then Update (transactionId params) (transactionData iso st)
            else Insert (transactionData iso st) in
          let outcome :=
            match response with
            | Data _ =>
                Alert "Success"
                  (if isEditMode params
                   then "Transaction updated successfully!"
                   else "Transaction added successfully!")
            | Error _ =>
                Alert "Error"
                  (if isEditMode params
                   then "Failed to update transaction. Please try again."
                   else "Failed to add transaction. Please try again.")
            | Thrown _ =>
                Alert "Error"
                  "An unexpected error occurred. Please try again."
            end in
          (setLoading false (setLoading true st), [request; outcome])
      end
  end.

End Submission.

End FormDates.

(** ** Further inputs for the form *)

Module FormSamples.

(** Whether [text] has the shape of [pattern], where [d] stands for a
    digit and every other character for itself. *)
Fixpoint shaped (pattern text : string) : bool :=
  match pattern, text with
  | EmptyString, EmptyString => true
  | String p pattern', String c text' =>
      (if Ascii.eqb p "d"%char
       then match Samples.digitValue c with Some _ => true | None => false end
       else Ascii.eqb p c)
      && shaped pattern' text'
  | _, _ => false
  end.

(** [new Date(text).toISOString()] on the timestamps of the samples: UTC
    timestamps with whole seconds, written with [Z], [.000Z] or [+00:00];
    no other text is taken for a date. *)
Definition toISOStringUtc (text : string) : option string :=
  let stamp := substring 0 19 text in
  let zone := substring 19 (String.length text - 19) text in
  if shaped "dddd-dd-ddTdd:dd:dd" stamp
     && (String.eqb zone "Z" || String.eqb zone ".000Z"
         || String.eqb zone "+00:00")
  then Some (stamp ++ ".000Z")%string
  else None.

(** A row as the store returns it, with its time zone written [+00:00]. *)
Definition storedLunch : Transaction float :=
  mkTransaction "t7" 12%float "Lunch" expense "2024-03-01T12:00:00+00:00"
    (Some "Food"%string) (Some "Groceries"%string).

(** Food is chosen and its subcategories arrive; Groceries is chosen; the
    category is cleared. *)
Definition calmPicks : list FormAsync.Event :=
  [FormAsync.User (Form.PickCategory "c1");
   FormAsync.SubcategoriesArrive "c1";
   FormAsync.User (Form.PickSubcategory "s1");
   FormAsync.User (Form.PickCategory EmptyString)].

(** Food is chosen, then Travel, and each answer arrives in its turn. *)
Definition calmChange : list FormAsync.Event :=
  [FormAsync.User (Form.PickCategory "c1");
   FormAsync.SubcategoriesArrive "c1";
   FormAsync.User (Form.PickCategory "c2");
   FormAsync.SubcategoriesArrive "c2"].

(** Food is chosen and cleared before its subcategories arrive. *)
Definition lateAnswer : list FormAsync.Event :=
  [FormAsync.User (Form.PickCategory "c1");
   FormAsync.User (Form.PickCategory EmptyString);
   FormAsync.SubcategoriesArrive "c1"].

Definition session (events : list FormAsync.Event)
  : option FormAsync.Screen :=
  FormAsync.session Samples.addMode Samples.store Samples.parseFloatInteger
    Samples.trimAscii "2024-03-01T12:00:00.000Z" events.

Definition calm (events : list FormAsync.Event) : bool :=
  FormAsync.calm Samples.addMode Samples.store
    Samples.parseFloatInteger Samples.trimAscii "2024-03-01T12:00:00.000Z"
    events.

End FormSamples.

(** ** Facts about the runtime model *)

Module JSFacts.
Import JS.

Section MapFacts.
Context {V : Type}.
Implicit Types (m : Map V) (k : string) (v : V).

Lemma get_set_same k v m : get k (set k v m) = Some v.
Proof.
  induction m as [|[k' v'] m IH]; cbn.
  - now rewrite String.eqb_refl.
  - destruct (String.eqb k k') eqn:E; cbn; rewrite E; auto.
Qed.

Lemma get_set_other k k' v m : k <> k' -> get k' (set k v m) = get k' m.
Proof.
  intro Hne. induction m as [|[k0 v0] m IH]; cbn.
  - destruct (String.eqb k' k) eqn:E; auto.
    apply String.eqb_eq in E. congruence.
  - destruct (String.eqb k k0) eqn:E; cbn.
    + apply String.eqb_eq in E. subst k0.
      destruct (String.eqb k' k) eqn:E'; auto.
      apply String.eqb_eq in E'. congruence.
    + now rewrite IH.
Qed.

Lemma set_set k v1 v2 m : set k v2 (set k v1 m) = set k v2 m.
Proof.
  induction m as [|[k' v'] m IH]; cbn.
  - now rewrite String.eqb_refl.
  - destruct (String.eqb k k') eqn:E; cbn; rewrite E; congruence.
Qed.

Lemma has_In k m : has k m = true <-> In k (map fst m).
Proof.
  unfold has. induction m as [|[k' v'] m IH]; cbn.
  - split; [discriminate | tauto].
  - destruct (String.eqb k k') eqn:E.
    + apply String.eqb_eq in E. subst. tauto.
    + apply String.eqb_neq in E. rewrite IH. split; [tauto|].
      intros [?|?]; congruence.
Qed.

Lemma has_false k m : has k m = false <-> ~ In k (map fst m).
Proof.
  rewrite <- has_In. destruct (has k m); split; congruence.
Qed.

Lemma get_In k v m : get k m = Some v -> In (k, v) m.
Proof.
  induction m as [|[k' v'] m IH]; cbn; [discriminate|].
  destruct (String.eqb k k') eqn:E.
  - apply String.eqb_eq in E. intros [= ->]. subst. auto.
  - auto.
Qed.

Lemma In_get k v m : NoDup (map fst m) -> In (k, v) m -> get k m = Some v.
Proof.
  induction m as [|[k' v'] m IH]; cbn; [tauto|].
  intros Hnd [Heq|Hin].
  - injection Heq as -> ->. now rewrite String.eqb_refl.
  - inversion Hnd as [|? ? Hnotin Hnd']; subst.
    destruct (String.eqb k k') eqn:E; auto.
    apply String.eqb_eq in E. subst k'.
    exfalso. apply Hnotin. change k with (fst (k, v)). now apply in_map.
Qed.

Lemma keys_set k v m :
  map fst (set k v m) = if has k m then map fst m else map fst m ++ [k].
Proof.
  unfold has. induction m as [|[k' v'] m IH]; cbn; auto.
  destruct (String.eqb k k') eqn:E; cbn; auto.
  rewrite IH. now destruct (get k m).
Qed.

Lemma NoDup_set k v m : NoDup (map fst m) -> NoDup (map fst (set k v m)).
Proof.
  intro Hnd. rewrite keys_set. destruct (has k m) eqn:E; auto.
  apply has_false in E.
  apply NoDup_rev in Hnd. rewrite <- (rev_involutive (_ ++ _)).
  apply NoDup_rev. rewrite rev_app_distr. cbn. constructor; auto.
  now rewrite <- in_rev.
Qed.

End MapFacts.

(** Grouping: every [forEach] of the analytics screen folds [upsert] for
    some key, initial value and update. *)
Section Upsert.
Context {T V : Type}.
Variable key : T -> string.
Variable init : V.
Variable upd : V -> T -> V.

#[local] Abbreviation default := (default init).
#[local] Abbreviation upsert := (upsert key init upd).
#[local] Abbreviation keyIs := (keyIs key).

Lemma get_fold_upsert (l : list T) : forall (m : Map V) (k : string),
  get k (fold_left upsert l m)
  = match filter (keyIs k) l with
    | [] => get k m
    | ts => Some (fold_left upd ts (default (get k m)))
    end.
Proof.
  induction l as [|t l IH]; intros m k; cbn [fold_left filter]; auto.
  rewrite IH. destruct (keyIs k t) eqn:E; unfold keyIs in E.
  - apply String.eqb_eq in E. subst k. unfold upsert.
    rewrite get_set_same. cbn. now destruct (filter _ l).
  - apply String.eqb_neq in E. unfold upsert.
    rewrite get_set_other by auto. reflexivity.
Qed.

Lemma keys_fold_upsert (l : list T) : forall (m : Map V) (k : string),
  In k (map fst (fold_left upsert l m))
  <-> In k (map fst m) \/ In k (map key l).
Proof.
  induction l as [|t l IH]; intros m k; cbn [fold_left map].
  - cbn. tauto.
  - rewrite IH. unfold upsert. rewrite keys_set.
    destruct (has (key t) m) eqn:E; cbn.
    + apply has_In in E. intuition (subst; auto).
    + rewrite in_app_iff. cbn. intuition (subst; auto).
Qed.

Lemma NoDup_fold_upsert (l : list T) : forall (m : Map V),
  NoDup (map fst m) -> NoDup (map fst (fold_left upsert l m)).
Proof.
  induction l as [|t l IH]; intros m Hnd; cbn; auto.
  apply IH. now apply NoDup_set.
Qed.

(** The keys stand in the order of their first occurrence. *)
Lemma keys_fold_upsert_prefix (l : list T) : forall (m : Map V),
  exists ext, map fst (fold_left upsert l m) = map fst m ++ ext.
Proof.
  induction l as [|t l IH]; intro m; cbn [fold_left].
  - exists []. now rewrite app_nil_r.
  - destruct (IH (upsert m t)) as [ext Hext]. rewrite Hext.
    unfold upsert. rewrite keys_set. destruct (has (key t) m).
    + now exists ext.
    + exists ([key t] ++ ext). now rewrite <- app_assoc.
Qed.

Lemma fold_upsert_app (l1 l2 : list T) (m : Map V) :
  fold_left upsert (l1 ++ l2) m = fold_left upsert l2 (fold_left upsert l1 m).
Proof. apply fold_left_app. Qed.

End Upsert.

Section SortFacts.
Context {T : Type}.
Variable cmp : T -> T -> comparison.

Lemma insert_perm x (l : list T) : Permutation (insert cmp x l) (x :: l).
Proof.
  induction l as [|y l IH]; cbn; auto.
  destruct (cmp x y); auto.
  rewrite IH. apply perm_swap.
Qed.

Lemma sort_perm (l : list T) : Permutation (sort cmp l) l.
Proof.
  induction l as [|x l IH]; cbn; auto.
  rewrite insert_perm. now constructor.
Qed.

Lemma sort_length (l : list T) : List.length (sort cmp l) = List.length l.
Proof. apply Permutation_length, sort_perm. Qed.

Lemma sort_In x (l : list T) : In x (sort cmp l) <-> In x l.
Proof.
  split; apply Permutation_in; [|symmetry]; apply sort_perm.
Qed.

Lemma sort_cons x (l : list T) : sort cmp (x :: l) = insert cmp x (sort cmp l).
Proof. reflexivity. Qed.

End SortFacts.

Section Slices.
Context {T : Type}.

Lemma sliceLast_length n (l : list T) :
  List.length (sliceLast n l) = Nat.min n (List.length l).
Proof. unfold sliceLast. rewrite length_skipn. lia. Qed.

Lemma sliceLast_split n (l : list T) :
  l = firstn (List.length l - n) l ++ sliceLast n l.
Proof. unfold sliceLast. now rewrite firstn_skipn. Qed.

Lemma sliceFirst_all n (l : list T) : List.length l <= n -> sliceFirst n l = l.
Proof. intro Hle. now apply firstn_all2. Qed.

End Slices.

(** Sorting entries by key with [localeCompare]. *)
Section KeySort.
Context {V : Type}.

Lemma compare_trans (a b c : string) :
  String.compare a b = Lt -> String.compare b c = Lt ->
  String.compare a c = Lt.
Proof.
  intros H1 H2.
  apply (proj2 (String_as_OT.cmp_lt a c)).
  apply String_as_OT.lt_trans with b; now apply String_as_OT.cmp_lt.
Qed.

Lemma compare_Gt_Lt (a b : string) :
  String.compare a b = Gt -> String.compare b a = Lt.
Proof.
  intro Hgt. rewrite String.compare_antisym, Hgt. reflexivity.
Qed.

Lemma insert_keySorted (x : string * V) (l : list (string * V)) :
  StronglySorted keyLt l -> ~ In (fst x) (map fst l) ->
  StronglySorted keyLt (insert byKey x l).
Proof.
  induction 1 as [|y l Hl IH Hy]; intro Hnotin; cbn.
  - repeat constructor.
  - unfold byKey at 1, localeCompare.
    destruct (String.compare (fst x) (fst y)) eqn:E.
    + apply String.compare_eq_iff in E. exfalso. apply Hnotin. cbn. auto.
    + constructor; [now constructor|].
      constructor; auto.
      rewrite Forall_forall in Hy |- *. intros z Hz.
      apply compare_trans with (fst y); auto. now apply Hy.
    + constructor.
      * apply IH. cbn in Hnotin. tauto.
      * rewrite Forall_forall in Hy |- *. intros z Hz.
        apply (Permutation_in _ (insert_perm byKey x l)) in Hz.
        destruct Hz as [<-|Hz]; [now apply compare_Gt_Lt | now apply Hy].
Qed.

Lemma sort_keySorted (l : list (string * V)) :
  NoDup (map fst l) -> StronglySorted keyLt (sort byKey l).
Proof.
  induction l as [|x l IH]; cbn [map]; intro Hnd; cbn.
  - constructor.
  - inversion Hnd as [|? ? Hnotin Hnd']; subst.
    apply insert_keySorted; auto.
    intro Hin. apply Hnotin.
    apply (Permutation_in _ (Permutation_map fst (sort_perm byKey l))).
    exact Hin.
Qed.

Lemma StronglySorted_app_inv (R : string * V -> string * V -> Prop)
  (l1 l2 : list (string * V)) :
  StronglySorted R (l1 ++ l2) ->
  StronglySorted R l1 /\ StronglySorted R l2
  /\ forall a b, In a l1 -> In b l2 -> R a b.
Proof.
  induction l1 as [|x l1 IH]; cbn; intro Hs.
  - split; [constructor | split; [assumption | intros a b []]].
  - inversion Hs as [|? ? Hs' Hx]; subst.
    destruct (IH Hs') as (H1 & H2 & H12).
    rewrite Forall_forall in Hx.
    repeat split; auto.
    + constructor; auto. rewrite Forall_forall. intros z Hz.
      apply Hx, in_app_iff. auto.
    + intros a b [<-|Ha] Hb; auto. apply Hx, in_app_iff. auto.
Qed.

Lemma StronglySorted_keys (l : list (string * V)) :
  StronglySorted keyLt l ->
  StronglySorted (fun a b => String.compare a b = Lt) (map fst l).
Proof.
  induction 1 as [|x l Hl IH Hx]; cbn; constructor; auto.
  rewrite Forall_forall in Hx |- *. intros k Hk.
  apply in_map_iff in Hk. destruct Hk as (e & <- & He). now apply Hx.
Qed.

Lemma lastByKey_split (n : nat) (m : Map V) :
  sort byKey m
  = firstn (List.length (sort byKey m) - n) (sort byKey m) ++ lastByKey n m.
Proof. apply sliceLast_split. Qed.

Lemma lastByKey_In (n : nat) (m : Map V) (e : string * V) :
  In e (lastByKey n m) -> In e m.
Proof.
  intro Hin. apply (sort_In byKey).
  rewrite (lastByKey_split n m). apply in_app_iff. now right.
Qed.

Lemma lastByKey_length (n : nat) (m : Map V) :
  List.length (lastByKey n m) = Nat.min n (List.length m).
Proof. unfold lastByKey. now rewrite sliceLast_length, sort_length. Qed.

Lemma lastByKey_sorted (n : nat) (m : Map V) :
  NoDup (map fst m) -> StronglySorted keyLt (lastByKey n m).
Proof.
  intro Hnd. pose proof (sort_keySorted m Hnd) as Hs.
  rewrite (lastByKey_split n m) in Hs.
  now apply StronglySorted_app_inv in Hs.
Qed.

(** An entry is left out only when [n] entries with later keys are kept. *)
Lemma lastByKey_recent (n : nat) (m : Map V) (k : string) :
  NoDup (map fst m) -> In k (map fst m) ->
  In k (map fst (lastByKey n m))
  \/ (List.length (map fst (lastByKey n m)) = n
      /\ forall k', In k' (map fst (lastByKey n m)) ->
           String.compare k k' = Lt).
Proof.
  intros Hnd Hk.
  apply in_map_iff in Hk. destruct Hk as ([k0 d] & Hkd & Hin). cbn in Hkd.
  apply (sort_In byKey) in Hin.
  pose proof (sort_keySorted m Hnd) as Hs.
  pose proof (sort_length byKey m) as Hlen.
  rewrite (lastByKey_split n m) in Hin, Hs. apply in_app_iff in Hin.
  destruct Hin as [Hdrop|Hkeep].
  - right. split.
    + rewrite length_map, lastByKey_length.
      assert (Hpos : List.length (sort byKey m) - n <> 0).
      { intro E. rewrite E in Hdrop. exact Hdrop. }
      lia.
    + intros k' Hk'. apply in_map_iff in Hk'.
      destruct Hk' as (e & <- & He).
      apply StronglySorted_app_inv in Hs.
      destruct Hs as (_ & _ & Hlt). rewrite <- Hkd.
      exact (Hlt (k0, d) e Hdrop He).
  - left. rewrite <- Hkd. change k0 with (fst (k0, d)). now apply in_map.
Qed.

End KeySort.

Lemma StronglySorted_weaken {T} (R R' : T -> T -> Prop) (l : list T) :
  (forall a b, R a b -> R' a b) -> StronglySorted R l -> StronglySorted R' l.
Proof.
  intro Himp. induction 1 as [|x l Hl IH Hx]; constructor; auto.
  rewrite Forall_forall in Hx |- *. auto.
Qed.

End JSFacts.

(** ** Decimal keys and their order *)

Module Digits.

Lemma digit_compare (a b : Z) :
  (0 <= a <= 9)%Z -> (0 <= b <= 9)%Z ->
  Ascii.compare (digit a) (digit b) = (a ?= b)%Z.
Proof.
  intros Ha Hb.
  assert (Hcases : forall x, (0 <= x <= 9)%Z ->
            x = 0%Z \/ x = 1%Z \/ x = 2%Z \/ x = 3%Z \/ x = 4%Z \/ x = 5%Z
            \/ x = 6%Z \/ x = 7%Z \/ x = 8%Z \/ x = 9%Z) by (intros; lia).
  destruct (Hcases a Ha) as [->|[->|[->|[->|[->|[->|[->|[->|[->| ->]]]]]]]]];
  destruct (Hcases b Hb) as [->|[->|[->|[->|[->|[->|[->|[->|[->| ->]]]]]]]]];
  reflexivity.
Qed.

Lemma compare_cons (c1 c2 : ascii) (s1 s2 : string) :
  String.compare (String c1 s1) (String c2 s2)
  = match Ascii.compare c1 c2 with
    | Eq => String.compare s1 s2
    | c => c
    end.
Proof. cbn. now destruct (Ascii.compare c1 c2). Qed.

Lemma compare_same_head (c : ascii) (s1 s2 : string) :
  String.compare (String c s1) (String c s2) = String.compare s1 s2.
Proof.
  rewrite compare_cons.
  assert (E : Ascii.compare c c = Eq).
  { unfold Ascii.compare. apply N.compare_refl. }
  now rewrite E.
Qed.

(** Two-digit fields compare as their numbers do. *)
Lemma digits2_compare (a b : Z) (s t : string) :
  (0 <= a <= 99)%Z -> (0 <= b <= 99)%Z ->
  String.compare (digits2 a ++ s) (digits2 b ++ t)
  = match (a ?= b)%Z with
    | Eq => String.compare s t
    | c => c
    end.
Proof.
  intros Ha Hb. unfold digits2. cbn [append].
  rewrite !compare_cons.
  rewrite !digit_compare by (Z.div_mod_to_equations; lia).
  destruct (Z.compare_spec (a / 10) (b / 10)) as [E1|E1|E1];
  [ destruct (Z.compare_spec (a mod 10) (b mod 10)) as [E2|E2|E2] | | ];
  destruct (Z.compare_spec a b) as [E|E|E]; try reflexivity;
  exfalso; Z.div_mod_to_equations; lia.
Qed.

Lemma append_empty (s : string) : (s ++ EmptyString)%string = s.
Proof. induction s as [|c s IH]; cbn; congruence. Qed.

Lemma digits2_compare_end (a b : Z) :
  (0 <= a <= 99)%Z -> (0 <= b <= 99)%Z ->
  String.compare (digits2 a) (digits2 b) = (a ?= b)%Z.
Proof.
  intros Ha Hb.
  rewrite <- (append_empty (digits2 a)), <- (append_empty (digits2 b)).
  rewrite digits2_compare by assumption. cbn. now destruct (a ?= b)%Z.
Qed.

(** Four-digit fields compare as their numbers do. *)
Lemma digits4_compare (a b : Z) (s t : string) :
  (0 <= a <= 9999)%Z -> (0 <= b <= 9999)%Z ->
  String.compare (digits4 a ++ s) (digits4 b ++ t)
  = match (a ?= b)%Z with
    | Eq => String.compare s t
    | c => c
    end.
Proof.
  intros Ha Hb. unfold digits4. cbn [append].
  rewrite !compare_cons.
  rewrite !digit_compare by (Z.div_mod_to_equations; lia).
  destruct (Z.compare_spec (a / 1000) (b / 1000)) as [E1|E1|E1];
  [ destruct (Z.compare_spec (a / 100 mod 10) (b / 100 mod 10)) as [E2|E2|E2];
    [ destruct (Z.compare_spec (a / 10 mod 10) (b / 10 mod 10)) as [E3|E3|E3];
      [ destruct (Z.compare_spec (a mod 10) (b mod 10)) as [E4|E4|E4] | | ]
    | | ]
  | | ];
  destruct (Z.compare_spec a b) as [E|E|E]; try reflexivity;
  exfalso; Z.div_mod_to_equations; lia.
Qed.

(** [String(y)] writes a year from 1000 to 9999 with its four digits. *)
Lemma String_of_year_table :
  forallb (fun n => String.eqb (JS.String_of (1000 + Z.of_nat n))
                      (digits4 (1000 + Z.of_nat n)))
    (seq 0 (Z.to_nat 9000)) = true.
Proof. vm_compute. reflexivity. Qed.

Lemma String_of_year (y : Z) :
  fourDigitYear y -> JS.String_of y = digits4 y.
Proof.
  intros [Hlo Hhi].
  pose proof (proj1 (forallb_forall _ _) String_of_year_table
                (Z.to_nat (y - 1000))) as Hn.
  cbv beta in Hn.
  replace (1000 + Z.of_nat (Z.to_nat (y - 1000)))%Z with y in Hn by lia.
  apply String.eqb_eq, Hn, in_seq. lia.
Qed.

(** [String(m + 1).padStart(2, '0')] writes a month with two digits. *)
Lemma padStart_month (m : Z) :
  (0 <= m <= 11)%Z ->
  JS.padStart 2 "0"%char (JS.String_of (m + 1)) = digits2 (m + 1).
Proof.
  intro Hm.
  assert (Hcases : m = 0%Z \/ m = 1%Z \/ m = 2%Z \/ m = 3%Z \/ m = 4%Z
            \/ m = 5%Z \/ m = 6%Z \/ m = 7%Z \/ m = 8%Z \/ m = 9%Z
            \/ m = 10%Z \/ m = 11%Z) by lia.
  destruct Hcases as [->|[->|[->|[->|[->|[->|[->|[->|[->|[->|[->| ->]]]]]]]]]]];
  reflexivity.
Qed.

End Digits.

Module IsoDates.

Lemma digit_not_T (d : Z) : (0 <= d <= 9)%Z -> Ascii.eqb (digit d) "T" = false.
Proof.
  intro Hd.
  assert (Hcases : d = 0%Z \/ d = 1%Z \/ d = 2%Z \/ d = 3%Z \/ d = 4%Z
            \/ d = 5%Z \/ d = 6%Z \/ d = 7%Z \/ d = 8%Z \/ d = 9%Z) by lia.
  destruct Hcases as [->|[->|[->|[->|[->|[->|[->|[->|[->| ->]]]]]]]]];
  reflexivity.
Qed.

Lemma split_T_0_isoDate (y m d : Z) (time : string) :
  fourDigitYear y -> (0 <= m <= 99)%Z -> (0 <= d <= 99)%Z ->
  JS.split_T_0 (isoDate y m d ++ "T" ++ time) = isoDate y m d.
Proof.
  intros Hy Hm Hd. unfold fourDigitYear in Hy.
  unfold isoDate, digits4, digits2. cbn [append JS.split_T_0].
  rewrite !digit_not_T by (Z.div_mod_to_equations; lia).
  reflexivity.
Qed.

(** ISO dates compare as the days they name. *)
Lemma isoDate_compare (y1 m1 d1 y2 m2 d2 : Z) :
  fourDigitYear y1 -> (0 <= m1 <= 99)%Z -> (0 <= d1 <= 99)%Z ->
  fourDigitYear y2 -> (0 <= m2 <= 99)%Z -> (0 <= d2 <= 99)%Z ->
  String.compare (isoDate y1 m1 d1) (isoDate y2 m2 d2)
  = (dayNumber y1 m1 d1 ?= dayNumber y2 m2 d2)%Z.
Proof.
  unfold fourDigitYear, isoDate, dayNumber. intros Hy1 Hm1 Hd1 Hy2 Hm2 Hd2.
  rewrite Digits.digits4_compare by lia.
  cbn [append]. rewrite Digits.compare_same_head.
  rewrite Digits.digits2_compare by lia.
  cbn [append]. rewrite Digits.compare_same_head.
  rewrite Digits.digits2_compare_end by lia.
  destruct (Z.compare_spec y1 y2);
  [ destruct (Z.compare_spec m1 m2); [ destruct (Z.compare_spec d1 d2) | | ]
  | | ];
  symmetry; first [ apply Z.compare_eq_iff | apply Z.compare_lt_iff
                  | apply Z.compare_gt_iff ]; lia.
Qed.

End IsoDates.

(** ** Totals kept under [x || 0] *)

Section SteadyTotals.
Context {A : Type} `{Number A}.
Variable key : Transaction A -> string.

#[local] Abbreviation addAmount :=
  (fun (sum : A) (t : Transaction A) => add sum (amount t)).

Lemma steadyTotals_prefix (l : list (Transaction A)) (t : Transaction A) :
  steadyTotals key (l ++ [t]) -> steadyTotals key l.
Proof.
  intros Hs pre t' post E. apply (Hs pre t' (post ++ [t])).
  rewrite E, <- app_assoc. reflexivity.
Qed.

(** Where [x || 0] resets no total, a [forEach] that adds each amount to
    [map.get(key) || 0] groups the amounts by key. *)
Lemma fold_or_zero_upsert (l : list (Transaction A)) :
  steadyTotals key l ->
  fold_left
    (fun m t =>
       JS.set (key t) (add (or_zero (JS.get (key t) m)) (amount t)) m) l []
  = fold_left (upsert key zero addAmount) l [].
Proof.
  induction l as [|t l IH] using rev_ind; intro Hs; [reflexivity|].
  rewrite !fold_left_app. cbn [fold_left].
  rewrite IH by now apply steadyTotals_prefix in Hs.
  set (M := fold_left (upsert key zero addAmount) l []).
  assert (Hor : or_zero (JS.get (key t) M) = default zero (JS.get (key t) M)).
  { subst M. rewrite JSFacts.get_fold_upsert. cbn [JS.get default].
    specialize (Hs l t [] eq_refl). cbv zeta in Hs. unfold sumAmounts in Hs.
    destruct (filter (keyIs key (key t)) l) as [|t' ts] eqn:E; [reflexivity|].
    cbn [or_zero default].
    destruct (truthy _) eqn:Et; [reflexivity|].
    symmetry. now apply Hs. }
  unfold upsert. now rewrite Hor.
Qed.

(** In an arithmetic where no number but zero is falsy, [x || 0] resets
    no total. *)
Lemma steadyTotals_all (l : list (Transaction A)) :
  (forall x : A, truthy x = false -> x = zero) -> steadyTotals key l.
Proof. intros Hfalsy pre t post _ total. apply Hfalsy. Qed.

End SteadyTotals.

(** ** Balance *)

(** C1, as stated, fails in binary64: on an income of [0.3] and expenses of
    [0.1] and [0.2] the list screen's fold gives [-2.7755575615628914e-17],
    while the sum of the incomes minus the sum of the expenses, which is
    the dashboard's balance, is [-5.5511151231257827e-17]. *)
Lemma balance_not_exact_in_binary64 :
  ~ (forall l : list (Transaction float),
       getTotalBalance l
       = sub (sumAmounts (filter isIncome l))
           (sumAmounts (filter isExpense l))).
Proof.
  intro Hall. specialize (Hall balance_sample).
  apply (f_equal (fun v => PrimFloat.eqb v (-2.7755575615628914e-17)%float))
    in Hall.
  vm_compute in Hall. discriminate.
Qed.

Section ExactBalance.
Local Open Scope Qc_scope.

Lemma getTotalBalance_acc (l : list (Transaction Qc)) (a : Qc) :
  fold_left
    (fun total t => if isIncome t then add total (amount t)
                    else sub total (amount t)) l a
  = a + getTotalBalance l.
Proof.
  unfold getTotalBalance. revert a.
  induction l as [|t l IH]; intro a; cbn [fold_left].
  - cbn. ring.
  - rewrite IH, (IH (if isIncome t then _ else _)).
    destruct (isIncome t); cbn; ring.
Qed.

Lemma sumAmounts_acc (l : list (Transaction Qc)) (a : Qc) :
  fold_left (fun sum t => add sum (amount t)) l a = a + sumAmounts l.
Proof.
  unfold sumAmounts. revert a.
  induction l as [|t l IH]; intro a; cbn [fold_left].
  - cbn. ring.
  - rewrite IH, (IH (add zero (amount t))). cbn. ring.
Qed.

Lemma sumAmounts_cons (t : Transaction Qc) (l : list (Transaction Qc)) :
  sumAmounts (t :: l) = amount t + sumAmounts l.
Proof.
  unfold sumAmounts at 1. cbn [fold_left]. rewrite sumAmounts_acc. cbn. ring.
Qed.

Lemma getTotalBalance_cons (t : Transaction Qc) (l : list (Transaction Qc)) :
  getTotalBalance (t :: l)
  = (if isIncome t then amount t else - amount t) + getTotalBalance l.
Proof.
  unfold getTotalBalance at 1. cbn [fold_left]. rewrite getTotalBalance_acc.
  destruct (isIncome t); cbn; ring.
Qed.

(** C1, amended: the dashboard's [totalBalance] is the sum of the income
    amounts minus the sum of the expense amounts, in any arithmetic; where
    the arithmetic on amounts is exact, the list screen's signed fold
    equals the same value. *)
Theorem balance_exact_arithmetic :
  (forall (A : Type) (N : Number A) (l : list (Transaction A))
          (stats : DashboardStats A),
     totalBalance (fetchDashboardData (Data l) stats)
     = sub (sumAmounts (filter isIncome l)) (sumAmounts (filter isExpense l)))
  /\ (forall l : list (Transaction Qc),
       getTotalBalance l
       = sumAmounts (filter isIncome l) - sumAmounts (filter isExpense l)).
Proof.
  split; [reflexivity|].
  induction l as [|t l IH].
  - apply Qc_is_canon. reflexivity.
  - rewrite getTotalBalance_cons, IH. cbn [filter].
    unfold isIncome, isExpense. destruct (type t); cbn [TransactionType_eqb];
      rewrite ?sumAmounts_cons; ring.
Qed.

End ExactBalance.

(** ** Monthly series *)

Section MonthlyFacts.
Context {A : Type} `{Number A}.
Variable getFullYear : string -> Z.
Variable getMonth : string -> Z.
Variable monthShort : string -> string.

#[local] Abbreviation monthKey := (monthKey getFullYear getMonth).
#[local] Abbreviation monthlyStep := (monthlyStep getFullYear getMonth).
#[local] Abbreviation monthlyMap := (monthlyMap getFullYear getMonth).
#[local] Abbreviation monthlySorted := (monthlySorted getFullYear getMonth).
#[local] Abbreviation monthlyKeys := (monthlyKeys getFullYear getMonth).
#[local] Abbreviation monthOf := (monthOf getFullYear getMonth).
#[local] Abbreviation processMonthlyData :=
  (processMonthlyData getFullYear getMonth monthShort).
#[local] Abbreviation monthRow := (monthRow getFullYear getMonth monthShort).
#[local] Abbreviation emptyBucket := (mkMonthBucket zero zero).

Lemma monthlyStep_upsert (m : JS.Map (MonthBucket A)) (t : Transaction A) :
  monthlyStep m t = upsert monthKey emptyBucket updMonth m t.
Proof.
  unfold monthlyStep, upsert, updMonth, JS.has.
  destruct (JS.get (monthKey t) m) as [d|] eqn:E; cbn [negb default].
  - rewrite E. now destruct (isIncome t).
  - rewrite JSFacts.get_set_same.
    destruct (isIncome t); now rewrite JSFacts.set_set.
Qed.

Lemma monthlyMap_upsert (l : list (Transaction A)) :
  monthlyMap l = fold_left (upsert monthKey emptyBucket updMonth) l [].
Proof.
  unfold monthlyMap. generalize (@nil (string * MonthBucket A)).
  induction l as [|t l IH]; intro m; cbn; auto.
  now rewrite monthlyStep_upsert, IH.
Qed.

Lemma monthlyMap_NoDup (l : list (Transaction A)) :
  NoDup (map fst (monthlyMap l)).
Proof.
  rewrite monthlyMap_upsert. apply JSFacts.NoDup_fold_upsert. constructor.
Qed.

Lemma monthlyMap_keys (l : list (Transaction A)) (k : string) :
  In k (map fst (monthlyMap l)) <-> In k (map monthKey l).
Proof.
  rewrite monthlyMap_upsert, JSFacts.keys_fold_upsert. cbn. tauto.
Qed.

Lemma updMonth_income (ts : list (Transaction A)) : forall d,
  mb_income (fold_left updMonth ts d)
  = fold_left (fun sum t => add sum (amount t)) (filter isIncome ts)
      (mb_income d).
Proof.
  induction ts as [|t ts IH]; intro d; cbn [fold_left filter]; auto.
  rewrite IH. unfold updMonth. now destruct (isIncome t).
Qed.

Lemma isExpense_negb (t : Transaction A) : isExpense t = negb (isIncome t).
Proof. unfold isExpense, isIncome. now destruct (type t). Qed.

Lemma updMonth_expense (ts : list (Transaction A)) : forall d,
  mb_expense (fold_left updMonth ts d)
  = fold_left (fun sum t => add sum (amount t)) (filter isExpense ts)
      (mb_expense d).
Proof.
  induction ts as [|t ts IH]; intro d; cbn [fold_left filter]; auto.
  rewrite IH, isExpense_negb. unfold updMonth.
  now destruct (isIncome t).
Qed.

Lemma monthlyMap_get (l : list (Transaction A)) (k : string)
  (d : MonthBucket A) :
  In (k, d) (monthlyMap l) ->
  d = fold_left updMonth (filter (keyIs monthKey k) l) emptyBucket.
Proof.
  intro Hin.
  apply JSFacts.In_get in Hin; [|apply monthlyMap_NoDup].
  rewrite monthlyMap_upsert, JSFacts.get_fold_upsert in Hin.
  destruct (filter (keyIs monthKey k) l); [discriminate|].
  now injection Hin as <-.
Qed.

Lemma monthlySorted_lastByKey (l : list (Transaction A)) :
  monthlySorted l = lastByKey 6 (monthlyMap l).
Proof. reflexivity. Qed.

Lemma monthlySorted_row (l : list (Transaction A)) (k : string)
  (d : MonthBucket A) :
  In (k, d) (monthlySorted l) ->
  mkMonthlyData (monthShort (k ++ "-01")) (mb_income d) (mb_expense d)
    (sub (mb_income d) (mb_expense d))
  = monthRow l k.
Proof.
  intro Hin. apply JSFacts.lastByKey_In, monthlyMap_get in Hin.
  unfold monthRow, sumAmounts.
  now rewrite Hin, updMonth_income, updMonth_expense.
Qed.

(** The key of a month of a four-digit year compares as the month does. *)
Lemma monthKey_compare (t1 t2 : Transaction A) :
  fourDigitYear (getFullYear (date t1)) ->
  (0 <= getMonth (date t1) <= 11)%Z ->
  fourDigitYear (getFullYear (date t2)) ->
  (0 <= getMonth (date t2) <= 11)%Z ->
  String.compare (monthKey t1) (monthKey t2) = (monthOf t1 ?= monthOf t2)%Z.
Proof.
  intros Hy1 Hm1 Hy2 Hm2. unfold monthKey, monthOf.
  rewrite (Digits.String_of_year _ Hy1), (Digits.String_of_year _ Hy2).
  rewrite (Digits.padStart_month _ Hm1), (Digits.padStart_month _ Hm2).
  unfold fourDigitYear in *.
  rewrite Digits.digits4_compare by lia.
  cbn [append]. rewrite Digits.compare_same_head.
  rewrite Digits.digits2_compare_end by lia.
  destruct (Z.compare_spec (getFullYear (date t1)) (getFullYear (date t2)));
  [ destruct (Z.compare_spec (getMonth (date t1) + 1) (getMonth (date t2) + 1)) | | ];
  symmetry; first [ apply Z.compare_eq_iff | apply Z.compare_lt_iff
                  | apply Z.compare_gt_iff ]; lia.
Qed.

(** C4: the monthly series has at most 6 entries; its entries are, for
    the year-month keys kept, the sum of the month's incomes, the sum of
    the month's expenses and their difference as net; the keys stand in
    strictly ascending order; a month is left out only when 6 later months
    are kept.  For dates in four-digit years the keys group by calendar
    month and their order is the order of the calendar. *)
Theorem processMonthlyData_spec (transactions : list (Transaction A)) :
  let keys := monthlyKeys transactions in
  List.length (processMonthlyData transactions) <= 6
  /\ processMonthlyData transactions = map (monthRow transactions) keys
  /\ StronglySorted (fun a b => String.compare a b = Lt) keys
  /\ (forall k, In k keys -> In k (map monthKey transactions))
  /\ (forall t, In t transactions ->
        In (monthKey t) keys
        \/ (List.length keys = 6
            /\ forall k, In k keys -> String.compare (monthKey t) k = Lt))
  /\ ((forall t, In t transactions ->
         fourDigitYear (getFullYear (date t))
         /\ (0 <= getMonth (date t) <= 11)%Z) ->
      (forall t1 t2, In t1 transactions -> In t2 transactions ->
         (monthKey t1 = monthKey t2 <-> monthOf t1 = monthOf t2))
      /\ StronglySorted
           (fun a b => forall t1 t2,
              In t1 transactions -> In t2 transactions ->
              monthKey t1 = a -> monthKey t2 = b ->
              (monthOf t1 < monthOf t2)%Z)
           keys).
Proof.
  intro keys. subst keys.
  assert (Hsorted : StronglySorted (fun a b => String.compare a b = Lt)
                      (monthlyKeys transactions)).
  { apply JSFacts.StronglySorted_keys, JSFacts.lastByKey_sorted,
      monthlyMap_NoDup. }
  split; [|split; [|split; [|split; [|split]]]].
  - unfold processMonthlyData.
    rewrite length_map, monthlySorted_lastByKey, JSFacts.lastByKey_length.
    lia.
  - unfold processMonthlyData, monthlyKeys.
    rewrite map_map. apply map_ext_in.
    intros [k d] Hin. now apply monthlySorted_row.
  - exact Hsorted.
  - intros k Hk. apply monthlyMap_keys.
    apply in_map_iff in Hk. destruct Hk as (e & <- & He).
    apply in_map. now apply (JSFacts.lastByKey_In 6).
  - intros t Ht. apply JSFacts.lastByKey_recent; [apply monthlyMap_NoDup|].
    apply monthlyMap_keys. now apply in_map.
  - intro Hwf.
    assert (Hcmp : forall t1 t2, In t1 transactions -> In t2 transactions ->
              String.compare (monthKey t1) (monthKey t2)
              = (monthOf t1 ?= monthOf t2)%Z).
    { intros t1 t2 H1 H2.
      destruct (Hwf t1 H1), (Hwf t2 H2). now apply monthKey_compare. }
    split.
    + intros t1 t2 H1 H2. specialize (Hcmp t1 t2 H1 H2). split.
      * intro E. rewrite E in Hcmp. apply Z.compare_eq_iff.
        rewrite <- Hcmp.
        destruct (String.compare (monthKey t2) (monthKey t2)) eqn:E'; auto;
          pose proof E' as E''; rewrite String.compare_antisym, E' in E'';
          discriminate.
      * intro E. apply Z.compare_eq_iff in E. rewrite E in Hcmp.
        now apply String.compare_eq_iff.
    + eapply JSFacts.StronglySorted_weaken; [|exact Hsorted].
      intros a b Hab t1 t2 H1 H2 <- <-.
      change ((monthOf t1 ?= monthOf t2)%Z = Lt).
      now rewrite <- (Hcmp t1 t2 H1 H2).
Qed.

End MonthlyFacts.

(** ** Daily series *)

Section DailyFacts.
Context {A : Type} `{Number A}.

#[local] Abbreviation addAmount :=
  (fun (sum : A) (t : Transaction A) => add sum (amount t)).

Lemma or_zero_default (o : option A) :
  (forall x : A, truthy x = false -> x = zero) ->
  or_zero o = default zero o.
Proof.
  intro Hfalsy. destruct o as [v|]; cbn; auto.
  destruct (truthy v) eqn:E; auto. symmetry. now apply Hfalsy.
Qed.

Lemma dailyMap_upsert (l : list (Transaction A)) :
  (forall x : A, truthy x = false -> x = zero) ->
  dailyMap l = fold_left (upsert dateKey zero addAmount) (filter isExpense l) [].
Proof.
  intro Hfalsy. unfold dailyMap.
  generalize (@nil (string * A)).
  induction (filter isExpense l) as [|t ts IH]; intro m; cbn [fold_left]; auto.
  rewrite IH. f_equal.
  unfold dailyStep, upsert. now rewrite or_zero_default.
Qed.

(** The keys of the daily map do not depend on the arithmetic. *)
Lemma dailyStep_keys (m1 m2 : JS.Map A) (t : Transaction A) :
  map fst m1 = map fst m2 ->
  map fst (dailyStep m1 t) = map fst (upsert dateKey zero addAmount m2 t).
Proof.
  intro E. unfold dailyStep, upsert, dateKey. rewrite !JSFacts.keys_set.
  assert (Hhas : JS.has (JS.split_T_0 (date t)) m1
                 = JS.has (JS.split_T_0 (date t)) m2).
  { destruct (JS.has _ m1) eqn:E1; destruct (JS.has _ m2) eqn:E2; auto.
    - apply JSFacts.has_In in E1. rewrite E in E1.
      apply JSFacts.has_In in E1. congruence.
    - apply JSFacts.has_In in E2. rewrite <- E in E2.
      apply JSFacts.has_In in E2. congruence. }
  now rewrite Hhas, E.
Qed.

Lemma dailyMap_keys_fold (ts : list (Transaction A)) :
  forall m1 m2 : JS.Map A,
  map fst m1 = map fst m2 ->
  map fst (fold_left dailyStep ts m1)
  = map fst (fold_left (upsert dateKey zero addAmount) ts m2).
Proof.
  induction ts as [|t ts IH]; intros m1 m2 E; cbn [fold_left]; auto.
  apply IH. now apply dailyStep_keys.
Qed.

Lemma dailyMap_NoDup (l : list (Transaction A)) : NoDup (map fst (dailyMap l)).
Proof.
  unfold dailyMap. rewrite (dailyMap_keys_fold _ [] [] eq_refl).
  apply JSFacts.NoDup_fold_upsert. constructor.
Qed.

Lemma dailyMap_keys (l : list (Transaction A)) (k : string) :
  In k (map fst (dailyMap l)) <-> In k (map dateKey (filter isExpense l)).
Proof.
  unfold dailyMap.
  rewrite (dailyMap_keys_fold _ [] [] eq_refl), JSFacts.keys_fold_upsert.
  cbn. tauto.
Qed.

Lemma dailyMap_get (l : list (Transaction A)) (k : string) (v : A) :
  (forall x : A, truthy x = false -> x = zero) ->
  In (k, v) (dailyMap l) ->
  v = sumAmounts (filter (keyIs dateKey k) (filter isExpense l)).
Proof.
  intros Hfalsy Hin.
  apply JSFacts.In_get in Hin; [|apply dailyMap_NoDup].
  rewrite dailyMap_upsert, JSFacts.get_fold_upsert in Hin by assumption.
  unfold sumAmounts.
  destruct (filter (keyIs dateKey k) (filter isExpense l)); [discriminate|].
  now injection Hin as <-.
Qed.

(** The dates of the series, in its order. *)
Lemma processDailyData_keys (l : list (Transaction A)) :
  map dd_date (processDailyData l) = map fst (lastByKey 30 (dailyMap l)).
Proof.
  unfold processDailyData. rewrite map_map. apply map_ext.
  now intros [k v].
Qed.

Lemma dateKey_isoTimestamp (t : Transaction A) (y m d : Z) :
  isoTimestamp (date t) y m d -> dateKey t = isoDate y m d.
Proof.
  intros (Hy & Hm & Hd & time & E). unfold dateKey. rewrite E.
  now apply IsoDates.split_T_0_isoDate.
Qed.

Lemma dailyMap_grouped (l : list (Transaction A)) :
  steadyTotals dateKey (filter isExpense l) ->
  dailyMap l = fold_left (upsert dateKey zero addAmount) (filter isExpense l) [].
Proof. intro Hs. now apply (fold_or_zero_upsert dateKey). Qed.

(** Where [x || 0] resets no running total, the amount of a day is the
    sum of the day's expenses. *)
Lemma dailyMap_daySum (l : list (Transaction A)) (k : string) (v : A) :
  steadyTotals dateKey (filter isExpense l) ->
  In (k, v) (dailyMap l) ->
  v = sumAmounts (filter (keyIs dateKey k) (filter isExpense l)).
Proof.
  intros Hs Hin.
  apply JSFacts.In_get in Hin; [|apply dailyMap_NoDup].
  rewrite (dailyMap_grouped _ Hs), JSFacts.get_fold_upsert in Hin.
  unfold sumAmounts.
  destruct (filter (keyIs dateKey k) (filter isExpense l)); [discriminate|].
  now injection Hin as <-.
Qed.

Lemma lastByKey_NoDup {V} (n : nat) (m : JS.Map V) :
  NoDup (map fst m) -> NoDup (map fst (lastByKey n m)).
Proof.
  intro Hnd.
  assert (Hs : NoDup (map fst (JS.sort byKey m))).
  { apply (Permutation_NoDup (l := map fst m)); auto.
    apply Permutation_map. symmetry. apply JSFacts.sort_perm. }
  rewrite (JSFacts.lastByKey_split n m), map_app in Hs.
  now apply NoDup_app_remove_l in Hs.
Qed.

(** C5: the daily series has at most 30 entries, one for each day it
    keeps, and its days are days of expense transactions, the day of a
    transaction being its timestamp up to the first [T].  Where [x || 0]
    resets no running total of a day, each entry's amount is the sum of the
    amounts of the day's expense transactions, in the arithmetic of the
    code.  For ISO 8601 timestamps with four-digit years the days are the
    calendar days, the series is in strictly ascending order of the
    calendar, and a day with an expense is left out only when 30 later
    days are kept. *)
Theorem processDailyData_spec (transactions : list (Transaction A)) :
  let keys := map dd_date (processDailyData transactions) in
  List.length (processDailyData transactions) <= 30
  /\ NoDup keys
  /\ (forall k, In k keys ->
        exists t, In t transactions /\ isExpense t = true /\ dateKey t = k)
  /\ (steadyTotals dateKey (filter isExpense transactions) ->
      processDailyData transactions = map (dayRow transactions) keys)
  /\ (forall year month day : Transaction A -> Z,
      (forall t, In t transactions -> isExpense t = true ->
         isoTimestamp (date t) (year t) (month t) (day t)) ->
      let dayOf t := dayNumber (year t) (month t) (day t) in
      (forall t1 t2, In t1 transactions -> isExpense t1 = true ->
         In t2 transactions -> isExpense t2 = true ->
         (dateKey t1 = dateKey t2 <-> dayOf t1 = dayOf t2))
      /\ StronglySorted
           (fun a b => forall t1 t2,
              In t1 transactions -> isExpense t1 = true ->
              In t2 transactions -> isExpense t2 = true ->
              dateKey t1 = a -> dateKey t2 = b -> (dayOf t1 < dayOf t2)%Z)
           keys
      /\ (forall t, In t transactions -> isExpense t = true ->
            In (dateKey t) keys
            \/ (List.length keys = 30
                /\ forall t', In t' transactions -> isExpense t' = true ->
                     In (dateKey t') keys -> (dayOf t < dayOf t')%Z))).
Proof.
  intro keys. subst keys. rewrite processDailyData_keys.
  assert (Hsorted : StronglySorted (fun a b => String.compare a b = Lt)
                      (map fst (lastByKey 30 (dailyMap transactions)))).
  { apply JSFacts.StronglySorted_keys, JSFacts.lastByKey_sorted,
      dailyMap_NoDup. }
  split; [|split; [|split; [|split]]].
  - unfold processDailyData. rewrite length_map.
    change (List.length (lastByKey 30 (dailyMap transactions)) <= 30).
    rewrite JSFacts.lastByKey_length. lia.
  - apply lastByKey_NoDup, dailyMap_NoDup.
  - intros k Hk. apply in_map_iff in Hk. destruct Hk as (e & <- & He).
    apply JSFacts.lastByKey_In in He.
    assert (Hk : In (fst e) (map fst (dailyMap transactions)))
      by now apply in_map.
    apply dailyMap_keys, in_map_iff in Hk. destruct Hk as (t & Ht & Hin).
    apply filter_In in Hin. exists t. tauto.
  - intro Hsteady. unfold processDailyData.
    change (JS.sliceLast 30 (JS.sort _ (dailyMap transactions)))
      with (lastByKey 30 (dailyMap transactions)).
    rewrite map_map. apply map_ext_in. intros [k v] Hin.
    apply JSFacts.lastByKey_In, dailyMap_daySum in Hin; auto.
    unfold dayRow. cbn. now rewrite Hin.
  - intros year month day Hiso dayOf.
    assert (Hcmp : forall t1 t2,
              In t1 transactions -> isExpense t1 = true ->
              In t2 transactions -> isExpense t2 = true ->
              String.compare (dateKey t1) (dateKey t2)
              = (dayOf t1 ?= dayOf t2)%Z).
    { intros t1 t2 H1 E1 H2 E2.
      pose proof (Hiso t1 H1 E1) as I1. pose proof (Hiso t2 H2 E2) as I2.
      rewrite (dateKey_isoTimestamp _ _ _ _ I1),
        (dateKey_isoTimestamp _ _ _ _ I2).
      destruct I1 as (? & ? & ? & _), I2 as (? & ? & ? & _).
      now apply IsoDates.isoDate_compare. }
    split; [|split].
    + intros t1 t2 H1 E1 H2 E2. specialize (Hcmp t1 t2 H1 E1 H2 E2). split.
      * intro E. rewrite E in Hcmp. apply Z.compare_eq_iff.
        rewrite <- Hcmp.
        destruct (String.compare (dateKey t2) (dateKey t2)) eqn:E'; auto;
          pose proof E' as E''; rewrite String.compare_antisym, E' in E'';
          discriminate.
      * intro E. apply Z.compare_eq_iff in E. rewrite E in Hcmp.
        now apply String.compare_eq_iff.
    + eapply JSFacts.StronglySorted_weaken; [|exact Hsorted].
      intros a b Hab t1 t2 H1 E1 H2 E2 <- <-.
      change ((dayOf t1 ?= dayOf t2)%Z = Lt).
      now rewrite <- (Hcmp t1 t2 H1 E1 H2 E2).
    + intros t Ht Et.
      destruct (JSFacts.lastByKey_recent 30 (dailyMap transactions)
                  (dateKey t) (dailyMap_NoDup transactions))
        as [Hin|[Hlen Hlater]].
      * apply dailyMap_keys, in_map, filter_In. auto.
      * now left.
      * right. split; [exact Hlen|].
        intros t' Ht' Et' Hin'.
        change ((dayOf t ?= dayOf t')%Z = Lt).
        rewrite <- (Hcmp t t' Ht Et Ht' Et'). now apply Hlater.
Qed.

End DailyFacts.

(** ** Summary statistics *)

(** C6: the savings rate is [(income - expenses) / income * 100] when the
    total income is greater than 0, and 0 when the total income is 0,
    whatever the expenses. *)
Theorem savingsRate_spec {A : Type} `{Number A}
  (timePeriod : TimePeriod) (transactions : list (Transaction A)) :
  let income := sumAmounts (filter isIncome transactions) in
  let expenses := sumAmounts (filter isExpense transactions) in
  let rate :=
    ts_savingsRate (calculateTotalStats timePeriod transactions) in
  (gtb income zero = true ->
   rate = mul (div (sub income expenses) income) hundred)
  /\ (gtb zero zero = false -> income = zero -> rate = zero).
Proof.
  cbv zeta. unfold calculateTotalStats. cbn [ts_savingsRate]. split.
  - now intros ->.
  - intros H0 ->. now rewrite H0.
Qed.

Module QcFacts.
Local Open Scope Qc_scope.

Lemma truthy_false (x : Qc) : truthy x = false -> x = zero.
Proof.
  cbn. unfold Qc_truthy. now destruct (Qc_eq_dec x 0).
Qed.

Lemma gtb_lt (x y : Qc) : gtb x y = true <-> y < x.
Proof.
  cbn. unfold Qc_gtb. split.
  - destruct (x ?= y) eqn:E; try discriminate. intros _.
    exact (proj2 (Qcgt_alt x y) E).
  - intro Hlt. now rewrite (proj1 (Qcgt_alt x y) Hlt).
Qed.

Lemma gtb_le (x y : Qc) : gtb x y = false <-> x <= y.
Proof.
  cbn. unfold Qc_gtb. rewrite Qcle_alt.
  destruct (x ?= y); split; congruence.
Qed.

Lemma sign_sub_Gt (a b : Qc) : sign (sub b a) = Gt <-> a < b.
Proof.
  unfold sign. rewrite (Qclt_minus_iff a b).
  destruct (gtb (sub b a) zero) eqn:E.
  - apply gtb_lt in E. tauto.
  - apply gtb_le in E. split.
    + destruct (gtb zero (sub b a)); discriminate.
    + intro Hlt. exfalso. apply (Qclt_not_le _ _ Hlt). exact E.
Qed.

Lemma sign_sub_not_Gt (a b : Qc) : sign (sub b a) <> Gt <-> b <= a.
Proof.
  rewrite sign_sub_Gt. split.
  - apply Qcnot_lt_le.
  - intros Hle Hlt. exact (Qclt_not_le _ _ Hlt Hle).
Qed.

End QcFacts.

Section TopCategory.
Local Open Scope Qc_scope.

#[local] Abbreviation txs := (list (Transaction Qc)).
#[local] Abbreviation addAmount :=
  (fun (sum : Qc) (t : Transaction Qc) => add sum (amount t)).

Lemma categoryName_nonempty (t : Transaction Qc) :
  categoryName t <> EmptyString.
Proof.
  unfold categoryName, JS.or_string.
  destruct (categories t) as [[|c s]|]; discriminate.
Qed.

Lemma topCategoryMap_upsert (l : txs) :
  topCategoryMap l
  = fold_left (upsert categoryName zero addAmount) (filter isExpense l) [].
Proof.
  unfold topCategoryMap. generalize (@nil (string * Qc)).
  induction (filter isExpense l) as [|t ts IH]; intro m; cbn [fold_left]; auto.
  rewrite IH. f_equal. unfold topStep, upsert.
  now rewrite (or_zero_default _ QcFacts.truthy_false).
Qed.

Lemma topCategoryMap_NoDup (l : txs) : NoDup (map fst (topCategoryMap l)).
Proof.
  rewrite topCategoryMap_upsert. apply JSFacts.NoDup_fold_upsert. constructor.
Qed.

Lemma topCategoryMap_keys (l : txs) (k : string) :
  In k (map fst (topCategoryMap l))
  <-> In k (map categoryName (filter isExpense l)).
Proof.
  rewrite topCategoryMap_upsert, JSFacts.keys_fold_upsert. cbn. tauto.
Qed.

Lemma topCategoryMap_value (l : txs) (k : string) (v : Qc) :
  In (k, v) (topCategoryMap l) -> v = categorySum l k.
Proof.
  intro Hin. apply JSFacts.In_get in Hin; [|apply topCategoryMap_NoDup].
  rewrite topCategoryMap_upsert, JSFacts.get_fold_upsert in Hin.
  unfold categorySum, sumAmounts.
  destruct (filter (keyIs categoryName k) (filter isExpense l));
    [discriminate|].
  now injection Hin as <-.
Qed.

(** The head of the entries sorted by descending amount is the first entry
    of the largest amount. *)
Lemma sort_byAmountDesc_head (m : JS.Map Qc) :
  m <> [] ->
  exists pre h post,
    m = pre ++ h :: post
    /\ hd_error (JS.sort byAmountDesc m) = Some h
    /\ (forall e, In e pre -> snd e < snd h)
    /\ (forall e, In e post -> snd e <= snd h).
Proof.
  induction m as [|x m IH]; [congruence|]. intros _.
  destruct m as [|y m].
  - exists [], x, []. cbn. repeat split; intros e [].
  - destruct IH as (pre & h & post & Hm & Hhd & Hpre & Hpost); [discriminate|].
    rewrite JSFacts.sort_cons.
    destruct (JS.sort byAmountDesc (y :: m)) as [|h' s] eqn:Es;
      [discriminate|].
    injection Hhd as ->. cbn [JS.insert].
    destruct (Qclt_le_dec (snd x) (snd h)) as [Hlt|Hle].
    + (* [x] is smaller: the head stays *)
      pose proof (proj2 (QcFacts.sign_sub_Gt _ _) Hlt) as Hc.
      unfold byAmountDesc at 1. rewrite Hc.
      exists (x :: pre), h, post. rewrite Hm. cbn [app hd_error].
      repeat split; auto.
      intros e [<-|He]; auto.
    + (* [x] is at least as large: it comes first *)
      pose proof (proj2 (QcFacts.sign_sub_not_Gt _ _) Hle) as Hc.
      exists [], x, (y :: m). cbn [app]. split; [reflexivity|]. split.
      * unfold byAmountDesc at 1.
        destruct (sign (sub (snd h) (snd x))); [reflexivity..|congruence].
      * split; [intros e []|].
        intros e He. rewrite Hm in He. apply in_app_iff in He.
        destruct He as [He|[<-|He]]; auto.
        -- apply Qclt_le_weak, Qclt_le_trans with (snd h); auto.
        -- apply Qcle_trans with (snd h); auto.
Qed.

Lemma prefix_before {T} (x : T) (a ext p q : list T) :
  a ++ ext = p ++ x :: q -> ~ In x a -> exists r, p = a ++ r.
Proof.
  revert p. induction a as [|y a IH]; intros p E Hnotin.
  - now exists p.
  - destruct p as [|z p]; cbn in E; injection E as -> E.
    + exfalso. apply Hnotin. now left.
    + destruct (IH p E) as [r ->]; [cbn in Hnotin; tauto|]. now exists r.
Qed.

Lemma topCategory_head (timePeriod : TimePeriod) (l : txs) :
  ts_topCategory (calculateTotalStats timePeriod l)
  = JS.or_string
      (option_map fst (hd_error (JS.sort byAmountDesc (topCategoryMap l))))
      "None".
Proof. reflexivity. Qed.

(** With exact amounts: the top category is ["None"] when there is no
    expense; otherwise it is the category of an expense, no category has a
    larger summed expense amount, and every category met before it in the
    input has a strictly smaller one. *)
Lemma topCategory_exact (timePeriod : TimePeriod) (transactions : txs) :
  let expenses := filter isExpense transactions in
  let top := ts_topCategory (calculateTotalStats timePeriod transactions) in
  (expenses = [] -> top = "None"%string)
  /\ (expenses <> [] ->
      In top (map categoryName expenses)
      /\ (forall c, In c (map categoryName expenses) ->
            categorySum transactions c <= categorySum transactions top)
      /\ (forall pre t post,
            expenses = pre ++ t :: post ->
            categoryName t = top ->
            ~ In top (map categoryName pre) ->
            forall c, In c (map categoryName pre) ->
              categorySum transactions c < categorySum transactions top)).
Proof.
  cbv zeta. rewrite topCategory_head. split.
  - intro Hnil. rewrite topCategoryMap_upsert, Hnil. reflexivity.
  - intro Hne.
    assert (Hm : topCategoryMap transactions <> []).
    { destruct (filter isExpense transactions) as [|t ts] eqn:E;
        [congruence|].
      assert (Hk : In (categoryName t)
                     (map fst (topCategoryMap transactions))).
      { apply topCategoryMap_keys. rewrite E. now left. }
      intro Hnil. rewrite Hnil in Hk. exact Hk. }
    destruct (sort_byAmountDesc_head _ Hm)
      as (pre & [k v] & post & Hsplit & Hhd & Hpre & Hpost).
    rewrite Hhd. cbn [option_map fst JS.or_string].
    assert (Hin : forall e, In e (pre ++ (k, v) :: post) ->
              In (fst e) (map categoryName (filter isExpense transactions))
              /\ snd e = categorySum transactions (fst e)).
    { intros [k' v'] He. rewrite <- Hsplit in He. split.
      - apply topCategoryMap_keys. now apply (in_map fst) in He.
      - now apply topCategoryMap_value. }
    assert (Hk : In k (map categoryName (filter isExpense transactions))
                 /\ v = categorySum transactions k).
    { apply (Hin (k, v)), in_app_iff. right. now left. }
    destruct Hk as [Hk Hv].
    assert (Htop : JS.or_string (Some k) "None" = k).
    { destruct k as [|c s]; auto.
      apply in_map_iff in Hk. destruct Hk as (t & Ht & _).
      now apply categoryName_nonempty in Ht. }
    unfold JS.or_string in Htop |- *. rewrite Htop.
    split; [exact Hk|split].
    + intros c Hc. apply topCategoryMap_keys in Hc.
      apply in_map_iff in Hc. destruct Hc as ([c' w] & <- & He).
      rewrite Hsplit in He. destruct (Hin _ He) as [_ Hw].
      cbn [fst snd] in *. rewrite <- Hw, <- Hv.
      apply in_app_iff in He. destruct He as [He|[He|He]].
      * apply Qclt_le_weak. exact (Hpre _ He).
      * injection He as _ <-. apply Qcle_refl.
      * exact (Hpost _ He).
    + intros pre_t t post_t Hexp Ht Hnotin c Hc.
      pose proof (topCategoryMap_upsert transactions) as Hfold.
      rewrite Hexp, JSFacts.fold_upsert_app in Hfold.
      destruct (JSFacts.keys_fold_upsert_prefix categoryName zero addAmount
                  (t :: post_t)
                  (fold_left (upsert categoryName zero addAmount) pre_t []))
        as [ext Hext].
      rewrite <- Hfold, Hsplit, map_app in Hext. cbn [map fst] in Hext.
      symmetry in Hext. apply prefix_before in Hext.
      * destruct Hext as [r Hr].
        assert (Hcpre : In c (map fst pre)).
        { rewrite Hr. apply in_app_iff. left.
          apply JSFacts.keys_fold_upsert. now right. }
        apply in_map_iff in Hcpre. destruct Hcpre as ([c' w] & <- & He).
        assert (He' : In (c', w) (pre ++ (k, v) :: post))
          by (apply in_app_iff; now left).
        destruct (Hin _ He') as [_ Hw]. cbn [fst snd] in *.
        rewrite <- Hw, <- Hv. exact (Hpre _ He).
      * intro Hbad. apply JSFacts.keys_fold_upsert in Hbad.
        destruct Hbad as [[]|Hbad]. exact (Hnotin Hbad).
Qed.

End TopCategory.

(** The category of largest running total, in any arithmetic. *)
Section TopCategoryAny.
Context {A : Type} `{Number A}.

#[local] Abbreviation txsAny := (list (Transaction A)).
#[local] Abbreviation addAmountAny :=
  (fun (sum : A) (t : Transaction A) => add sum (amount t)).

Lemma categoryName_notEmpty (t : Transaction A) :
  categoryName t <> EmptyString.
Proof.
  unfold categoryName, JS.or_string.
  destruct (categories t) as [[|c s]|]; discriminate.
Qed.

Lemma consistent_incl (l l' : list A) :
  incl l' l -> consistent l -> consistent l'.
Proof.
  intros Hincl [Hasym Htrans]. split.
  - intros a b Ha Hb. apply Hasym; auto.
  - intros a b c Ha Hb Hc. apply Htrans; auto.
Qed.

Lemma byAmountDesc_Gt (a b : string * A) :
  byAmountDesc a b = Gt <-> exceeds (snd b) (snd a) = true.
Proof.
  unfold byAmountDesc, sign, exceeds.
  destruct (gtb (sub (snd b) (snd a)) zero); [tauto|].
  split; [|discriminate]. destruct (gtb zero _); discriminate.
Qed.

(** Where the comparator is consistent, the head of the entries sorted by
    descending amount is the first entry that no entry exceeds. *)
Lemma sort_byAmountDesc_first (m : JS.Map A) :
  consistent (map snd m) -> m <> [] ->
  exists pre h post,
    m = pre ++ h :: post
    /\ hd_error (JS.sort byAmountDesc m) = Some h
    /\ (forall e, In e pre -> exceeds (snd h) (snd e) = true)
    /\ (forall e, In e post -> exceeds (snd e) (snd h) = false).
Proof.
  induction m as [|x m IH]; [congruence|]. intros Hcons _.
  destruct m as [|y m].
  - exists [], x, []. cbn. repeat split; intros e [].
  - destruct IH as (pre & h & post & Hm & Hhd & Hpre & Hpost);
      [|discriminate|].
    { apply (consistent_incl _ _ (incl_tl _ (incl_refl _)) Hcons). }
    rewrite JSFacts.sort_cons.
    destruct (JS.sort byAmountDesc (y :: m)) as [|h' s] eqn:Es;
      [discriminate|].
    injection Hhd as ->. cbn [JS.insert].
    destruct Hcons as [Hasym Htrans].
    assert (Hinx : In (snd x) (map snd (x :: y :: m))) by now left.
    assert (Hinm : forall e, In e (y :: m) ->
              In (snd e) (map snd (x :: y :: m))).
    { intros e He. right. now apply in_map. }
    assert (Hinh : In h (y :: m)).
    { rewrite Hm. apply in_app_iff. right. now left. }
    destruct (exceeds (snd h) (snd x)) eqn:Ex.
    + (* [h] exceeds [x]: the head stays *)
      rewrite (proj2 (byAmountDesc_Gt x h) Ex).
      exists (x :: pre), h, post. rewrite Hm. cbn [app hd_error].
      repeat split; auto.
      intros e [<-|He]; auto.
    + (* [h] does not exceed [x]: [x] comes first *)
      exists [], x, (y :: m). cbn [app]. split; [reflexivity|]. split.
      * destruct (byAmountDesc x h) eqn:Ec; try reflexivity.
        apply byAmountDesc_Gt in Ec. congruence.
      * split; [intros e []|].
        intros e He. pose proof He as He'. rewrite Hm in He'.
        apply in_app_iff in He'.
        apply (Htrans (snd x) (snd h) (snd e)); auto.
        destruct He' as [He'|[<-|He']].
        -- apply Hasym; auto.
        -- destruct (exceeds (snd h) (snd h)) eqn:Eh; auto.
           pose proof (Hasym _ _ (Hinm _ Hinh) (Hinm _ Hinh) Eh). congruence.
        -- auto.
Qed.

Lemma topCategoryMap_grouped (l : txsAny) :
  steadyTotals categoryName (filter isExpense l) ->
  topCategoryMap l
  = fold_left (upsert categoryName zero addAmountAny) (filter isExpense l) [].
Proof. intro Hs. now apply fold_or_zero_upsert. Qed.

(** The top category is ["None"] when there is no expense.  Otherwise,
    where [x || 0] resets no running total and the comparator orders the
    totals consistently, it is the category of an expense, no category's
    total exceeds its total, and its total exceeds that of every category
    met before it in the input; where, besides, [b - a > 0] is [b > a] on
    the totals, no total is greater than its total, which is greater than
    that of every category met before. *)
Lemma topCategory_any (timePeriod : TimePeriod) (transactions : txsAny) :
  let expenses := filter isExpense transactions in
  let top := ts_topCategory (calculateTotalStats timePeriod transactions) in
  let total := categorySum transactions in
  (expenses = [] -> top = "None"%string)
  /\ (expenses <> [] ->
      steadyTotals categoryName expenses ->
      consistent (map total (map categoryName expenses)) ->
      In top (map categoryName expenses)
      /\ (forall c, In c (map categoryName expenses) ->
            exceeds (total c) (total top) = false)
      /\ (forall pre t post,
            expenses = pre ++ t :: post ->
            categoryName t = top ->
            ~ In top (map categoryName pre) ->
            forall c, In c (map categoryName pre) ->
              exceeds (total top) (total c) = true)
      /\ ((forall a b,
             In a (map total (map categoryName expenses)) ->
             In b (map total (map categoryName expenses)) ->
             exceeds b a = gtb b a) ->
          (forall c, In c (map categoryName expenses) ->
             gtb (total c) (total top) = false)
          /\ (forall pre t post,
                expenses = pre ++ t :: post ->
                categoryName t = top ->
                ~ In top (map categoryName pre) ->
                forall c, In c (map categoryName pre) ->
                  gtb (total top) (total c) = true))).
Proof.
  cbv zeta.
  change (ts_topCategory (calculateTotalStats timePeriod transactions))
    with (JS.or_string
            (option_map fst
               (hd_error (JS.sort byAmountDesc (topCategoryMap transactions))))
            "None").
  split.
  - intro Hnil. unfold topCategoryMap. rewrite Hnil. reflexivity.
  - intros Hne Hsteady Hcons.
    pose proof (topCategoryMap_grouped transactions Hsteady) as Hfold.
    assert (Hnd : NoDup (map fst (topCategoryMap transactions))).
    { rewrite Hfold. apply JSFacts.NoDup_fold_upsert. constructor. }
    assert (Hkeys : forall k,
              In k (map fst (topCategoryMap transactions))
              <-> In k (map categoryName (filter isExpense transactions))).
    { intro k. rewrite Hfold, JSFacts.keys_fold_upsert. cbn. tauto. }
    assert (Hvalue : forall k v,
              In (k, v) (topCategoryMap transactions) ->
              v = categorySum transactions k).
    { intros k v Hin. apply JSFacts.In_get in Hin; [|exact Hnd].
      rewrite Hfold, JSFacts.get_fold_upsert in Hin.
      unfold categorySum, sumAmounts.
      destruct (filter (keyIs categoryName k) (filter isExpense transactions));
        [discriminate|].
      now injection Hin as <-. }
    assert (Hm : topCategoryMap transactions <> []).
    { destruct (filter isExpense transactions) as [|t ts] eqn:E;
        [congruence|].
      assert (Hk : In (categoryName t)
                     (map fst (topCategoryMap transactions))).
      { apply Hkeys. now left. }
      intro Hnil. rewrite Hnil in Hk. exact Hk. }
    assert (Hin : forall e, In e (topCategoryMap transactions) ->
              In (fst e) (map categoryName (filter isExpense transactions))
              /\ snd e = categorySum transactions (fst e)).
    { intros [k' v'] He. split.
      - apply Hkeys. now apply (in_map fst) in He.
      - now apply Hvalue. }
    assert (Hcons' : consistent (map snd (topCategoryMap transactions))).
    { apply (consistent_incl _ _ ) with (2 := Hcons).
      intros v Hv. apply in_map_iff in Hv. destruct Hv as (e & <- & He).
      destruct (Hin e He) as [Hk ->]. now apply in_map. }
    destruct (sort_byAmountDesc_first _ Hcons' Hm)
      as (pre & [k v] & post & Hsplit & Hhd & Hpre & Hpost).
    rewrite Hhd. cbn [option_map fst JS.or_string].
    assert (Hk : In k (map categoryName (filter isExpense transactions))
                 /\ v = categorySum transactions k).
    { apply (Hin (k, v)). rewrite Hsplit. apply in_app_iff. right. now left. }
    destruct Hk as [Hk Hv].
    assert (Htop : JS.or_string (Some k) "None" = k).
    { destruct k as [|c s]; auto.
      apply in_map_iff in Hk. destruct Hk as (t & Ht & _).
      now apply categoryName_notEmpty in Ht. }
    unfold JS.or_string in Htop |- *. rewrite Htop.
    assert (Hself : exceeds v v = false).
    { destruct (exceeds v v) eqn:Ev; auto.
      assert (Hvin : In v (map snd (topCategoryMap transactions))).
      { apply in_map_iff. exists (k, v). split; auto.
        rewrite Hsplit. apply in_app_iff. right. now left. }
      pose proof (proj1 Hcons' v v Hvin Hvin Ev). congruence. }
    assert (Hmax : forall c,
              In c (map categoryName (filter isExpense transactions)) ->
              exceeds (categorySum transactions c)
                (categorySum transactions k) = false).
    { intros c Hc. apply Hkeys in Hc.
      apply in_map_iff in Hc. destruct Hc as ([c' w] & <- & He).
      destruct (Hin _ He) as [_ Hw]. cbn [fst snd] in *.
      rewrite <- Hw, <- Hv.
      pose proof (in_map snd _ _ He) as Hw_in.
      assert (Hv_in : In v (map snd (topCategoryMap transactions))).
      { apply (in_map snd _ (k, v)). rewrite Hsplit. apply in_app_iff.
        right. now left. }
      rewrite Hsplit in He. apply in_app_iff in He.
      destruct He as [He|[He|He]].
      - apply (proj1 Hcons' w v Hw_in Hv_in). exact (Hpre _ He).
      - injection He as _ <-. exact Hself.
      - exact (Hpost _ He). }
    assert (Hfirst : forall pre_t t post_t,
              filter isExpense transactions = pre_t ++ t :: post_t ->
              categoryName t = k ->
              ~ In k (map categoryName pre_t) ->
              forall c, In c (map categoryName pre_t) ->
                exceeds (categorySum transactions k)
                  (categorySum transactions c) = true).
    { intros pre_t t post_t Hexp Ht Hnotin c Hc.
      rewrite Hexp, JSFacts.fold_upsert_app in Hfold.
      destruct (JSFacts.keys_fold_upsert_prefix categoryName zero addAmountAny
                  (t :: post_t)
                  (fold_left (upsert categoryName zero addAmountAny) pre_t []))
        as [ext Hext].
      rewrite <- Hfold, Hsplit, map_app in Hext. cbn [map fst] in Hext.
      symmetry in Hext. apply prefix_before in Hext.
      - destruct Hext as [r Hr].
        assert (Hcpre : In c (map fst pre)).
        { rewrite Hr. apply in_app_iff. left.
          apply JSFacts.keys_fold_upsert. now right. }
        apply in_map_iff in Hcpre. destruct Hcpre as ([c' w] & <- & He).
        assert (He' : In (c', w) (topCategoryMap transactions)).
        { rewrite Hsplit. apply in_app_iff. now left. }
        destruct (Hin _ He') as [_ Hw]. cbn [fst snd] in *.
        rewrite <- Hw, <- Hv. exact (Hpre _ He).
      - intro Hbad. apply JSFacts.keys_fold_upsert in Hbad.
        destruct Hbad as [[]|Hbad]. exact (Hnotin Hbad). }
    split; [exact Hk|]. split; [exact Hmax|]. split; [exact Hfirst|].
    intro Hagree.
    assert (Hsum : forall c,
              In c (map categoryName (filter isExpense transactions)) ->
              In (categorySum transactions c)
                (map (categorySum transactions)
                   (map categoryName (filter isExpense transactions)))).
    { intros c Hc. now apply in_map. }
    split.
    + intros c Hc. rewrite <- (Hagree _ _ (Hsum k Hk) (Hsum c Hc)).
      now apply Hmax.
    + intros pre_t t post_t Hexp Ht Hnotin c Hc.
      assert (Hc' : In c (map categoryName (filter isExpense transactions))).
      { rewrite Hexp, map_app. apply in_app_iff. now left. }
      rewrite <- (Hagree _ _ (Hsum c Hc') (Hsum k Hk)).
      now apply (Hfirst pre_t t post_t).
Qed.

End TopCategoryAny.

(** C7: the top category is ["None"] when there is no expense.  Otherwise
    it is the category (["Uncategorized"] for a transaction without one) of
    an expense whose summed expense amount no category's exceeds, the first
    met in the input among such: every category met before it has a
    smaller sum.  In any arithmetic, binary64 included, this holds of the
    sums as the code adds them up, from left to right, where [x || 0]
    resets no running total and the comparator [b - a] orders the sums
    consistently: first with [b - a > 0] for [b] larger than [a], then
    with [b > a] where the two agree on the sums.  With exact amounts it
    holds with no condition. *)
Theorem topCategory_spec :
  (forall (A : Type) (N : Number A) (timePeriod : TimePeriod)
          (transactions : list (Transaction A)),
     let expenses := filter isExpense transactions in
     let top := ts_topCategory (calculateTotalStats timePeriod transactions) in
     let total := categorySum transactions in
     (expenses = [] -> top = "None"%string)
     /\ (expenses <> [] ->
         steadyTotals categoryName expenses ->
         consistent (map total (map categoryName expenses)) ->
         In top (map categoryName expenses)
         /\ (forall c, In c (map categoryName expenses) ->
               exceeds (total c) (total top) = false)
         /\ (forall pre t post,
               expenses = pre ++ t :: post ->
               categoryName t = top ->
               ~ In top (map categoryName pre) ->
               forall c, In c (map categoryName pre) ->
                 exceeds (total top) (total c) = true)
         /\ ((forall a b,
                In a (map total (map categoryName expenses)) ->
                In b (map total (map categoryName expenses)) ->
                exceeds b a = gtb b a) ->
             (forall c, In c (map categoryName expenses) ->
                gtb (total c) (total top) = false)
             /\ (forall pre t post,
                   expenses = pre ++ t :: post ->
                   categoryName t = top ->
                   ~ In top (map categoryName pre) ->
                   forall c, In c (map categoryName pre) ->
                     gtb (total top) (total c) = true))))
  /\ (forall (timePeriod : TimePeriod) (transactions : list (Transaction Qc)),
        let expenses := filter isExpense transactions in
        let top :=
          ts_topCategory (calculateTotalStats timePeriod transactions) in
        expenses <> [] ->
        In top (map categoryName expenses)
        /\ (forall c, In c (map categoryName expenses) ->
              (categorySum transactions c <= categorySum transactions top)%Qc)
        /\ (forall pre t post,
              expenses = pre ++ t :: post ->
              categoryName t = top ->
              ~ In top (map categoryName pre) ->
              forall c, In c (map categoryName pre) ->
                (categorySum transactions c
                 < categorySum transactions top)%Qc)).
Proof.
  split.
  - intros A N timePeriod transactions. apply topCategory_any.
  - intros timePeriod transactions. cbv zeta.
    apply (proj2 (topCategory_exact timePeriod transactions)).
Qed.

(** ** Category breakdown *)

(** C2, as stated, fails: with eight categories of equal expense the total
    is positive, each share is 12.5%, and the seven entries kept sum to
    87.5%, not 100%: 12.5 from 100, far outside any rounding. *)
Lemma breakdown_top7_not_100 :
  gtb (categoryTotal breakdown_sample) zero = true
  /\ List.length (processCategoryData breakdown_sample) = 7
  /\ sumPercent (processCategoryData breakdown_sample) = 87.5%float
  /\ ~ (sumPercent (processCategoryData breakdown_sample) = 100%float).
Proof.
  repeat split; try (vm_compute; reflexivity).
  intro E.
  apply (f_equal (fun v => PrimFloat.eqb v 100%float)) in E.
  vm_compute in E. discriminate.
Qed.

Section QcSums.
Local Open Scope Qc_scope.
Context {T : Type}.
Variable f : T -> Qc.

#[local] Abbreviation addf := (fun (sum : Qc) (x : T) => add sum (f x)).

Lemma fold_add_acc (l : list T) (a : Qc) :
  fold_left addf l a = a + fold_left addf l 0.
Proof.
  revert a. induction l as [|x l IH]; intro a; cbn [fold_left].
  - ring.
  - rewrite IH, (IH (add 0 (f x))). cbn. ring.
Qed.

Lemma fold_add_cons (x : T) (l : list T) :
  fold_left addf (x :: l) 0 = f x + fold_left addf l 0.
Proof. cbn [fold_left]. rewrite fold_add_acc. cbn. ring. Qed.

Lemma fold_add_perm (l l' : list T) :
  Permutation l l' -> fold_left addf l 0 = fold_left addf l' 0.
Proof.
  induction 1 as [|x l l' _ IH|x y l|l l' l'' _ IH1 _ IH2].
  - reflexivity.
  - now rewrite !fold_add_cons, IH.
  - rewrite !fold_add_cons. ring.
  - congruence.
Qed.

End QcSums.

Section CategoryFacts.
Local Open Scope Qc_scope.

#[local] Abbreviation txs := (list (Transaction Qc)).
#[local] Abbreviation emptyBucket := (mkCategoryBucket (zero : Qc) 0).

Lemma categoryStep_upsert (m : JS.Map (CategoryBucket Qc))
  (t : Transaction Qc) :
  categoryStep m t = upsert categoryName emptyBucket updCategory m t.
Proof.
  unfold categoryStep, upsert, updCategory, JS.has.
  destruct (JS.get (categoryName t) m) as [d|] eqn:E; cbn [negb default].
  - now rewrite E.
  - now rewrite JSFacts.get_set_same, JSFacts.set_set.
Qed.

Lemma categoryMap_upsert (l : txs) :
  categoryMap l
  = fold_left (upsert categoryName emptyBucket updCategory)
      (filter isExpense l) [].
Proof.
  unfold categoryMap. generalize (@nil (string * CategoryBucket Qc)).
  induction (filter isExpense l) as [|t ts IH]; intro m; cbn [fold_left]; auto.
  now rewrite categoryStep_upsert, IH.
Qed.

Lemma categoryMap_NoDup (l : txs) : NoDup (map fst (categoryMap l)).
Proof.
  rewrite categoryMap_upsert. apply JSFacts.NoDup_fold_upsert. constructor.
Qed.

Lemma categoryMap_keys (l : txs) (k : string) :
  In k (map fst (categoryMap l))
  <-> In k (map categoryName (filter isExpense l)).
Proof.
  rewrite categoryMap_upsert, JSFacts.keys_fold_upsert. cbn. tauto.
Qed.

#[local] Abbreviation amountOf :=
  (fun e : string * CategoryBucket Qc => cb_amount (snd e)).
#[local] Abbreviation mapTotal :=
  (fun m : JS.Map (CategoryBucket Qc) =>
     fold_left (fun sum e => add sum (amountOf e)) m 0).

Lemma mapTotal_upsert (m : JS.Map (CategoryBucket Qc)) (t : Transaction Qc) :
  mapTotal (upsert categoryName emptyBucket updCategory m t)
  = mapTotal m + amount t.
Proof.
  unfold upsert. induction m as [|[k d] m IH].
  - cbn. ring.
  - cbn [JS.get JS.set].
    destruct (String.eqb (categoryName t) k) eqn:E.
    + rewrite !(fold_add_cons amountOf). cbn. ring.
    + rewrite !(fold_add_cons amountOf), IH. ring.
Qed.

Lemma mapTotal_fold (ts : txs) : forall m,
  mapTotal (fold_left (upsert categoryName emptyBucket updCategory) ts m)
  = mapTotal m + sumAmounts ts.
Proof.
  induction ts as [|t ts IH]; intro m; cbn [fold_left].
  - unfold sumAmounts. cbn. ring.
  - rewrite IH, mapTotal_upsert, sumAmounts_cons. ring.
Qed.

Lemma categoryTotal_mapTotal (l : txs) :
  categoryTotal l = mapTotal (categoryMap l).
Proof.
  unfold categoryTotal.
  assert (Hgen : forall (m : JS.Map (CategoryBucket Qc)) (a : Qc),
            fold_left (fun sum cat => add sum (cb_amount cat)) (map snd m) a
            = fold_left (fun sum e => add sum (amountOf e)) m a).
  { induction m as [|e m IH]; intro a; cbn [map fold_left]; auto. }
  apply Hgen.
Qed.

(** The total taken over the categories is the total of the expenses. *)
Lemma categoryTotal_expenses (l : txs) :
  categoryTotal l = sumAmounts (filter isExpense l).
Proof.
  rewrite categoryTotal_mapTotal, categoryMap_upsert, mapTotal_fold.
  cbn. ring.
Qed.

#[local] Abbreviation share :=
  (fun (total : Qc) (e : string * CategoryBucket Qc) =>
     if gtb total zero then mul (div (amountOf e) total) hundred else zero).

Lemma In_mapi_from {T U} (g : T -> nat -> U) (r : U) (m : list T) :
  forall i, In r (JS.mapi_from g i m) -> exists e j, In e m /\ r = g e j.
Proof.
  induction m as [|e m IH]; intros i; cbn; [tauto|].
  intros [<-|Hin].
  - exists e, i. auto.
  - destruct (IH _ Hin) as (e' & j & He & ->). exists e', j. auto.
Qed.

Lemma mapi_from_length {T U} (g : T -> nat -> U) (m : list T) :
  forall i, List.length (JS.mapi_from g i m) = List.length m.
Proof. induction m as [|e m IH]; intro i; cbn; auto. Qed.

Lemma categoryRows_length (l : txs) :
  List.length (categoryRows l) = List.length (categoryMap l).
Proof. apply mapi_from_length. Qed.

Lemma categoryRows_share (l : txs) (r : CategorySpending Qc) :
  In r (categoryRows l) ->
  cs_percentage r
  = if gtb (categoryTotal l) zero
    then mul (div (cs_amount r) (categoryTotal l)) hundred
    else zero.
Proof.
  intro Hin. apply In_mapi_from in Hin.
  destruct Hin as ([name data] & j & _ & ->). reflexivity.
Qed.

Lemma categoryRows_sumPercent (l : txs) :
  sumPercent (categoryRows l)
  = fold_left (fun sum e => add sum (share (categoryTotal l) e))
      (categoryMap l) 0.
Proof.
  unfold sumPercent, categoryRows, JS.mapi.
  generalize 0%nat. generalize (categoryTotal l). intro total.
  induction (categoryMap l) as [|[name data] m IH]; intro i; auto.
  cbn [JS.mapi_from].
  rewrite (fold_add_cons cs_percentage), (fold_add_cons (share total)).
  now rewrite IH.
Qed.

Lemma sum_shares (total : Qc) (m : JS.Map (CategoryBucket Qc)) :
  0 < total ->
  fold_left (fun sum e => add sum (share total e)) m 0
  = mapTotal m / total * hundred.
Proof.
  intro Hpos.
  assert (Hne : total <> 0).
  { intro E. rewrite E in Hpos. exact (Qclt_not_le _ _ Hpos (Qcle_refl 0)). }
  assert (Hg : gtb total zero = true) by now apply QcFacts.gtb_lt.
  induction m as [|e m IH].
  - cbn. field. exact Hne.
  - rewrite (fold_add_cons (share total)), (fold_add_cons amountOf), IH.
    cbv beta. rewrite Hg. cbn. field. exact Hne.
Qed.

Lemma processCategoryData_In (l : txs) (r : CategorySpending Qc) :
  In r (processCategoryData l) -> In r (categoryRows l).
Proof.
  unfold processCategoryData, JS.sliceFirst. intro Hin.
  apply (JSFacts.sort_In (fun a b => sign (sub (cs_amount b) (cs_amount a)))).
  rewrite <- (firstn_skipn 7). apply in_app_iff. now left.
Qed.

(** With exact amounts, the percentages of at most 7 categories sum to
    100 when the total expense is greater than 0. *)
Lemma categoryPercentages_exact (transactions : txs) :
  0 < categoryTotal transactions ->
  forall names : list string,
  (forall t, In t transactions -> isExpense t = true ->
     In (categoryName t) names) ->
  (List.length names <= 7)%nat ->
  sumPercent (processCategoryData transactions) = hundred.
Proof.
  intros Hpos names Hcover Hlen.
  assert (Hcount : (List.length (categoryRows transactions) <= 7)%nat).
  { rewrite categoryRows_length, <- (length_map fst).
    apply Nat.le_trans with (List.length names); auto.
    apply NoDup_incl_length; [apply categoryMap_NoDup|].
    intros k Hk. apply categoryMap_keys, in_map_iff in Hk.
    destruct Hk as (t & <- & Ht). apply filter_In in Ht.
    now apply Hcover. }
  unfold processCategoryData.
  rewrite JSFacts.sliceFirst_all by now rewrite JSFacts.sort_length.
  unfold sumPercent.
  rewrite (fold_add_perm cs_percentage _ _
             (JSFacts.sort_perm _ (categoryRows transactions))).
  change (fold_left _ (categoryRows transactions) _)
    with (sumPercent (categoryRows transactions)).
  rewrite categoryRows_sumPercent, sum_shares by assumption.
  rewrite <- categoryTotal_mapTotal. cbn. field.
  intro E. rewrite E in Hpos. exact (Qclt_not_le _ _ Hpos (Qcle_refl 0)).
Qed.

End CategoryFacts.

(** ** Category breakdown: its rows, in any arithmetic *)

Section CategoryRowsAny.
Context {A : Type} `{Number A}.

#[local] Abbreviation emptyBucket := (mkCategoryBucket (zero : A) 0).
#[local] Abbreviation addAmount :=
  (fun (sum : A) (t : Transaction A) => add sum (amount t)).
#[local] Abbreviation byAmount :=
  (fun a b : CategorySpending A => sign (sub (cs_amount b) (cs_amount a))).

Lemma categoryStep_upsert_any (m : JS.Map (CategoryBucket A))
  (t : Transaction A) :
  categoryStep m t = upsert categoryName emptyBucket updCategory m t.
Proof.
  unfold categoryStep, upsert, updCategory, JS.has.
  destruct (JS.get (categoryName t) m) as [d|] eqn:E; cbn [negb default].
  - now rewrite E.
  - now rewrite JSFacts.get_set_same, JSFacts.set_set.
Qed.

Lemma categoryMap_upsert_any (l : list (Transaction A)) :
  categoryMap l
  = fold_left (upsert categoryName emptyBucket updCategory)
      (filter isExpense l) [].
Proof.
  unfold categoryMap. generalize (@nil (string * CategoryBucket A)).
  induction (filter isExpense l) as [|t ts IH]; intro m; cbn [fold_left]; auto.
  now rewrite categoryStep_upsert_any, IH.
Qed.

Lemma categoryMap_NoDup_any (l : list (Transaction A)) :
  NoDup (map fst (categoryMap l)).
Proof.
  rewrite categoryMap_upsert_any. apply JSFacts.NoDup_fold_upsert.
  constructor.
Qed.

Lemma categoryMap_keys_any (l : list (Transaction A)) (k : string) :
  In k (map fst (categoryMap l))
  <-> In k (map categoryName (filter isExpense l)).
Proof.
  rewrite categoryMap_upsert_any, JSFacts.keys_fold_upsert. cbn. tauto.
Qed.

Lemma updCategory_fold (ts : list (Transaction A)) :
  forall d : CategoryBucket A,
  fold_left updCategory ts d
  = mkCategoryBucket (fold_left addAmount ts (cb_amount d))
      (cb_count d + List.length ts).
Proof.
  induction ts as [|t ts IH]; intros [a n]; cbn [fold_left List.length].
  - cbn. now rewrite Nat.add_0_r.
  - rewrite IH. unfold updCategory. cbn [cb_amount cb_count]. f_equal. lia.
Qed.

Lemma categoryMap_bucket (l : list (Transaction A)) (k : string)
  (d : CategoryBucket A) :
  In (k, d) (categoryMap l) ->
  d = mkCategoryBucket (categorySum l k) (categoryCount l k)
  /\ 1 <= categoryCount l k.
Proof.
  intro Hin. apply JSFacts.In_get in Hin; [|apply categoryMap_NoDup_any].
  rewrite categoryMap_upsert_any, JSFacts.get_fold_upsert in Hin.
  unfold categorySum, categoryCount, sumAmounts.
  destruct (filter (keyIs categoryName k) (filter isExpense l)) as [|t ts];
    [discriminate|].
  injection Hin as <-. rewrite updCategory_fold. split; [reflexivity|].
  cbn. lia.
Qed.

Lemma categoryRows_names (l : list (Transaction A)) :
  map cs_name (categoryRows l) = map fst (categoryMap l).
Proof.
  unfold categoryRows, JS.mapi. generalize 0.
  induction (categoryMap l) as [|[name data] m IH]; intro i; cbn; auto.
  now rewrite IH.
Qed.

Lemma categoryRows_row (l : list (Transaction A)) (r : CategorySpending A) :
  In r (categoryRows l) ->
  In (cs_name r, mkCategoryBucket (cs_amount r) (cs_count r)) (categoryMap l).
Proof.
  unfold categoryRows, JS.mapi. generalize 0.
  induction (categoryMap l) as [|[name [a n]] m IH]; intro i; cbn; [tauto|].
  intros [<-|Hin]; [now left|]. right. exact (IH _ Hin).
Qed.

Lemma categoryMap_atMost (l : list (Transaction A)) (names : list string) :
  (forall t, In t l -> isExpense t = true -> In (categoryName t) names) ->
  List.length (categoryMap l) <= List.length names.
Proof.
  intro Hcover. rewrite <- (length_map fst).
  apply NoDup_incl_length; [apply categoryMap_NoDup_any|].
  intros k Hk. apply categoryMap_keys_any, in_map_iff in Hk.
  destruct Hk as (t & <- & Ht). apply filter_In in Ht. now apply Hcover.
Qed.

Lemma processCategoryData_split (l : list (Transaction A)) :
  JS.sort byAmount (categoryRows l)
  = processCategoryData l ++ skipn 7 (JS.sort byAmount (categoryRows l)).
Proof. symmetry. apply firstn_skipn. Qed.

Lemma processCategoryData_In_any (l : list (Transaction A))
  (r : CategorySpending A) :
  In r (processCategoryData l) -> In r (categoryRows l).
Proof.
  intro Hin. apply (JSFacts.sort_In byAmount).
  rewrite processCategoryData_split. apply in_app_iff. now left.
Qed.

Lemma processCategoryData_length (l : list (Transaction A)) :
  List.length (processCategoryData l)
  = Nat.min 7 (List.length (categoryMap l)).
Proof.
  unfold processCategoryData, JS.sliceFirst.
  rewrite length_firstn, JSFacts.sort_length.
  unfold categoryRows, JS.mapi. now rewrite mapi_from_length.
Qed.

Lemma processCategoryData_all (l : list (Transaction A)) :
  List.length (categoryMap l) <= 7 ->
  processCategoryData l = JS.sort byAmount (categoryRows l).
Proof.
  intro Hle. unfold processCategoryData. apply JSFacts.sliceFirst_all.
  rewrite JSFacts.sort_length. unfold categoryRows, JS.mapi.
  now rewrite mapi_from_length.
Qed.

End CategoryRowsAny.

(** ** Category breakdown: the sum of the percentages under rounding *)

Section RoundingBounds.
Local Open Scope Q_scope.

Lemma mul_nonneg (a b : Q) : 0 <= a -> 0 <= b -> 0 <= a * b.
Proof. intros. nra. Qed.

(** One more rounded addition: the relative error of a total of [k]
    positive terms grows by at most [u] downwards and [2 u] upwards. *)
Lemma total_step (u k S a s x : Q) :
  0 <= u -> u <= 1 -> 0 <= k -> 2 * k * u <= 1 -> 0 <= S -> 0 < a ->
  (1 - k * u) * S <= s <= (1 + 2 * k * u) * S ->
  (1 - u) * (s + a) <= x <= (1 + u) * (s + a) ->
  (1 - (k + 1) * u) * (S + a) <= x <= (1 + 2 * (k + 1) * u) * (S + a).
Proof.
  intros Hu Hu1 Hk Hku HS Ha [Hs1 Hs2] [Hx1 Hx2].
  assert (H1 : 0 <= (1 - 2 * k * u) * (u * S))
    by (apply mul_nonneg; [lra|apply mul_nonneg; lra]).
  assert (H2 : 0 <= (1 + u) * ((1 + 2 * k * u) * S - s))
    by (apply mul_nonneg; lra).
  assert (H3 : 0 <= k * (u * a))
    by (apply mul_nonneg; [lra|apply mul_nonneg; lra]).
  assert (H4 : 0 <= u * a) by (apply mul_nonneg; lra).
  assert (H5 : 0 <= (1 - u) * (s - (1 - k * u) * S))
    by (apply mul_nonneg; lra).
  assert (H6 : 0 <= k * (u * (u * S))) by (repeat apply mul_nonneg; lra).
  split; nra.
Qed.

(** The sum [X] of the shares, each rounded twice, of [n <= 7] amounts
    whose exact sum is [r] times the rounded total. *)
Lemma shares_tolerance (u n r X : Q) :
  0 <= u -> u <= 1 # 100 -> 0 <= n -> n <= 7 -> 0 < r ->
  (1 - n * u) * r <= 1 -> 1 <= (1 + 2 * n * u) * r ->
  (1 - u) * (1 - u) * (100 * r) <= X <= (1 + u) * (1 + u) * (100 * r) ->
  Qabs (X - 100) <= 2000 * u.
Proof.
  intros Hu Hu1 Hn Hn7 Hr Hlo Hhi [HX1 HX2].
  assert (Hur : 0 <= u * r) by (apply mul_nonneg; lra).
  assert (Hnur : 0 <= (7 - n) * (u * r)) by (apply mul_nonneg; lra).
  assert (Huu : 0 <= u * u) by (apply mul_nonneg; lra).
  assert (Huuu : 0 <= u * (u * u)) by (apply mul_nonneg; lra).
  assert (Hsm : 0 <= ((1 # 100) - u) * u) by (apply mul_nonneg; lra).
  assert (Hsm2 : 0 <= ((1 # 100) - u) * (u * u)) by (apply mul_nonneg; lra).
  assert (Hup : r <= 1 + 8 * u).
  { destruct (Qlt_le_dec (1 + 8 * u) r) as [Hgt|Hle]; [exfalso|exact Hle].
    assert (0 <= (1 - 7 * u) * (r - (1 + 8 * u)))
      by (apply mul_nonneg; lra).
    nra. }
  assert (Hdown : 1 - 14 * u <= r).
  { destruct (Qlt_le_dec r (1 - 14 * u)) as [Hlt|Hle]; [exfalso|exact Hle].
    assert (0 <= (1 + 14 * u) * ((1 - 14 * u) - r))
      by (apply mul_nonneg; lra).
    nra. }
  assert (H1 : 0 <= (1 + u) * (1 + u) * (1 + 8 * u - r)).
  { apply mul_nonneg; [apply mul_nonneg|]; lra. }
  assert (H2 : 0 <= (1 - u) * (1 - u) * (r - (1 - 14 * u))).
  { apply mul_nonneg; [apply mul_nonneg|]; lra. }
  apply Qabs_case; intros _; nra.
Qed.

Lemma count_succ (n : nat) :
  inject_Z (Z.of_nat (S n)) == inject_Z (Z.of_nat n) + 1.
Proof. rewrite Nat2Z.inj_succ, <- Z.add_1_r, inject_Z_plus. reflexivity. Qed.

Lemma count_nonneg (n : nat) : 0 <= inject_Z (Z.of_nat n).
Proof.
  change 0 with (inject_Z 0). rewrite <- Zle_Qle. apply Nat2Z.is_nonneg.
Qed.

Lemma count_le (n m : nat) :
  (n <= m)%nat -> inject_Z (Z.of_nat n) <= inject_Z (Z.of_nat m).
Proof. intro Hle. rewrite <- Zle_Qle. now apply Nat2Z.inj_le. Qed.

End RoundingBounds.

Section Tolerance.
Context {A : Type} `{Number A}.
Local Open Scope Q_scope.
Variable val : A -> Q.
Variable u : Q.
Hypothesis Hu0 : 0 <= u.
Hypothesis Hu1 : u <= 1 # 100.

#[local] Abbreviation sumOf := (sumOf val).
#[local] Abbreviation rounded := (rounded val u).
#[local] Abbreviation count l := (inject_Z (Z.of_nat (List.length l))).

Lemma rounded_bounds (x : A) (exact : Q) :
  0 <= exact -> rounded x exact ->
  (1 - u) * exact <= val x <= (1 + u) * exact.
Proof.
  unfold rounded. intros He Hr.
  rewrite (Qabs_pos exact He) in Hr. apply Qabs_Qle_condition in Hr. lra.
Qed.

Lemma sumOf_snoc (l : list A) (a : A) : sumOf (l ++ [a]) == sumOf l + val a.
Proof.
  induction l as [|x l IH]; cbn [app fold_right sumOf].
  - unfold sumOf. cbn. ring.
  - unfold sumOf in *. cbn [fold_right]. rewrite IH. ring.
Qed.

Lemma sumOf_nonneg (l : list A) :
  (forall a, In a l -> 0 < val a) -> 0 <= sumOf l.
Proof.
  induction l as [|x l IH]; intro Hpos.
  - unfold sumOf. cbn. lra.
  - unfold sumOf in *. cbn [fold_right].
    assert (0 < val x) by (apply Hpos; now left).
    assert (0 <= fold_right (fun x s => val x + s) 0 l)
      by (apply IH; intros a Ha; apply Hpos; now right).
    lra.
Qed.

Lemma sumOf_perm (l l' : list A) : Permutation l l' -> sumOf l == sumOf l'.
Proof.
  unfold sumOf.
  induction 1 as [|x l l' _ IH|x y l|l l' l'' _ IH1 _ IH2];
    cbn [fold_right].
  - reflexivity.
  - rewrite IH. reflexivity.
  - ring.
  - rewrite IH1. exact IH2.
Qed.

(** The rounded total of positive amounts, against their exact sum. *)
Lemma total_bounds (amounts : list A) :
  val zero == 0 ->
  (forall a, In a amounts -> 0 < val a) ->
  (forall pre a post,
      amounts = pre ++ a :: post ->
      rounded (add (fold_left add pre zero) a)
        (val (fold_left add pre zero) + val a)) ->
  2 * count amounts * u <= 1 ->
  (1 - count amounts * u) * sumOf amounts
  <= val (fold_left add amounts zero)
  <= (1 + 2 * count amounts * u) * sumOf amounts.
Proof.
  intro Hzero.
  induction amounts as [|a l IH] using rev_ind; intros Hpos Hsum Hcount.
  - unfold sumOf. cbn. rewrite Hzero. lra.
  - rewrite length_app in *. cbn [List.length] in *.
    rewrite Nat.add_1_r in *. rewrite count_succ in *.
    pose proof (count_nonneg (List.length l)) as Hk.
    assert (Hposl : forall x, In x l -> 0 < val x).
    { intros x Hx. apply Hpos, in_app_iff. now left. }
    assert (Ha : 0 < val a).
    { apply Hpos, in_app_iff. right. now left. }
    assert (Hku : 2 * inject_Z (Z.of_nat (List.length l)) * u <= 1).
    { assert (0 <= 2 * u) by lra. lra. }
    specialize (IH Hposl).
    assert (IH' : (1 - inject_Z (Z.of_nat (List.length l)) * u) * sumOf l
                  <= val (fold_left add l zero)
                  <= (1 + 2 * inject_Z (Z.of_nat (List.length l)) * u)
                     * sumOf l).
    { apply IH; auto. intros pre x post E.
      apply (Hsum pre x (post ++ [a])). rewrite E, <- app_assoc.
      reflexivity. }
    pose proof (sumOf_nonneg l Hposl) as HS.
    assert (Hs0 : 0 <= val (fold_left add l zero)).
    { destruct IH' as [IH1 _].
      assert (0 <= (1 - inject_Z (Z.of_nat (List.length l)) * u) * sumOf l)
        by (apply mul_nonneg; lra).
      lra. }
    pose proof (Hsum l a [] eq_refl) as Hr.
    apply rounded_bounds in Hr; [|lra].
    rewrite fold_left_app. cbn [fold_left]. rewrite sumOf_snoc.
    apply (total_step u (inject_Z (Z.of_nat (List.length l))) (sumOf l)
             (val a) (val (fold_left add l zero))); auto; lra.
Qed.

(** A share, rounded at its division and at its multiplication. *)
Lemma share_bounds (a total : A) :
  0 < val a -> 0 < val total ->
  rounded (div a total) (val a / val total) ->
  rounded (mul (div a total) hundred) (val (div a total) * 100) ->
  (1 - u) * (1 - u) * (100 * (val a * / val total))
  <= val (mul (div a total) hundred)
  <= (1 + u) * (1 + u) * (100 * (val a * / val total)).
Proof.
  intros Ha Ht Hdiv Hmul. unfold Qdiv in Hdiv.
  assert (Hinv : 0 < / val total) by now apply Qinv_lt_0_compat.
  assert (He : 0 <= val a * / val total) by (apply mul_nonneg; lra).
  apply rounded_bounds in Hdiv; [|exact He].
  assert (Hq : 0 <= val (div a total)).
  { assert (0 <= (1 - u) * (val a * / val total))
      by (apply mul_nonneg; lra). lra. }
  apply rounded_bounds in Hmul; [|lra].
  assert (H1 : 0 <= (1 - u) * (val (div a total)
                               - (1 - u) * (val a * / val total)))
    by (apply mul_nonneg; lra).
  assert (H2 : 0 <= (1 + u) * ((1 + u) * (val a * / val total)
                               - val (div a total)))
    by (apply mul_nonneg; lra).
  split; nra.
Qed.

Lemma shares_bounds (amounts : list A) (total : A) :
  0 < val total ->
  (forall a, In a amounts ->
     0 < val a
     /\ rounded (div a total) (val a / val total)
     /\ rounded (mul (div a total) hundred) (val (div a total) * 100)) ->
  (1 - u) * (1 - u) * (100 * (sumOf amounts * / val total))
  <= sumOf (map (fun a => mul (div a total) hundred) amounts)
  <= (1 + u) * (1 + u) * (100 * (sumOf amounts * / val total)).
Proof.
  intros Ht Hall. unfold sumOf.
  induction amounts as [|a l IH]; cbn [map fold_right].
  - lra.
  - destruct (Hall a (or_introl eq_refl)) as (Ha & Hdiv & Hmul).
    pose proof (share_bounds a total Ha Ht Hdiv Hmul) as Hshare.
    assert (IH' := IH (fun x Hx => Hall x (or_intror Hx))).
    lra.
Qed.

(** The sum of the shares of at most 7 positive amounts, every operation
    being rounded, is within [2000 u] of 100. *)
Lemma roundedShares_tolerance (amounts : list A) :
  let total := fold_left add amounts zero in
  (List.length amounts <= 7)%nat ->
  gtb total zero = true ->
  roundedShares val u amounts ->
  Qabs (sumOf (map (fun a => mul (div a total) hundred) amounts) - 100)
  <= 2000 * u.
Proof.
  intros total Hlen Hgt (Hzero & Hhundred & Hsign & Hpos & Hsum & Hshares).
  fold total in Hsign, Hshares.
  pose proof (Hsign Hgt) as Ht.
  pose proof (count_nonneg (List.length amounts)) as Hn0.
  pose proof (count_le _ _ Hlen) as Hn7.
  change (inject_Z (Z.of_nat 7)) with 7 in Hn7.
  assert (Hku : 2 * count amounts * u <= 1).
  { assert (0 <= (7 - count amounts) * u) by (apply mul_nonneg; lra). lra. }
  pose proof (total_bounds amounts Hzero Hpos Hsum Hku) as [Hlo Hhi].
  fold total in Hlo, Hhi.
  assert (Hinv : 0 < / val total) by now apply Qinv_lt_0_compat.
  assert (Hone : val total * / val total == 1).
  { apply Qmult_inv_r. lra. }
  pose proof (sumOf_nonneg amounts Hpos) as HS.
  assert (Hr : 0 < sumOf amounts * / val total).
  { assert (HSpos : 0 < sumOf amounts).
    { destruct (Qlt_le_dec 0 (sumOf amounts)) as [Hlt|Hle]; auto.
      exfalso.
      assert (0 <= (1 + 2 * count amounts * u) * (0 - sumOf amounts))
        by (apply mul_nonneg; [assert (0 <= count amounts * u)
              by (apply mul_nonneg; lra); lra|lra]).
      lra. }
    assert (0 < sumOf amounts * / val total); [|assumption].
    apply Qmult_lt_0_compat; assumption. }
  apply (shares_tolerance u (count amounts) (sumOf amounts * / val total));
    auto.
  - assert (0 <= / val total
                 * (val total - (1 - count amounts * u) * sumOf amounts))
      by (apply mul_nonneg; lra).
    nra.
  - assert (0 <= / val total
                 * ((1 + 2 * count amounts * u) * sumOf amounts - val total))
      by (apply mul_nonneg; lra).
    nra.
  - apply shares_bounds; [exact Ht|].
    intros a Ha. destruct (Hshares a Ha) as [Hdiv Hmul].
    split; [now apply Hpos|split; assumption].
Qed.

End Tolerance.

Section CategoryShares.
Context {A : Type} `{Number A}.

#[local] Abbreviation share total :=
  (fun a : A => if gtb total zero then mul (div a total) hundred else zero).

Lemma categoryTotal_amounts (l : list (Transaction A)) :
  categoryTotal l = fold_left add (categoryAmounts l) zero.
Proof.
  unfold categoryTotal, categoryAmounts. generalize (zero : A).
  induction (categoryMap l) as [|e m IH]; intro a; cbn [map fold_left]; auto.
Qed.

Lemma categoryRows_percentages (l : list (Transaction A)) :
  map cs_percentage (categoryRows l)
  = map (share (categoryTotal l)) (categoryAmounts l).
Proof.
  unfold categoryRows, categoryAmounts, JS.mapi. generalize 0.
  induction (categoryMap l) as [|[name data] m IH]; intro i;
    cbn [JS.mapi_from map]; auto.
  now rewrite IH.
Qed.

Lemma categoryRows_share_any (l : list (Transaction A))
  (r : CategorySpending A) :
  In r (categoryRows l) ->
  cs_percentage r = share (categoryTotal l) (cs_amount r).
Proof.
  intro Hin. apply In_mapi_from in Hin.
  destruct Hin as ([name data] & j & _ & ->). reflexivity.
Qed.

(** With at most 7 categories and a total greater than 0, the
    percentages of the breakdown are the shares of the categories'
    amounts, in some order. *)
Lemma processCategoryData_percentages (l : list (Transaction A))
  (names : list string) :
  gtb (categoryTotal l) zero = true ->
  (forall t, In t l -> isExpense t = true -> In (categoryName t) names) ->
  List.length names <= 7 ->
  Permutation (map cs_percentage (processCategoryData l))
    (map (fun a => mul (div a (categoryTotal l)) hundred)
       (categoryAmounts l)).
Proof.
  intros Hgt Hcover Hlen.
  assert (Hle : List.length (categoryMap l) <= 7).
  { apply Nat.le_trans with (List.length names); auto.
    now apply categoryMap_atMost. }
  rewrite (processCategoryData_all l Hle).
  rewrite (Permutation_map cs_percentage (JSFacts.sort_perm _ (categoryRows l))).
  rewrite categoryRows_percentages.
  erewrite map_ext; [reflexivity|].
  intro a. cbv beta. now rewrite Hgt.
Qed.

End CategoryShares.

(** C2, amended: each percentage of the breakdown is the share
    [amount / total * 100] of its category when the total expense is
    greater than 0, and 0 otherwise, so every percentage is 0 when the
    total expense is 0.  When the total expense is greater than 0 and the
    expenses fall in at most 7 categories, so that none is cut, the
    percentages sum to 100 within rounding: where the categories' amounts
    are positive and every addition, division and multiplication of the
    computation returns its exact result with a relative error of at most
    [u <= 1/100], the sum is within [2000 u] of 100; with exact amounts it
    is 100. *)
Theorem categoryPercentages_spec :
  (forall (A : Type) (N : Number A) (transactions : list (Transaction A)),
     let total := categoryTotal transactions in
     let rows := processCategoryData transactions in
     (forall r, In r rows ->
        cs_percentage r
        = if gtb total zero then mul (div (cs_amount r) total) hundred
          else zero)
     /\ (gtb zero zero = false -> total = zero ->
         forall r, In r rows -> cs_percentage r = zero)
     /\ (forall (val : A -> Q) (u : Q) (names : list string),
           gtb total zero = true ->
           (forall t, In t transactions -> isExpense t = true ->
              In (categoryName t) names) ->
           List.length names <= 7 ->
           (0 <= u)%Q -> (u <= 1 # 100)%Q ->
           roundedShares val u (categoryAmounts transactions) ->
           (Qabs (sumOf val (map cs_percentage rows) - 100) <= 2000 * u)%Q))
  /\ (forall transactions : list (Transaction Qc),
        let total := categoryTotal transactions in
        let rows := processCategoryData transactions in
        (0 < total)%Qc ->
        forall names : list string,
        (forall t, In t transactions -> isExpense t = true ->
           In (categoryName t) names) ->
        List.length names <= 7 ->
        sumPercent rows = hundred).
Proof.
  split.
  - intros A N transactions total rows. subst total rows.
    split; [|split].
    + intros r Hr.
      now apply processCategoryData_In_any, categoryRows_share_any in Hr.
    + intros Hzero Htotal r Hr.
      apply processCategoryData_In_any, categoryRows_share_any in Hr.
      rewrite Hr, Htotal, Hzero. reflexivity.
    + intros val u names Hgt Hcover Hlen Hu0 Hu1 Hrounded.
      rewrite (sumOf_perm val _ _
                 (processCategoryData_percentages transactions names
                    Hgt Hcover Hlen)).
      rewrite categoryTotal_amounts in Hgt |- *.
      apply roundedShares_tolerance; auto.
      unfold categoryAmounts. rewrite length_map.
      apply Nat.le_trans with (List.length names); auto.
      now apply categoryMap_atMost.
  - intros transactions total rows Hpos names Hcover Hlen. subst total rows.
    now apply (categoryPercentages_exact transactions Hpos names).
Qed.

(** ** Add/edit form *)

Module FormFacts.
Import Form.

Section Submission.
Variable params : Params.
Variable parseFloat : string -> float.
Variable trim : string -> string.

#[local] Abbreviation validateForm := (validateForm parseFloat trim).
#[local] Abbreviation transactionData := (transactionData parseFloat trim).
#[local] Abbreviation handleSubmit := (handleSubmit params parseFloat trim).

Lemma nonEmpty_false (s : string) : nonEmpty s = false <-> s = EmptyString.
Proof. destruct s; cbn; split; congruence. Qed.

Lemma nonEmpty_true (s : string) : nonEmpty s = true <-> s <> EmptyString.
Proof. destruct s; cbn; split; congruence. Qed.

(** The form is refused exactly on the four grounds of [validateForm]. *)
Lemma validateForm_None (st : State) :
  validateForm st = None
  <-> (amount st <> EmptyString
       /\ isNaN (parseFloat (amount st)) = false
       /\ PrimFloat.leb (parseFloat (amount st)) 0 = false
       /\ selectedCategory st <> EmptyString
       /\ trim (description st) <> EmptyString).
Proof.
  unfold Form.validateForm. rewrite <- !nonEmpty_true.
  destruct (nonEmpty (amount st)); cbn [negb orb];
  destruct (isNaN (parseFloat (amount st)));
  destruct (PrimFloat.leb (parseFloat (amount st)) 0);
  destruct (nonEmpty (selectedCategory st)); cbn [negb];
  destruct (nonEmpty (trim (description st))); cbn [negb];
  split; try discriminate; try tauto; intros (? & ? & ? & ? & ?);
  discriminate.
Qed.

Lemma validateForm_alert (st : State) (e : Effect) :
  validateForm st = Some e -> exists title message, e = Alert title message.
Proof.
  unfold Form.validateForm.
  repeat match goal with
         | |- context [if ?b then _ else _] => destruct b
         end; intros [= <-]; eauto.
Qed.

(** C8: a submission whose amount is empty or does not parse to a number,
    or parses to a value not greater than 0, or that has no category
    selected, or whose description is empty once trimmed, leaves the form
    as it is and does nothing but show one alert: no insert and no update
    is sent.  So it is for the amount ["-5"]. *)
Theorem invalid_submission_rejected (response : Response unit) (st : State) :
  ((amount st = EmptyString
    \/ isNaN (parseFloat (amount st)) = true
    \/ PrimFloat.leb (parseFloat (amount st)) 0 = true
    \/ selectedCategory st = EmptyString
    \/ trim (description st) = EmptyString) ->
   (exists title message,
      handleSubmit response st = (st, [Alert title message]))
   /\ noWrite (snd (handleSubmit response st)))
  /\ (amount st = "-5"%string -> parseFloat "-5" = (-5)%float ->
      handleSubmit response st
      = (st, [Alert "Invalid Input" "Amount must be greater than 0"])).
Proof.
  split.
  - intro Hbad.
    assert (Hsome : validateForm st <> None).
    { rewrite validateForm_None. intros (H1 & H2 & H3 & H4 & H5).
      destruct Hbad as [E|[E|[E|[E|E]]]]; congruence. }
    unfold Form.handleSubmit.
    destruct (validateForm st) as [e|] eqn:Ev; [|congruence].
    destruct (validateForm_alert _ _ Ev) as (title & message & ->).
    split; [eauto|].
    intros e [<-|[]]. exact I.
  - intros Hamount Hparse. unfold Form.handleSubmit, Form.validateForm.
    rewrite Hamount, Hparse. reflexivity.
Qed.

(** C10: a submission that passes validation sends one request, an update
    of the record edited or else an insert; its description is the form's
    text trimmed, and its [subcategory_id] is [null] when no subcategory
    is selected and the selected id otherwise, never the empty string. *)
Theorem valid_submission_record (response : Response unit) (st : State) :
  validateForm st = None ->
  let data := transactionData st in
  let request :=
    if isEditMode params then Update (transactionId params) data
    else Insert data in
  (exists title message,
     handleSubmit response st
     = (setLoading false (setLoading true st),
        [request; Alert title message]))
  /\ td_description data = trim (description st)
  /\ (selectedSubcategory st = EmptyString -> td_subcategory_id data = None)
  /\ (selectedSubcategory st <> EmptyString ->
      td_subcategory_id data = Some (selectedSubcategory st))
  /\ td_subcategory_id data <> Some EmptyString.
Proof.
  intros Hvalid data request. subst data request.
  unfold Form.handleSubmit. rewrite Hvalid.
  split; [|split; [reflexivity|]].
  - destruct response; eauto.
  - unfold Form.transactionData. cbn [td_subcategory_id].
    destruct (selectedSubcategory st) as [|c s]; cbn [nonEmpty].
    + repeat split; congruence.
    + repeat split; congruence.
Qed.

End Submission.

(** Outside edit mode, choosing another category leaves the selected
    subcategory as it was: only the list of subcategories is replaced. *)
Lemma changeSelectedCategory_keeps_subcategory (params : Params)
  (remote : Remote) (v : string) (st : State) :
  isEditMode params = false -> v <> EmptyString ->
  selectedSubcategory (fst (changeSelectedCategory params remote v st))
  = selectedSubcategory st.
Proof.
  intros Hadd Hv. unfold changeSelectedCategory.
  destruct (String.eqb v (selectedCategory st)); [reflexivity|].
  unfold onSelectedCategory. cbn [selectedCategory setSelectedCategory].
  destruct v as [|c v]; [congruence|]. cbn [nonEmpty].
  unfold fetchSubcategories, matchSubcategory. rewrite Hadd.
  now destruct (subcategoriesOf remote (String c v)).
Qed.

(** C3 fails on the code.  With Food and Groceries chosen, choosing the
    category Travel fetches Travel's subcategories and leaves Groceries
    selected: the form holds category [c2] with subcategory [s1], a child
    of [c1], and submits the two together. *)
Theorem stale_subcategory_after_category_change :
  exists st effects,
    Samples.session Samples.changeOfCategory = Some (st, effects)
    /\ selectedCategory st = "c2"%string
    /\ selectedSubcategory st = "s1"%string
    /\ subcategories st = [Samples.flights]
    /\ ~ subcategoryBelongs st
    /\ exists data shown,
         Samples.session
           (Samples.changeOfCategory ++ [PressSubmit (Data tt)])
         = Some (st, effects ++ [Insert data; shown])
         /\ td_category_id data = "c2"%string
         /\ td_subcategory_id data = Some "s1"%string.
Proof.
  eexists. eexists. split; [vm_compute; reflexivity|].
  cbn [selectedCategory selectedSubcategory subcategories].
  repeat split.
  - unfold subcategoryBelongs. cbn. intro Hbelongs.
    destruct Hbelongs as (sub & [<-|[]] & Hid & _); discriminate.
  - eexists. eexists. split; [vm_compute; reflexivity|]. split; reflexivity.
Qed.

End FormFacts.

(** ** Transactions list *)

Module TransactionsListFacts.
Import TransactionsList.

Section Delete.
Context {A : Type}.
Implicit Types (transactions : list (Transaction A)).

Lemma filter_other_ids (id' : string) transactions :
  ~ In id' (map id (filter (fun t => negb (String.eqb (id t) id'))
                      transactions)).
Proof.
  intro Hin. apply in_map_iff in Hin. destruct Hin as (t & Hid & Ht).
  apply filter_In in Ht. destruct Ht as [_ Hne].
  rewrite Hid, String.eqb_refl in Hne. discriminate.
Qed.

(** C9: a confirmed delete sends a delete for the id to the store; the
    transaction leaves the list if and only if the store answers without
    an error, the other transactions staying in place; when the store
    refuses or the call fails, the list is unchanged.  A cancelled delete
    sends nothing. *)
Theorem confirmed_delete_spec (id' description' : string)
  (response : Response unit) transactions :
  let result :=
    confirmDelete id' description' DeleteIt response transactions in
  In (Delete id') (snd result)
  /\ ((exists u, response = Data u) ->
      fst result
      = filter (fun t => negb (String.eqb (id t) id')) transactions)
  /\ (~ (exists u, response = Data u) -> fst result = transactions)
  /\ (In id' (map id transactions) ->
      (~ In id' (map id (fst result)) <-> exists u, response = Data u))
  /\ confirmDelete id' description' Cancel response transactions
     = (transactions, [Alert "Delete Transaction"
                         ("Are you sure you want to delete " ++ quote
                          ++ description' ++ quote ++ "?")]).
Proof.
  cbv zeta. unfold confirmDelete, deleteTransaction.
  destruct response as [u|message|message]; cbn [fst snd].
  - split; [right; now left|]. split; [reflexivity|].
    split; [intro Hno; exfalso; apply Hno; eauto|].
    split; [|reflexivity]. intros _. split; [eauto|].
    intros _. apply filter_other_ids.
  - split; [right; now left|]. split; [intros [u [=]]|].
    split; [reflexivity|]. split; [|reflexivity].
    intro Hin. split; [tauto|]. intros [u [=]].
  - split; [right; now left|]. split; [intros [u [=]]|].
    split; [reflexivity|]. split; [|reflexivity].
    intro Hin. split; [tauto|]. intros [u [=]].
Qed.

End Delete.

End TransactionsListFacts.

(** ** Category breakdown: its entries *)

Section CategoryRows.
Context {A : Type} `{Number A}.

#[local] Abbreviation emptyBucket := (mkCategoryBucket (zero : A) 0).
#[local] Abbreviation addAmount :=
  (fun (sum : A) (t : Transaction A) => add sum (amount t)).
#[local] Abbreviation byAmount :=
  (fun a b : CategorySpending A => sign (sub (cs_amount b) (cs_amount a))).

(** X1: the breakdown has at most 7 entries, of distinct names; each name
    is the category of an expense, and the entry carries the sum of the
    amounts and the number of the expenses of that category. *)
Theorem processCategoryData_rows (transactions : list (Transaction A)) :
  let rows := processCategoryData transactions in
  List.length rows <= 7
  /\ NoDup (map cs_name rows)
  /\ forall r, In r rows ->
       In (cs_name r) (map categoryName (filter isExpense transactions))
       /\ cs_amount r = categorySum transactions (cs_name r)
       /\ cs_count r = categoryCount transactions (cs_name r)
       /\ 1 <= cs_count r.
Proof.
  cbv zeta. split; [|split].
  - rewrite processCategoryData_length. lia.
  - assert (Hnd : NoDup (map cs_name
                           (JS.sort byAmount (categoryRows transactions)))).
    { apply (Permutation_NoDup
               (Permutation_map cs_name
                  (Permutation_sym
                     (JSFacts.sort_perm byAmount (categoryRows transactions))))).
      rewrite categoryRows_names. apply categoryMap_NoDup_any. }
    rewrite processCategoryData_split, map_app in Hnd.
    exact (NoDup_app_remove_r _ _ Hnd).
  - intros r Hr. apply processCategoryData_In_any, categoryRows_row in Hr.
    pose proof (in_map fst _ _ Hr) as Hk. cbn [fst] in Hk.
    apply categoryMap_keys_any in Hk.
    destruct (categoryMap_bucket _ _ _ Hr) as [Hd Hone].
    injection Hd as Ha Hn. rewrite <- Hn in Hone. auto.
Qed.

Lemma colors_NoDup : NoDup colors.
Proof.
  unfold colors. repeat constructor; cbn; intuition discriminate.
Qed.

Lemma categoryRows_colors (l : list (Transaction A)) :
  List.length (categoryMap l) <= 7 ->
  map cs_color (categoryRows l)
  = firstn (List.length (categoryMap l)) colors.
Proof.
  unfold categoryRows, JS.mapi.
  assert (Hgen : forall (m : JS.Map (CategoryBucket A)) (i : nat),
            i + List.length m <= 7 ->
            map cs_color
              (JS.mapi_from
                 (fun '(name, data) index =>
                    mkCategorySpending name (cb_amount data) (cb_count data)
                      (if gtb (categoryTotal l) zero
                       then mul (div (cb_amount data) (categoryTotal l))
                              hundred
                       else zero)
                      (nth (index mod List.length colors) colors EmptyString))
                 i m)
            = firstn (List.length m) (skipn i colors)).
  { induction m as [|[name data] m IH]; intros i Hi; [reflexivity|].
    cbn [JS.mapi_from map cs_color List.length] in *.
    rewrite IH by lia.
    assert (Hcases : i = 0 \/ i = 1 \/ i = 2 \/ i = 3 \/ i = 4 \/ i = 5
                     \/ i = 6) by lia.
    destruct Hcases as [->|[->|[->|[->|[->|[->| ->]]]]]]; reflexivity. }
  intro Hle. now apply (Hgen (categoryMap l) 0).
Qed.

(** X2: when the expenses fall in at most 7 categories, the entries of the
    breakdown have pairwise distinct colors. *)
Theorem processCategoryData_colors (transactions : list (Transaction A))
  (names : list string) :
  (forall t, In t transactions -> isExpense t = true ->
     In (categoryName t) names) ->
  List.length names <= 7 ->
  NoDup (map cs_color (processCategoryData transactions)).
Proof.
  intros Hcover Hlen.
  assert (Hle : List.length (categoryMap transactions) <= 7).
  { apply Nat.le_trans with (List.length names); auto.
    now apply categoryMap_atMost. }
  rewrite processCategoryData_all by assumption.
  apply (Permutation_NoDup
           (Permutation_map cs_color
              (Permutation_sym
                 (JSFacts.sort_perm byAmount (categoryRows transactions))))).
  rewrite categoryRows_colors by assumption.
  pose proof colors_NoDup as Hnd.
  rewrite <- (firstn_skipn (List.length (categoryMap transactions)) colors)
    in Hnd.
  exact (NoDup_app_remove_r _ _ Hnd).
Qed.

End CategoryRows.

(** ** Category breakdown: its order *)

Section DescendingSort.
Local Open Scope Qc_scope.
Context {T : Type}.
Variable g : T -> Qc.

#[local] Abbreviation byDesc := (fun a b : T => sign (sub (g b) (g a))).
#[local] Abbreviation atLeast := (fun a b : T => g b <= g a).

Lemma insert_descending (x : T) (s : list T) :
  StronglySorted atLeast s -> StronglySorted atLeast (JS.insert byDesc x s).
Proof.
  induction 1 as [|y s Hs IH Hy]; cbn [JS.insert].
  - repeat constructor.
  - destruct (Qclt_le_dec (g x) (g y)) as [Hlt|Hle].
    + rewrite (proj2 (QcFacts.sign_sub_Gt _ _) Hlt).
      constructor; [exact IH|].
      rewrite Forall_forall in Hy |- *. intros z Hz.
      apply (Permutation_in _ (JSFacts.insert_perm byDesc x s)) in Hz.
      destruct Hz as [<-|Hz]; [now apply Qclt_le_weak | now apply Hy].
    + pose proof (proj2 (QcFacts.sign_sub_not_Gt _ _) Hle) as Hc.
      assert (Hfirst : StronglySorted atLeast (x :: y :: s)).
      { constructor; [now constructor|].
        constructor; [exact Hle|].
        rewrite Forall_forall in Hy |- *. intros z Hz.
        apply Qcle_trans with (g y); auto. }
      destruct (sign (sub (g y) (g x))); [exact Hfirst..|congruence].
Qed.

Lemma sort_descending (l : list T) :
  StronglySorted atLeast (JS.sort byDesc l).
Proof.
  induction l as [|x l IH]; [constructor|].
  rewrite JSFacts.sort_cons. now apply insert_descending.
Qed.

Lemma StronglySorted_split (R : T -> T -> Prop) (l1 l2 : list T) :
  StronglySorted R (l1 ++ l2) ->
  StronglySorted R l1 /\ forall a b, In a l1 -> In b l2 -> R a b.
Proof.
  induction l1 as [|x l1 IH]; cbn; intro Hs.
  - split; [constructor | intros a b []].
  - inversion Hs as [|? ? Hs' Hx]; subst.
    destruct (IH Hs') as [H1 H12]. rewrite Forall_forall in Hx. split.
    + constructor; auto. rewrite Forall_forall. intros z Hz.
      apply Hx, in_app_iff. auto.
    + intros a b [<-|Ha] Hb; auto. apply Hx, in_app_iff. auto.
Qed.

(** The comparator reads only [g]: sorting commutes with a map that
    keeps it. *)
Lemma sort_map {U : Type} (h : T -> U) (cmp : U -> U -> comparison)
  (l : list T) :
  (forall a b, cmp (h a) (h b) = byDesc a b) ->
  JS.sort cmp (map h l) = map h (JS.sort byDesc l).
Proof.
  intro Hcmp.
  assert (Hins : forall x s,
            JS.insert cmp (h x) (map h s) = map h (JS.insert byDesc x s)).
  { intros x s. induction s as [|y s IH]; cbn [JS.insert map]; auto.
    rewrite Hcmp. destruct (sign (sub (g y) (g x))); cbn [map]; auto.
    now rewrite IH. }
  induction l as [|x l IH]; cbn [map]; auto.
  now rewrite !JSFacts.sort_cons, IH, Hins.
Qed.

End DescendingSort.

Section CategoryOrder.
Local Open Scope Qc_scope.

#[local] Abbreviation txs := (list (Transaction Qc)).
#[local] Abbreviation byAmount :=
  (fun a b : CategorySpending Qc => sign (sub (cs_amount b) (cs_amount a))).

(** X3: the breakdown is in descending order of amount, and a category
    is left out only when 7 categories of at least its sum are kept. *)
Theorem processCategoryData_top (transactions : txs) :
  let rows := processCategoryData transactions in
  StronglySorted (fun a b => cs_amount b <= cs_amount a) rows
  /\ forall c,
       In c (map categoryName (filter isExpense transactions)) ->
       In c (map cs_name rows)
       \/ (List.length rows = 7
           /\ forall r, In r rows -> categorySum transactions c <= cs_amount r).
Proof.
  cbv zeta.
  pose proof (sort_descending cs_amount (categoryRows transactions)) as Hs.
  rewrite (processCategoryData_split transactions) in Hs.
  apply StronglySorted_split in Hs. destruct Hs as [Hkept Hrest].
  split; [exact Hkept|].
  intros c Hc. apply categoryMap_keys_any in Hc.
  rewrite <- categoryRows_names in Hc. apply in_map_iff in Hc.
  destruct Hc as (r0 & Hname & Hin).
  pose proof (categoryRows_row _ _ Hin) as Hrow.
  destruct (categoryMap_bucket _ _ _ Hrow) as [Hd _].
  injection Hd as Ha _. rewrite Hname in Ha.
  apply (JSFacts.sort_In byAmount) in Hin.
  rewrite (processCategoryData_split transactions) in Hin.
  apply in_app_iff in Hin. destruct Hin as [Hin|Hin].
  - left. rewrite <- Hname. now apply in_map.
  - right. split.
    + rewrite processCategoryData_length.
      assert (Hlong : (7 < List.length
                             (JS.sort byAmount (categoryRows transactions)))%nat).
      { destruct (Nat.le_gt_cases
                    (List.length
                       (JS.sort byAmount (categoryRows transactions))) 7)
          as [Hle|Hgt]; auto.
        rewrite skipn_all2 in Hin by assumption. destruct Hin. }
      rewrite JSFacts.sort_length in Hlong.
      unfold categoryRows, JS.mapi in Hlong.
      rewrite mapi_from_length in Hlong. lia.
    + intros r Hr. rewrite <- Ha. exact (Hrest r r0 Hr Hin).
Qed.

Lemma get_map_values {V W : Type} (f : V -> W) (k : string) (m : JS.Map V) :
  JS.get k (map (fun e => (fst e, f (snd e))) m) = option_map f (JS.get k m).
Proof.
  induction m as [|[k' v] m IH]; cbn; auto.
  now destruct (String.eqb k k').
Qed.

Lemma set_map_values {V W : Type} (f : V -> W) (k : string) (v : V)
  (m : JS.Map V) :
  JS.set k (f v) (map (fun e => (fst e, f (snd e))) m)
  = map (fun e => (fst e, f (snd e))) (JS.set k v m).
Proof.
  induction m as [|[k' v'] m IH]; cbn; auto.
  destruct (String.eqb k k'); cbn; congruence.
Qed.

(** The map of [calculateTotalStats] holds the amounts of the map of
    [processCategoryData], key by key and in the same order. *)
Lemma topCategoryMap_categoryMap (l : txs) :
  topCategoryMap l
  = map (fun e => (fst e, cb_amount (snd e))) (categoryMap l).
Proof.
  rewrite topCategoryMap_upsert, categoryMap_upsert.
  change (@nil (string * Qc))
    with (map (fun e : string * CategoryBucket Qc => (fst e, cb_amount (snd e)))
            []) at 1.
  generalize (@nil (string * CategoryBucket Qc)).
  induction (filter isExpense l) as [|t ts IH]; intro m; cbn [fold_left]; auto.
  rewrite <- IH. f_equal. unfold upsert.
  rewrite get_map_values, <- set_map_values. f_equal.
  now destruct (JS.get (categoryName t) m).
Qed.

Lemma map_mapi_from {T U W : Type} (F : T -> nat -> U) (h : U -> W)
  (f : T -> W) :
  (forall e i, h (F e i) = f e) ->
  forall m i, map h (JS.mapi_from F i m) = map f m.
Proof.
  intros Hh m. induction m as [|e m IH]; intro i; cbn; auto.
  now rewrite Hh, IH.
Qed.

Lemma fold_mapi_from {T U : Type} (F : T -> nat -> U) (h : U -> Qc)
  (f : T -> Qc) :
  (forall e i, h (F e i) = f e) ->
  forall m i a,
    fold_left (fun sum r => add sum (h r)) (JS.mapi_from F i m) a
    = fold_left (fun sum e => add sum (f e)) m a.
Proof.
  intros Hh m. induction m as [|e m IH]; intros i a; cbn; auto.
  now rewrite Hh, IH.
Qed.

Lemma topCategoryMap_rows (l : txs) :
  topCategoryMap l
  = map (fun r => (cs_name r, cs_amount r)) (categoryRows l).
Proof.
  rewrite topCategoryMap_categoryMap. unfold categoryRows, JS.mapi.
  symmetry. apply map_mapi_from. now intros [name data] i.
Qed.

(** X4: the top category of the summary is the name of the first entry of
    the breakdown, and ["None"] when the breakdown is empty. *)
Theorem topCategory_first_row (timePeriod : TimePeriod) (transactions : txs) :
  ts_topCategory (calculateTotalStats timePeriod transactions)
  = match processCategoryData transactions with
    | r :: _ => cs_name r
    | [] => "None"%string
    end.
Proof.
  rewrite topCategory_head, topCategoryMap_rows.
  rewrite (sort_map cs_amount (fun r => (cs_name r, cs_amount r)) byAmountDesc)
    by reflexivity.
  unfold processCategoryData, JS.sliceFirst.
  destruct (JS.sort _ (categoryRows transactions)) as [|r s] eqn:Es;
    [reflexivity|].
  cbn [map hd_error option_map fst firstn].
  assert (Hin : In r (categoryRows transactions)).
  { apply (JSFacts.sort_In byAmount). rewrite Es. now left. }
  apply categoryRows_row, (in_map fst), categoryMap_keys_any, in_map_iff in Hin.
  destruct Hin as (t & Ht & _). cbn [fst] in Ht.
  destruct (cs_name r) as [|c n] eqn:En; [|reflexivity].
  now apply categoryName_nonempty in Ht.
Qed.

Lemma list_sum_perm (l l' : list nat) :
  Permutation l l' -> list_sum l = list_sum l'.
Proof.
  unfold list_sum. induction 1; cbn [fold_right]; lia.
Qed.

Lemma count_upsert (m : JS.Map (CategoryBucket Qc)) (t : Transaction Qc) :
  list_sum (map (fun e => cb_count (snd e))
              (upsert categoryName (mkCategoryBucket zero 0) updCategory m t))
  = (list_sum (map (fun e => cb_count (snd e)) m) + 1)%nat.
Proof.
  unfold upsert, list_sum. induction m as [|[k d] m IH]; [reflexivity|].
  cbn [JS.get JS.set].
  destruct (String.eqb (categoryName t) k); cbn [map fold_right snd].
  - cbn. lia.
  - rewrite IH. lia.
Qed.

Lemma count_fold (ts : txs) : forall m,
  list_sum (map (fun e => cb_count (snd e))
              (fold_left
                 (upsert categoryName (mkCategoryBucket zero 0) updCategory)
                 ts m))
  = (list_sum (map (fun e => cb_count (snd e)) m) + List.length ts)%nat.
Proof.
  induction ts as [|t ts IH]; intro m; cbn [fold_left List.length]; [lia|].
  rewrite IH, count_upsert. lia.
Qed.

(** X5: when the expenses fall in at most 7 categories, the amounts of
    the breakdown add up to the total of the expenses and its counts to
    their number. *)
Theorem processCategoryData_adds_up (transactions : txs)
  (names : list string) :
  (forall t, In t transactions -> isExpense t = true ->
     In (categoryName t) names) ->
  (List.length names <= 7)%nat ->
  let rows := processCategoryData transactions in
  sumBy cs_amount rows = sumAmounts (filter isExpense transactions)
  /\ list_sum (map cs_count rows)
     = List.length (filter isExpense transactions).
Proof.
  intros Hcover Hlen rows. subst rows.
  assert (Hle : (List.length (categoryMap transactions) <= 7)%nat).
  { apply Nat.le_trans with (List.length names); auto.
    now apply categoryMap_atMost. }
  rewrite processCategoryData_all by assumption.
  pose proof (JSFacts.sort_perm byAmount (categoryRows transactions)) as Hp.
  split.
  - unfold sumBy. change (@zero Qc Qc_Number) with 0.
    rewrite (fold_add_perm cs_amount _ _ Hp).
    rewrite <- categoryTotal_expenses, categoryTotal_mapTotal.
    unfold categoryRows, JS.mapi.
    apply fold_mapi_from. now intros [name data] i.
  - rewrite (list_sum_perm _ _ (Permutation_map cs_count Hp)).
    assert (Hcounts : map cs_count (categoryRows transactions)
                      = map (fun e => cb_count (snd e))
                          (categoryMap transactions)).
    { unfold categoryRows, JS.mapi. apply map_mapi_from.
      now intros [name data] i. }
    rewrite Hcounts, categoryMap_upsert, count_fold. reflexivity.
Qed.

End CategoryOrder.

(** ** Series and totals *)

Section UpsertTotals.
Local Open Scope Qc_scope.
Context {T V : Type}.
Variable key : T -> string.
Variable init : V.
Variable upd : V -> T -> V.
Variable val : V -> Qc.
Variable inc : T -> Qc.
Hypothesis val_init : val init = 0.
Hypothesis val_upd : forall v t, val (upd v t) = val v + inc t.

#[local] Abbreviation total :=
  (fun m : JS.Map V => fold_left (fun sum e => add sum (val (snd e))) m 0).

Lemma total_upsert (m : JS.Map V) (t : T) :
  total (upsert key init upd m t) = total m + inc t.
Proof.
  unfold upsert. induction m as [|[k v] m IH].
  - cbn. rewrite val_upd, val_init. ring.
  - cbn [JS.get JS.set]. destruct (String.eqb (key t) k).
    + rewrite !(fold_add_cons (fun e : string * V => val (snd e))).
      cbn [snd default]. rewrite val_upd. ring.
    + rewrite !(fold_add_cons (fun e : string * V => val (snd e))), IH. ring.
Qed.

Lemma total_fold (ts : list T) : forall m : JS.Map V,
  total (fold_left (upsert key init upd) ts m)
  = total m + fold_left (fun sum t => add sum (inc t)) ts 0.
Proof.
  induction ts as [|t ts IH]; intro m; cbn [fold_left].
  - cbn. ring.
  - rewrite IH, total_upsert, (fold_add_acc inc ts (add 0 (inc t))).
    cbn. ring.
Qed.

End UpsertTotals.

Section QcFolds.
Local Open Scope Qc_scope.

Lemma fold_add_map {T U : Type} (F : T -> U) (h : U -> Qc) (f : T -> Qc) :
  (forall e, h (F e) = f e) ->
  forall l a,
    fold_left (fun sum r => add sum (h r)) (map F l) a
    = fold_left (fun sum e => add sum (f e)) l a.
Proof.
  intros Hh l. induction l as [|e l IH]; intro a; cbn; auto.
  now rewrite Hh, IH.
Qed.

Lemma fold_add_filter {T : Type} (p : T -> bool) (f : T -> Qc) (l : list T) :
  fold_left (fun sum t => add sum (if p t then f t else 0)) l 0
  = fold_left (fun sum t => add sum (f t)) (filter p l) 0.
Proof.
  induction l as [|t l IH]; [reflexivity|].
  rewrite (fold_add_cons (fun t => if p t then f t else 0)), IH.
  cbn [filter]. destruct (p t).
  - now rewrite (fold_add_cons f).
  - ring.
Qed.

Lemma fold_add_sub {T : Type} (f g : T -> Qc) (l : list T) :
  fold_left (fun sum t => add sum (sub (f t) (g t))) l 0
  = fold_left (fun sum t => add sum (f t)) l 0
    - fold_left (fun sum t => add sum (g t)) l 0.
Proof.
  induction l as [|t l IH]; [cbn; ring|].
  rewrite (fold_add_cons (fun t => sub (f t) (g t))), (fold_add_cons f),
    (fold_add_cons g), IH. cbn. ring.
Qed.

Lemma sliceLast_whole {T : Type} (n : nat) (l : list T) :
  (List.length l <= n)%nat -> JS.sliceLast n l = l.
Proof.
  intro Hle. unfold JS.sliceLast.
  replace (List.length l - n)%nat with 0%nat by lia. reflexivity.
Qed.

Lemma lastByKey_whole {V : Type} (n : nat) (m : JS.Map V) :
  (List.length m <= n)%nat -> Permutation (lastByKey n m) m.
Proof.
  intro Hle. unfold lastByKey.
  rewrite sliceLast_whole by now rewrite JSFacts.sort_length.
  apply JSFacts.sort_perm.
Qed.

End QcFolds.

Section MonthlyTotals.
Local Open Scope Qc_scope.
Variable getFullYear : string -> Z.
Variable getMonth : string -> Z.
Variable monthShort : string -> string.

#[local] Abbreviation txs := (list (Transaction Qc)).
#[local] Abbreviation monthKey := (monthKey getFullYear getMonth).
#[local] Abbreviation monthlyMap := (monthlyMap getFullYear getMonth).
#[local] Abbreviation processMonthlyData :=
  (processMonthlyData getFullYear getMonth monthShort).

Lemma monthlyMap_atMost (l : txs) (months : list string) :
  (forall t, In t l -> In (monthKey t) months) ->
  (List.length (monthlyMap l) <= List.length months)%nat.
Proof.
  intro Hcover. rewrite <- (length_map fst).
  apply NoDup_incl_length; [apply monthlyMap_NoDup|].
  intros k Hk. apply (monthlyMap_keys getFullYear getMonth monthShort) in Hk.
  apply in_map_iff in Hk. destruct Hk as (t & <- & Ht). now apply Hcover.
Qed.

Lemma monthlyMap_income (l : txs) :
  fold_left (fun sum e => add sum (mb_income (snd e))) (monthlyMap l) 0
  = sumAmounts (filter isIncome l).
Proof.
  rewrite monthlyMap_upsert.
  rewrite (total_fold monthKey (mkMonthBucket zero zero) updMonth mb_income
             (fun t => if isIncome t then amount t else 0)).
  - rewrite fold_add_filter. cbn. unfold sumAmounts. cbn. ring.
  - reflexivity.
  - intros v t. unfold updMonth. destruct (isIncome t); cbn; ring.
Qed.

Lemma monthlyMap_expense (l : txs) :
  fold_left (fun sum e => add sum (mb_expense (snd e))) (monthlyMap l) 0
  = sumAmounts (filter isExpense l).
Proof.
  rewrite monthlyMap_upsert.
  rewrite (total_fold monthKey (mkMonthBucket zero zero) updMonth mb_expense
             (fun t => if isExpense t then amount t else 0)).
  - rewrite fold_add_filter. cbn. unfold sumAmounts. cbn. ring.
  - reflexivity.
  - intros v t. rewrite isExpense_negb. unfold updMonth.
    destruct (isIncome t); cbn; ring.
Qed.

(** X6: when the transactions fall in at most 6 months, the incomes of
    the monthly series add up to the total income, its expenses to the
    total of the expenses, and its nets to their difference. *)
Theorem processMonthlyData_adds_up (transactions : txs)
  (months : list string) :
  (forall t, In t transactions -> In (monthKey t) months) ->
  (List.length months <= 6)%nat ->
  let series := processMonthlyData transactions in
  let income := sumAmounts (filter isIncome transactions) in
  let expenses := sumAmounts (filter isExpense transactions) in
  sumBy md_income series = income
  /\ sumBy md_expense series = expenses
  /\ sumBy md_net series = income - expenses.
Proof.
  intros Hcover Hlen. cbv zeta.
  assert (Hp : Permutation (lastByKey 6 (monthlyMap transactions))
                 (monthlyMap transactions)).
  { apply lastByKey_whole.
    apply Nat.le_trans with (List.length months); auto.
    now apply monthlyMap_atMost. }
  change (@zero Qc Qc_Number) with 0.
  assert (Hrows : forall (h : MonthlyData Qc -> Qc)
                         (f : string * MonthBucket Qc -> Qc),
            (forall k d,
               h (mkMonthlyData (monthShort (k ++ "-01")) (mb_income d)
                    (mb_expense d) (sub (mb_income d) (mb_expense d)))
               = f (k, d)) ->
            sumBy h (processMonthlyData transactions)
            = fold_left (fun sum e => add sum (f e))
                (monthlyMap transactions) 0).
  { intros h f Hh. unfold sumBy, processMonthlyData.
    change (@zero Qc Qc_Number) with 0.
    rewrite (fold_add_map _ h f) by (intros [k d]; apply Hh).
    exact (fold_add_perm f _ _ Hp). }
  split; [|split].
  - rewrite (Hrows md_income (fun e => mb_income (snd e))) by reflexivity.
    apply monthlyMap_income.
  - rewrite (Hrows md_expense (fun e => mb_expense (snd e))) by reflexivity.
    apply monthlyMap_expense.
  - rewrite (Hrows md_net
               (fun e => sub (mb_income (snd e)) (mb_expense (snd e))))
      by reflexivity.
    rewrite (fold_add_sub (fun e : string * MonthBucket Qc => mb_income (snd e))
               (fun e => mb_expense (snd e))).
    now rewrite monthlyMap_income, monthlyMap_expense.
Qed.

End MonthlyTotals.

Section DailyTotals.
Local Open Scope Qc_scope.

#[local] Abbreviation txs := (list (Transaction Qc)).

Lemma dailyMap_atMost (l : txs) (days : list string) :
  (forall t, In t l -> isExpense t = true -> In (dateKey t) days) ->
  (List.length (dailyMap l) <= List.length days)%nat.
Proof.
  intro Hcover. rewrite <- (length_map fst).
  apply NoDup_incl_length; [apply dailyMap_NoDup|].
  intros k Hk. apply dailyMap_keys, in_map_iff in Hk.
  destruct Hk as (t & <- & Ht). apply filter_In in Ht. now apply Hcover.
Qed.

Lemma dailyMap_total (l : txs) :
  fold_left (fun sum e => add sum (snd e)) (dailyMap l) 0
  = sumAmounts (filter isExpense l).
Proof.
  rewrite (dailyMap_upsert l QcFacts.truthy_false).
  rewrite (total_fold dateKey zero
             (fun (sum : Qc) (t : Transaction Qc) => add sum (amount t))
             (fun v => v) amount).
  - unfold sumAmounts. cbn. ring.
  - reflexivity.
  - reflexivity.
Qed.

(** X7: when the expenses fall on at most 30 days, the amounts of the
    daily series add up to the total of the expenses. *)
Theorem processDailyData_adds_up (transactions : txs) (days : list string) :
  (forall t, In t transactions -> isExpense t = true ->
     In (dateKey t) days) ->
  (List.length days <= 30)%nat ->
  sumBy dd_amount (processDailyData transactions)
  = sumAmounts (filter isExpense transactions).
Proof.
  intros Hcover Hlen.
  assert (Hp : Permutation (lastByKey 30 (dailyMap transactions))
                 (dailyMap transactions)).
  { apply lastByKey_whole.
    apply Nat.le_trans with (List.length days); auto.
    now apply dailyMap_atMost. }
  unfold sumBy, processDailyData. change (@zero Qc Qc_Number) with 0.
  rewrite (fold_add_map _ dd_amount (fun e : string * Qc => snd e))
    by now intros [k v].
  rewrite <- dailyMap_total.
  exact (fold_add_perm (fun e : string * Qc => snd e) _ _ Hp).
Qed.

End DailyTotals.

(** ** Empty series *)

Section EmptySeries.
Context {A : Type} `{Number A}.
Variable getFullYear : string -> Z.
Variable getMonth : string -> Z.
Variable monthShort : string -> string.

Lemma keys_nil_iff {V T : Type} (m : JS.Map V) (key : T -> string)
  (src : list T) :
  (forall k, In k (map fst m) <-> In k (map key src)) ->
  (m = [] <-> src = []).
Proof.
  intro Hkeys. split; intro E.
  - destruct src as [|t src]; auto.
    assert (Hin : In (key t) (map fst m)) by (apply Hkeys; now left).
    rewrite E in Hin. destruct Hin.
  - destruct m as [|[k v] m]; auto.
    assert (Hin : In k (map key src)) by (apply Hkeys; now left).
    rewrite E in Hin. destruct Hin.
Qed.

Lemma lastByKey_nil_iff {V : Type} (n : nat) (m : JS.Map V) :
  0 < n -> (lastByKey n m = [] <-> m = []).
Proof.
  intro Hn. pose proof (JSFacts.lastByKey_length n m) as Hlen.
  split; intro E.
  - rewrite E in Hlen. cbn in Hlen. destruct m; [reflexivity|].
    cbn in Hlen. lia.
  - apply length_zero_iff_nil. rewrite Hlen, E. apply Nat.min_0_r.
Qed.

Lemma map_nil_iff {T U : Type} (f : T -> U) (l : list T) :
  map f l = [] <-> l = [].
Proof. destruct l; cbn; split; congruence. Qed.

(** X8: the monthly series is empty exactly when there is no transaction,
    and the daily series and the category breakdown exactly when there is
    no expense. *)
Theorem series_empty (transactions : list (Transaction A)) :
  (processMonthlyData getFullYear getMonth monthShort transactions = []
   <-> transactions = [])
  /\ (processDailyData transactions = []
      <-> filter isExpense transactions = [])
  /\ (processCategoryData transactions = []
      <-> filter isExpense transactions = []).
Proof.
  split; [|split].
  - unfold processMonthlyData. rewrite map_nil_iff.
    rewrite monthlySorted_lastByKey, lastByKey_nil_iff by lia.
    apply (keys_nil_iff _ (monthKey getFullYear getMonth)).
    apply (monthlyMap_keys getFullYear getMonth monthShort).
  - unfold processDailyData. rewrite map_nil_iff.
    change (JS.sliceLast 30 (JS.sort _ (dailyMap transactions)))
      with (lastByKey 30 (dailyMap transactions)).
    rewrite lastByKey_nil_iff by lia.
    apply (keys_nil_iff _ dateKey). apply dailyMap_keys.
  - rewrite <- (keys_nil_iff (categoryMap transactions) categoryName
                  (filter isExpense transactions))
      by apply categoryMap_keys_any.
    pose proof (processCategoryData_length transactions) as Hlen.
    split; intro E.
    + rewrite E in Hlen. cbn in Hlen.
      destruct (categoryMap transactions); [reflexivity|]. cbn in Hlen. lia.
    + apply length_zero_iff_nil. rewrite Hlen, E. reflexivity.
Qed.

End EmptySeries.

(** ** Analytics screen: what is shown *)

Section AnalyticsSession.
Context {A : Type} `{Number A}.
Variable getFullYear : string -> Z.
Variable getMonth : string -> Z.
Variable monthShort : string -> string.

#[local] Abbreviation fetchAnalyticsData :=
  (Analytics.fetchAnalyticsData getFullYear getMonth monthShort).
#[local] Abbreviation pressPeriod :=
  (Analytics.pressPeriod getFullYear getMonth monthShort).
#[local] Abbreviation presses :=
  (Analytics.presses getFullYear getMonth monthShort).
#[local] Abbreviation session :=
  (Analytics.session getFullYear getMonth monthShort).

#[local] Abbreviation coherent :=
  (Analytics.coherent getFullYear getMonth monthShort).

Lemma fetchAnalyticsData_coherent (now : Z)
  (response : Response (list (Transaction A))) (st : Analytics.State A) :
  coherent (Analytics.setLoading false st) ->
  coherent (fst (fetchAnalyticsData now response st)).
Proof.
  intro Hst. unfold Analytics.fetchAnalyticsData.
  destruct response as [data|message|message]; cbn [fst].
  - unfold Analytics.coherent. cbn. repeat split. right. eauto.
  - exact Hst.
  - exact Hst.
Qed.

Lemma pressPeriod_coherent (period : TimePeriod) (now : Z)
  (response : Response (list (Transaction A))) (st : Analytics.State A) :
  coherent st -> coherent (fst (pressPeriod period now response st)).
Proof.
  intro Hst. unfold Analytics.pressPeriod.
  destruct (TimePeriod_eqb period (Analytics.timePeriod st)); [exact Hst|].
  apply fetchAnalyticsData_coherent.
  destruct Hst as (_ & Hm & Hc & Hd & Ht). now repeat split.
Qed.

(** X10: whatever the store answers to the fetches, after mounting and
    after every press on the period selector the screen is not loading,
    its three charts are computed from the transactions it holds, and so
    is its summary once it holds any: a failed fetch leaves transactions,
    charts and summary as they were. *)
Theorem analytics_session_coherent (now : Z)
  (response : Response (list (Transaction A)))
  (events : list (TimePeriod * Z * Response (list (Transaction A)))) :
  coherent (session now response events)
  /\ forall (st : Analytics.State A) period message,
       let st' := fst (pressPeriod period now (Error message) st) in
       Analytics.transactions st' = Analytics.transactions st
       /\ Analytics.monthlyData st' = Analytics.monthlyData st
       /\ Analytics.categorySpending st' = Analytics.categorySpending st
       /\ Analytics.dailySpending st' = Analytics.dailySpending st
       /\ Analytics.totalStats st' = Analytics.totalStats st.
Proof.
  split.
  - unfold Analytics.session.
    assert (Hstart : coherent
                       (fst (fetchAnalyticsData now response
                               Analytics.initialState))).
    { apply fetchAnalyticsData_coherent.
      unfold Analytics.coherent. cbn. repeat split. now left. }
    revert Hstart.
    generalize (fst (fetchAnalyticsData now response Analytics.initialState)).
    induction events as [|[[period now'] response'] events IH]; intros st Hst;
      cbn [Analytics.presses]; auto.
    apply IH. now apply pressPeriod_coherent.
  - intros st period message. cbv zeta. unfold Analytics.pressPeriod.
    destruct (TimePeriod_eqb period (Analytics.timePeriod st)); cbn; auto.
Qed.

End AnalyticsSession.

(** ** Add/edit form: what every session keeps *)

Module FormSessionFacts.
Import Form FormSession.

Section Sessions.
Variable params : Params.
Variable remote : Remote.
Variable parseFloat : string -> float.
Variable trim : string -> string.
Variable now : string.

#[local] Abbreviation matchSubcategory := (matchSubcategory params).
#[local] Abbreviation fetchSubcategories := (fetchSubcategories params remote).
#[local] Abbreviation onSelectedCategory := (onSelectedCategory params remote).
#[local] Abbreviation changeSelectedCategory :=
  (changeSelectedCategory params remote).
#[local] Abbreviation matchCategory := (matchCategory params remote).
#[local] Abbreviation fetchCategories := (fetchCategories params remote).
#[local] Abbreviation initializeForm := (initializeForm params remote now).
#[local] Abbreviation resetForm := (resetForm params remote now).
#[local] Abbreviation validateForm := (validateForm parseFloat trim).
#[local] Abbreviation transactionData := (transactionData parseFloat trim).
#[local] Abbreviation handleSubmit := (handleSubmit params parseFloat trim).
#[local] Abbreviation successOk := (successOk params remote now).
#[local] Abbreviation step := (step params remote parseFloat trim now).
#[local] Abbreviation run := (run params remote parseFloat trim now).
#[local] Abbreviation session := (session params remote parseFloat trim now).

(** What holds at the start and after every event offered holds after
    every session. *)
Lemma run_invariant (P : State -> list Effect -> Prop) :
  (forall st effects e,
     P st effects -> offered st effects e = true ->
     P (fst (step st e)) (effects ++ snd (step st e))) ->
  forall events st effects st' effects',
    P st effects -> run st effects events = Some (st', effects') ->
    P st' effects'.
Proof.
  intro Hstep. induction events as [|e events IH];
    intros st effects st' effects' HP Hrun; cbn [Form.run] in Hrun.
  - now injection Hrun as <- <-.
  - destruct (offered st effects e) eqn:Ho; [|discriminate].
    specialize (Hstep st effects e HP Ho).
    destruct (step st e) as [st1 effs1]. cbn [fst snd] in Hstep.
    exact (IH _ _ _ _ Hstep Hrun).
Qed.

Lemma matchSubcategory_fields (st : State) :
  selectedCategory (matchSubcategory st) = selectedCategory st
  /\ subcategories (matchSubcategory st) = subcategories st
  /\ categories (matchSubcategory st) = categories st
  /\ amount (matchSubcategory st) = amount st
  /\ description (matchSubcategory st) = description st
  /\ type (matchSubcategory st) = type st.
Proof.
  unfold Form.matchSubcategory.
  destruct (isEditMode params && _ && _); [|now repeat split].
  destruct (find _ (subcategories st)); now repeat split.
Qed.

(** What a change of category does, case by case. *)
Lemma changeSelectedCategory_cases (v : string) (st : State) :
  let st' := fst (changeSelectedCategory v st) in
  let effects := snd (changeSelectedCategory v st) in
  selectedCategory st' = v
  /\ categories st' = categories st
  /\ amount st' = amount st
  /\ description st' = description st
  /\ type st' = type st
  /\ (forall e, In e effects -> isWrite e = false)
  /\ ((v = selectedCategory st /\ st' = st)
      \/ (v = EmptyString /\ subcategories st' = []
          /\ selectedSubcategory st' = EmptyString)
      \/ (v <> EmptyString
          /\ ((exists data, subcategoriesOf remote v = Data data
                 /\ subcategories st' = data)
              \/ subcategories st' = []))).
Proof.
  cbv zeta. unfold Form.changeSelectedCategory.
  destruct (String.eqb v (selectedCategory st)) eqn:E.
  - apply String.eqb_eq in E. cbn [fst snd].
    repeat split; auto. intros e [].
  - unfold Form.onSelectedCategory. cbn [selectedCategory setSelectedCategory].
    destruct v as [|c v]; cbn [nonEmpty].
    + cbn. repeat split; auto. intros e [].
    + unfold Form.fetchSubcategories.
      destruct (subcategoriesOf remote (String c v)) as [data|m|m] eqn:Er;
        cbn [fst snd].
      * destruct (matchSubcategory_fields
                    (setSubcategories data
                       (setSelectedCategory (String c v) st)))
          as (H1 & H2 & H3 & H4 & H5 & H6).
        rewrite H1, H2, H3, H4, H5, H6. cbn.
        repeat split; auto.
        -- intros e [<-|[]]. reflexivity.
        -- right. right. split; [discriminate|]. left. eauto.
      * cbn. repeat split; auto.
        -- intros e [<-|[<-|[]]]; reflexivity.
        -- right. right. split; [discriminate|]. now right.
      * cbn. repeat split; auto.
        -- intros e [<-|[<-|[]]]; reflexivity.
        -- right. right. split; [discriminate|]. now right.
Qed.

Lemma handleSubmit_fields (response : Response unit) (st : State) :
  let st' := fst (handleSubmit response st) in
  selectedCategory st' = selectedCategory st
  /\ subcategories st' = subcategories st
  /\ selectedSubcategory st' = selectedSubcategory st
  /\ categories st' = categories st.
Proof.
  cbv zeta. unfold Form.handleSubmit.
  destruct (validateForm st); now repeat split.
Qed.

(** Mounting selects at most what [changeSelectedCategory] selects, from
    the initial state with the categories loaded. *)
Lemma initializeForm_cases :
  let st := fst initializeForm in
  let effects := snd initializeForm in
  categories st = loaded remote
  /\ (forall e, In e effects -> isWrite e = false)
  /\ ((selectedCategory st = EmptyString /\ subcategories st = []
       /\ selectedSubcategory st = EmptyString)
      \/ exists cat st0,
           In cat (loaded remote)
           /\ selectedCategory st0 = EmptyString
           /\ subcategories st0 = []
           /\ selectedSubcategory st0 = EmptyString
           /\ selectedCategory st
              = selectedCategory (fst (changeSelectedCategory (cat_id cat) st0))
           /\ subcategories st
              = subcategories (fst (changeSelectedCategory (cat_id cat) st0))
           /\ selectedSubcategory st
              = selectedSubcategory
                  (fst (changeSelectedCategory (cat_id cat) st0))).
Proof.
  cbv zeta. unfold Form.initializeForm, Form.fetchCategories, loaded.
  destruct (categoriesTable remote) as [data|m|m].
  - unfold Form.matchCategory.
    cbn [categories setCategories Form.initialState].
    destruct (isEditMode params && negb (List.length data =? 0)
              && nonEmpty (categoryName params)) eqn:Ec.
    + destruct (find _ data) as [cat|] eqn:Ef.
      * apply find_some in Ef. destruct Ef as [Hin _].
        destruct (changeSelectedCategory_cases (cat_id cat)
                    (setCategories data (Form.initialState now)))
          as (_ & Hcats & _ & _ & _ & Hw & _).
        destruct (changeSelectedCategory (cat_id cat)
                    (setCategories data (Form.initialState now)))
          as [st1 effs1] eqn:Echange.
        cbn [fst snd] in Hcats, Hw.
        assert (Hsame :
                  fst (Form.changeSelectedCategory params remote (cat_id cat)
                         (setCategories data (Form.initialState now))) = st1)
          by now rewrite Echange.
        destruct (isEditMode params && nonEmpty (p_amount params));
          cbn [fst snd categories setDate setType setDescription setAmount
                 selectedCategory subcategories selectedSubcategory].
        -- split; [exact Hcats|]. split.
           ++ intros e [<-|He]; [reflexivity | now apply Hw].
           ++ right. exists cat, (setCategories data (Form.initialState now)).
              rewrite Hsame. now repeat split.
        -- split; [exact Hcats|]. split.
           ++ intros e [<-|He]; [reflexivity | now apply Hw].
           ++ right. exists cat, (setCategories data (Form.initialState now)).
              rewrite Hsame. now repeat split.
      * destruct (isEditMode params && nonEmpty (p_amount params)); cbn;
          (split; [reflexivity|]); (split; [intros e [<-|[]]; reflexivity|]);
          left; now repeat split.
    + destruct (isEditMode params && nonEmpty (p_amount params)); cbn;
        (split; [reflexivity|]); (split; [intros e [<-|[]]; reflexivity|]);
        left; now repeat split.
  - destruct (isEditMode params && nonEmpty (p_amount params)); cbn;
      (split; [reflexivity|]);
      (split; [intros e [<-|[<-|[]]]; reflexivity|]);
      left; now repeat split.
  - destruct (isEditMode params && nonEmpty (p_amount params)); cbn;
      (split; [reflexivity|]);
      (split; [intros e [<-|[<-|[]]]; reflexivity|]);
      left; now repeat split.
Qed.

(** *** With no category, no subcategory *)

#[local] Abbreviation bare :=
  (fun st : State =>
     selectedCategory st = EmptyString ->
     subcategories st = [] /\ selectedSubcategory st = EmptyString).

Lemma changeSelectedCategory_bare (v : string) (st : State) :
  bare st -> bare (fst (changeSelectedCategory v st)).
Proof.
  intros Hst Hempty.
  destruct (changeSelectedCategory_cases v st)
    as (Hsel & _ & _ & _ & _ & _ & Hc).
  rewrite Hsel in Hempty.
  destruct Hc as [[Hv ->]|[(_ & H1 & H2)|[Hne _]]]; auto.
  - apply Hst. now rewrite <- Hv.
  - congruence.
Qed.

Lemma resetForm_bare (st : State) : bare st -> bare (fst (resetForm st)).
Proof.
  intro Hst. unfold Form.resetForm. apply changeSelectedCategory_bare.
  cbn. intro Hempty. split; [now apply Hst | reflexivity].
Qed.

Lemma step_bare (st : State) (effects : list Effect) (e : Event) :
  bare st -> offered st effects e = true -> bare (fst (step st e)).
Proof.
  intros Hst Ho. destruct e; cbn [Form.step fst]; try exact Hst.
  - now apply changeSelectedCategory_bare.
  - (* a subcategory is offered only from a list that is not empty *)
    cbn. intro Hempty. cbn [offered] in Ho.
    destruct (Hst Hempty) as [Hnil _]. rewrite Hnil in Ho. discriminate.
  - destruct (handleSubmit_fields response st) as (H1 & H2 & H3 & _).
    intro Hempty. rewrite H1 in Hempty. rewrite H2, H3. now apply Hst.
  - unfold Form.successOk. destruct (isEditMode params); [exact Hst|].
    now apply resetForm_bare.
Qed.

(** *** The subcategories listed are the category's *)

#[local] Abbreviation children :=
  (fun st : State =>
     forall sub, In sub (subcategories st) ->
       sub_category_id sub = selectedCategory st).

Lemma changeSelectedCategory_children (v : string) (st : State) :
  faithful remote -> children st ->
  children (fst (changeSelectedCategory v st)).
Proof.
  intros Hremote Hst sub Hin.
  destruct (changeSelectedCategory_cases v st)
    as (Hsel & _ & _ & _ & _ & _ & Hc).
  rewrite Hsel.
  destruct Hc as [[Hv E]|[(_ & Hnil & _)|(_ & [(data & Hd & E)|Hnil])]].
  - rewrite E in Hin. rewrite Hv. now apply Hst.
  - rewrite Hnil in Hin. destruct Hin.
  - rewrite E in Hin. exact (Hremote v data Hd sub Hin).
  - rewrite Hnil in Hin. destruct Hin.
Qed.

Lemma step_children (st : State) (e : Event) :
  faithful remote -> children st -> children (fst (step st e)).
Proof.
  intros Hremote Hst. destruct e; cbn [Form.step fst]; try exact Hst.
  - now apply changeSelectedCategory_children.
  - destruct (handleSubmit_fields response st) as (H1 & H2 & _).
    intros sub Hin. rewrite H1. rewrite H2 in Hin. now apply Hst.
  - unfold Form.successOk. destruct (isEditMode params); [exact Hst|].
    unfold Form.resetForm. now apply changeSelectedCategory_children.
Qed.

(** *** What is written names a category of the store *)

#[local] Abbreviation listed :=
  (fun categoryId : string =>
     exists cat, In cat (loaded remote) /\ cat_id cat = categoryId).

#[local] Abbreviation sound :=
  (fun (st : State) (effects : list Effect) =>
     categories st = loaded remote
     /\ (selectedCategory st <> EmptyString -> listed (selectedCategory st))
     /\ forall e, In e effects ->
          match e with
          | Insert data | Update _ data => listed (td_category_id data)
          | _ => True
          end).

Lemma not_write_sound (e : Effect) :
  isWrite e = false ->
  match e with
  | Insert data | Update _ data => listed (td_category_id data)
  | _ => True
  end.
Proof. destruct e; cbn; auto; discriminate. Qed.

Lemma step_sound (st : State) (effects : list Effect) (e : Event) :
  sound st effects -> offered st effects e = true ->
  sound (fst (step st e)) (effects ++ snd (step st e)).
Proof.
  intros (Hcats & Hsel & Hw) Ho.
  assert (Hold : forall x effs,
            (forall y, In y effs ->
               match y with
               | Insert data | Update _ data => listed (td_category_id data)
               | _ => True
               end) ->
            In x (effects ++ effs) ->
            match x with
            | Insert data | Update _ data => listed (td_category_id data)
            | _ => True
            end).
  { intros x effs Hnew Hx. apply in_app_iff in Hx.
    destruct Hx; [now apply Hw | now apply Hnew]. }
  destruct e; cbn [Form.step fst snd];
    try (split; [exact Hcats|split; [exact Hsel|]];
         intros x Hx; apply (Hold x []); [intros y []|exact Hx]).
  - (* a category is picked among those listed *)
    destruct (changeSelectedCategory_cases v st)
      as (H1 & H2 & _ & _ & _ & Hnw & _).
    split; [congruence|]. split.
    + rewrite H1. intro Hv. cbn [offered] in Ho.
      apply orb_prop in Ho. destruct Ho as [Ho|Ho].
      * destruct v; [congruence | discriminate].
      * apply existsb_exists in Ho. destruct Ho as (cat & Hin & Hid).
        apply filter_In in Hin. destruct Hin as [Hin _].
        apply String.eqb_eq in Hid. exists cat. rewrite <- Hcats. auto.
    + intros x Hx. apply (Hold x _ (fun y Hy => not_write_sound y (Hnw y Hy))).
      exact Hx.
  - (* what is submitted carries the selected category *)
    destruct (handleSubmit_fields response st) as (H1 & _ & _ & H4).
    split; [congruence|]. split; [now rewrite H1|].
    intros x Hx. apply (Hold x (snd (handleSubmit response st))); auto.
    intros y Hy. unfold Form.handleSubmit in Hy.
    destruct (validateForm st) as [alert|] eqn:Ev.
    + destruct (FormFacts.validateForm_alert _ _ _ _ Ev) as (t & m & ->).
      destruct Hy as [<-|[]]. exact I.
    + apply (FormFacts.validateForm_None parseFloat trim) in Ev.
      destruct Ev as (_ & _ & _ & Hc & _).
      cbn [snd] in Hy. destruct Hy as [<-|[<-|[]]].
      * destruct (isEditMode params); cbn; now apply Hsel.
      * now destruct response.
  - unfold Form.successOk. destruct (isEditMode params); cbn [fst snd].
    + split; [exact Hcats|]. split; [exact Hsel|].
      intros x Hx. apply (Hold x [RouterBack]); auto.
      intros y [<-|[]]. exact I.
    + unfold Form.resetForm.
      destruct (changeSelectedCategory_cases EmptyString
                  (setDate now
                     (setSelectedSubcategory EmptyString
                        (setType expense
                           (setDescription EmptyString
                              (setAmount EmptyString st))))))
        as (H1 & H2 & _ & _ & _ & Hnw & _).
      split; [now rewrite H2|]. split; [now rewrite H1|].
      intros x Hx. apply (Hold x _ (fun y Hy => not_write_sound y (Hnw y Hy))).
      exact Hx.
Qed.

(** X13: in every session, every insert and every update sent carries as
    [category_id] the id of a category the store listed when the form was
    mounted; when the store did not list any, nothing is written. *)
Theorem written_category_is_listed (events : list Event) (st : State)
  (effects : list Effect) :
  session events = Some (st, effects) ->
  (forall e, In e effects ->
     match e with
     | Insert data | Update _ data =>
         exists cat, In cat (loaded remote)
                     /\ cat_id cat = td_category_id data
     | _ => True
     end)
  /\ (loaded remote = [] -> forall e, In e effects -> isWrite e = false).
Proof.
  unfold Form.session.
  destruct initializeForm as [st0 effs0] eqn:Einit. intro Hrun.
  assert (Hsound : sound st effects).
  { apply (run_invariant sound step_sound events st0 effs0 st effects);
      [|exact Hrun].
    pose proof initializeForm_cases as Hinit. cbv zeta in Hinit.
    rewrite Einit in Hinit. cbn [fst snd] in Hinit.
    destruct Hinit as (Hcats & Hnw & Hsel).
    split; [exact Hcats|]. split.
    - destruct Hsel as [(H1 & _)|Hcat]; [congruence|].
      destruct Hcat as (cat & st1 & Hin & _ & _ & _ & Hs & _).
      destruct (changeSelectedCategory_cases (cat_id cat) st1) as (H1 & _).
      intros _. exists cat. split; [exact Hin|]. now rewrite Hs, H1.
    - intros y Hy. exact (not_write_sound y (Hnw y Hy)). }
  destruct Hsound as (_ & _ & Hw). split; [exact Hw|].
  intros Hnone e He. specialize (Hw e He).
  destruct e; auto; destruct Hw as (cat & Hin & _);
    rewrite Hnone in Hin; destruct Hin.
Qed.

(** *** Submitting *)

(** X15: when a transaction has been added and [OK] pressed, the form is
    blank again: amount, description, category and subcategory are empty,
    and a further submission is refused for its amount without a write. *)
Theorem resubmission_after_add_refused (response : Response unit)
  (st : State) :
  isEditMode params = false ->
  let st' := fst (successOk st) in
  amount st' = EmptyString
  /\ description st' = EmptyString
  /\ selectedCategory st' = EmptyString
  /\ selectedSubcategory st' = EmptyString
  /\ handleSubmit response st'
     = (st', [Alert "Invalid Input" "Please enter a valid amount"]).
Proof.
  intros Hadd. cbv zeta. unfold Form.successOk. rewrite Hadd.
  unfold Form.resetForm.
  destruct (changeSelectedCategory_cases EmptyString
              (setDate now
                 (setSelectedSubcategory EmptyString
                    (setType expense
                       (setDescription EmptyString
                          (setAmount EmptyString st))))))
    as (Hsel & _ & Ha & Hd & _ & _ & Hc).
  cbn [amount description setDate setSelectedSubcategory setType
         setDescription setAmount] in Ha, Hd.
  repeat split; auto.
  - destruct Hc as [[_ ->]|[(_ & _ & H2)|[Hne _]]]; auto. congruence.
  - unfold Form.handleSubmit, Form.validateForm. now rewrite Ha.
Qed.

End Sessions.

End FormSessionFacts.

Section NonEmpty.

Lemma nonEmpty_of (s : string) : s <> EmptyString -> Form.nonEmpty s = true.
Proof. destruct s; [congruence | reflexivity]. Qed.

End NonEmpty.

(** ** Add/edit form: sessions in which answers arrive in time *)

Module FormAsyncFacts.
Import Form FormSession.

Section Sessions.
Variable params : Params.
Variable remote : Remote.
Variable parseFloat : string -> float.
Variable trim : string -> string.
Variable now : string.

#[local] Abbreviation initializeForm :=
  (FormAsync.initializeForm params remote now).
#[local] Abbreviation offered := FormAsync.offered.
#[local] Abbreviation step :=
  (FormAsync.step params remote parseFloat trim now).
#[local] Abbreviation run := (FormAsync.run params remote parseFloat trim now).
#[local] Abbreviation session :=
  (FormAsync.session params remote parseFloat trim now).
#[local] Abbreviation calmFrom :=
  (FormAsync.calmFrom params remote parseFloat trim now).
#[local] Abbreviation calm :=
  (FormAsync.calm params remote parseFloat trim now).
#[local] Abbreviation subcategoriesArrive :=
  (FormAsync.subcategoriesArrive params remote).

(** No query is under way and [P] holds of the form, or the one query
    under way is for the category selected. *)
#[local] Abbreviation settled P :=
  (fun s : FormAsync.Screen =>
     match FormAsync.queries s with
     | [] => P (FormAsync.form s)
     | [c] => c = selectedCategory (FormAsync.form s) /\ c <> EmptyString
     | _ => False
     end).

Section Invariant.
Variable P : State -> Prop.
Hypothesis Hstart :
  forall st, selectedCategory st = EmptyString -> subcategories st = [] ->
             selectedSubcategory st = EmptyString -> P st.
Hypothesis Huser :
  forall st effects e,
    P st -> Form.offered st effects e = true ->
    P (fst (Form.step params remote parseFloat trim now st e)).
Hypothesis Harrive :
  forall st c, c <> EmptyString -> selectedCategory st = c ->
               P (fst (subcategoriesArrive c st)).

Lemma changeSelectedCategory_settled (v : string) (st : State)
  (effects : list Effect) :
  P st ->
  let '(st', qs, effs) := FormAsync.changeSelectedCategory v st in
  settled P (FormAsync.mkScreen st' ([] ++ qs) (effects ++ effs)).
Proof.
  intro HP. unfold FormAsync.changeSelectedCategory.
  destruct (String.eqb v (selectedCategory st)) eqn:E; [exact HP|].
  unfold FormAsync.onSelectedCategory.
  cbn [selectedCategory setSelectedCategory].
  destruct (nonEmpty v) eqn:Ev; cbn.
  - split; [reflexivity|]. exact (proj1 (FormFacts.nonEmpty_true v) Ev).
  - apply FormFacts.nonEmpty_false in Ev. subst v. now apply Hstart.
Qed.

Lemma step_settled (s : FormAsync.Screen) (e : FormAsync.Event) :
  settled P s -> offered s e = true -> calmFrom s [e] = true ->
  settled P (step s e).
Proof.
  destruct s as [st qs effects]. cbn [FormAsync.queries FormAsync.form].
  intros Hs Ho Hcalm. destruct e as [e|c].
  - (* the user acts: no query is under way *)
    cbn [FormAsync.calmFrom FormAsync.queries] in Hcalm.
    destruct qs as [|q qs]; [|discriminate].
    cbn [FormAsync.offered FormAsync.form FormAsync.effects] in Ho.
    destruct e; cbn [FormAsync.step FormAsync.form FormAsync.queries
                       FormAsync.effects];
      try (match goal with
           | |- context [Form.step ?p ?r ?f ?t ?n ?st ?e] =>
               pose proof (Huser st effects e Hs Ho) as HP;
               destruct (Form.step p r f t n st e) as [st' effs];
               exact HP
           end).
    pose proof (changeSelectedCategory_settled v st effects Hs) as Hc.
    destruct (FormAsync.changeSelectedCategory v st) as [[st' qs'] effs'].
    exact Hc.
  - (* an answer arrives: it is the one awaited *)
    cbn [FormAsync.offered FormAsync.queries] in Ho.
    destruct qs as [|q [|q' qs]]; [discriminate| |destruct Hs].
    destruct Hs as [Hq Hne]. cbn [existsb] in Ho.
    rewrite orb_false_r in Ho. apply String.eqb_eq in Ho. subst c.
    cbn [FormAsync.step FormAsync.form FormAsync.queries FormAsync.effects].
    pose proof (Harrive st q Hne (eq_sym Hq)) as HP.
    destruct (subcategoriesArrive q st) as [st' effs].
    cbn [FormAsync.removeFirst]. rewrite String.eqb_refl. exact HP.
Qed.

Lemma run_settled (events : list FormAsync.Event) :
  forall s s', settled P s -> calmFrom s events = true ->
               run s events = Some s' -> settled P s'.
Proof.
  induction events as [|e events IH]; intros s s' Hs Hcalm Hrun.
  - cbn in Hrun. now injection Hrun as <-.
  - cbn [FormAsync.run] in Hrun.
    destruct (offered s e) eqn:Ho; [|discriminate].
    assert (Hone : calmFrom s [e] = true
                   /\ calmFrom (step s e) events = true).
    { cbn [FormAsync.calmFrom] in Hcalm |- *. rewrite Ho in Hcalm |- *.
      destruct e as [e|c]; [destruct (FormAsync.queries s)|];
        try discriminate; auto. }
    destruct Hone as [Hone Hrest].
    apply (IH (step s e) s'); auto. now apply step_settled.
Qed.

Lemma initializeForm_settled : settled P initializeForm.
Proof.
  unfold FormAsync.initializeForm.
  assert (Hopen : forall st qs effs,
            (qs = [] /\ selectedCategory st = EmptyString
             /\ subcategories st = [] /\ selectedSubcategory st = EmptyString)
            \/ (qs = [selectedCategory st]
                /\ selectedCategory st <> EmptyString) ->
            settled P
              (if isEditMode params && nonEmpty (p_amount params)
               then FormAsync.mkScreen
                      (setDate (if nonEmpty (p_date params)
                                then p_date params else date st)
                         (setType (p_type params)
                            (setDescription (p_description params)
                               (setAmount (p_amount params) st))))
                      qs effs
               else FormAsync.mkScreen st qs effs)).
  { intros st qs effs [(-> & H1 & H2 & H3)|[-> Hne]];
      destruct (isEditMode params && nonEmpty (p_amount params)); cbn;
      auto. }
  destruct (categoriesTable remote) as [data|m|m].
  - unfold FormAsync.matchCategory.
    cbn [categories setCategories initialState].
    destruct (isEditMode params && negb (List.length data =? 0)
              && nonEmpty (categoryName params)).
    + destruct (find _ data) as [cat|].
      * unfold FormAsync.changeSelectedCategory.
        cbn [selectedCategory setCategories initialState].
        destruct (String.eqb (cat_id cat) EmptyString) eqn:E.
        -- apply Hopen. left. now repeat split.
        -- unfold FormAsync.onSelectedCategory.
           cbn [selectedCategory setSelectedCategory].
           destruct (nonEmpty (cat_id cat)) eqn:Ev.
           ++ apply Hopen. right. split; [reflexivity|].
              cbn. exact (proj1 (FormFacts.nonEmpty_true _) Ev).
           ++ apply FormFacts.nonEmpty_false in Ev. rewrite Ev in E.
              discriminate.
      * apply Hopen. left. now repeat split.
    + apply Hopen. left. now repeat split.
  - apply Hopen. left. now repeat split.
  - apply Hopen. left. now repeat split.
Qed.

(** What holds of the form when nothing is selected, is kept by what the
    user does and is brought by the answer for the category selected,
    holds after every session in which the user acts only while no query
    is under way, once the answers are in. *)
Lemma calm_session (events : list FormAsync.Event) (s : FormAsync.Screen) :
  session events = Some s -> calm events = true ->
  FormAsync.queries s = [] -> P (FormAsync.form s).
Proof.
  intros Hrun Hcalm Hq.
  pose proof (run_settled events _ s initializeForm_settled Hcalm Hrun) as Hs.
  cbv beta in Hs. now rewrite Hq in Hs.
Qed.

End Invariant.

Lemma subcategoriesArrive_fields (c : string) (st : State) :
  let st' := fst (subcategoriesArrive c st) in
  selectedCategory st' = selectedCategory st
  /\ ((exists data, subcategoriesOf remote c = Data data
         /\ subcategories st' = data)
      \/ subcategories st' = []).
Proof.
  cbv zeta. unfold FormAsync.subcategoriesArrive.
  destruct (subcategoriesOf remote c) as [data|m|m]; cbn [fst].
  - destruct (FormSessionFacts.matchSubcategory_fields params
                (setSubcategories data st)) as (H1 & H2 & _).
    rewrite H1, H2. cbn. split; [reflexivity|]. left. eauto.
  - cbn. auto.
  - cbn. auto.
Qed.

(** X11: in every session of the form in which the user acts only while
    no query for subcategories is under way, whatever the store answers,
    once the answers are in and while no category is selected the list of
    subcategories is empty and no subcategory is selected. *)
Theorem no_category_no_subcategory (events : list FormAsync.Event)
  (s : FormAsync.Screen) :
  session events = Some s -> calm events = true ->
  FormAsync.queries s = [] ->
  selectedCategory (FormAsync.form s) = EmptyString ->
  subcategories (FormAsync.form s) = []
  /\ selectedSubcategory (FormAsync.form s) = EmptyString.
Proof.
  intros Hrun Hcalm Hq.
  apply (calm_session
           (fun st => selectedCategory st = EmptyString ->
                      subcategories st = []
                      /\ selectedSubcategory st = EmptyString))
    with (events := events); auto.
  - intros st effects e.
    apply (FormSessionFacts.step_bare params remote parseFloat trim now).
  - intros st c Hne Hsel Hempty.
    destruct (subcategoriesArrive_fields c st) as [Hkeep _].
    rewrite Hkeep in Hempty. congruence.
Qed.

(** X12: when the store answers the query for a category's subcategories
    with subcategories of that category, in every session in which the
    user acts only while no query is under way, once the answers are in
    the subcategories listed are children of the selected category, and a
    subcategory then picked from the list is one of them. *)
Theorem subcategories_of_selected_category (events : list FormAsync.Event)
  (s : FormAsync.Screen) :
  faithful remote ->
  session events = Some s -> calm events = true ->
  FormAsync.queries s = [] ->
  (forall sub, In sub (subcategories (FormAsync.form s)) ->
     sub_category_id sub = selectedCategory (FormAsync.form s))
  /\ forall v, v <> EmptyString ->
       offered s (FormAsync.User (PickSubcategory v)) = true ->
       subcategoryBelongs
         (FormAsync.form (step s (FormAsync.User (PickSubcategory v)))).
Proof.
  intros Hremote Hrun Hcalm Hq.
  assert (Hch : forall sub, In sub (subcategories (FormAsync.form s)) ->
            sub_category_id sub = selectedCategory (FormAsync.form s)).
  { apply (calm_session
             (fun st => forall sub, In sub (subcategories st) ->
                          sub_category_id sub = selectedCategory st))
      with (events := events); auto.
    - intros st H1 H2 _ sub Hin. rewrite H2 in Hin. destruct Hin.
    - intros st effects e HP _.
      now apply (FormSessionFacts.step_children params remote parseFloat
                   trim now).
    - intros st c Hne Hsel sub Hin.
      destruct (subcategoriesArrive_fields c st)
        as [Hkeep [(data & Hd & E)|Hnil]].
      + rewrite Hkeep, Hsel. rewrite E in Hin.
        exact (Hremote c data Hd sub Hin).
      + rewrite Hnil in Hin. destruct Hin. }
  split; [exact Hch|].
  intros v Hv Ho _. destruct s as [st qs effects].
  cbn [FormAsync.offered FormAsync.form FormAsync.effects Form.offered] in Ho.
  cbn [FormAsync.step FormAsync.form Form.step].
  cbn [FormAsync.form] in Hch.
  apply andb_prop in Ho. destruct Ho as [_ Ho].
  apply orb_prop in Ho. destruct Ho as [Ho|Ho].
  - destruct v; [congruence | discriminate].
  - apply existsb_exists in Ho. destruct Ho as (sub & Hin & Hid).
    apply String.eqb_eq in Hid. exists sub. cbn. auto.
Qed.

End Sessions.

End FormAsyncFacts.

(** ** Add/edit form: the date sent *)

Module FormDatesFacts.
Import Form FormSession.

Section Submission.
Variable params : Params.
Variable parseFloat : string -> float.
Variable trim : string -> string.
Variable toISOString : string -> option string.

#[local] Abbreviation validateForm := (validateForm parseFloat trim).
#[local] Abbreviation handleSubmit :=
  (FormDates.handleSubmit params parseFloat trim toISOString).

(** X14: a submission sends an insert or an update exactly when the amount
    is not empty and parses to a number greater than 0, a category is
    selected, the trimmed description is not empty and the date held is
    valid; the record sent carries the date as [toISOString] gives it.
    Where that is the text the form's date is given by,
    [Form.handleSubmit] is what the submission does. *)
Theorem submission_writes_iff_valid (response : Response unit) (st : State) :
  ((exists e, In e (snd (handleSubmit response st)) /\ isWrite e = true)
   <-> (amount st <> EmptyString
        /\ isNaN (parseFloat (amount st)) = false
        /\ PrimFloat.leb (parseFloat (amount st)) 0 = false
        /\ selectedCategory st <> EmptyString
        /\ trim (description st) <> EmptyString
        /\ toISOString (date st) <> None))
  /\ (forall e data,
        In e (snd (handleSubmit response st)) ->
        e = Insert data \/ (exists id', e = Update id' data) ->
        toISOString (date st) = Some (td_date data))
  /\ (toISOString (date st) = Some (date st) ->
      handleSubmit response st
      = Form.handleSubmit params parseFloat trim response st).
Proof.
  split; [|split].
  - pose proof (FormFacts.validateForm_None parseFloat trim st) as Hv.
    unfold FormDates.handleSubmit.
    destruct (validateForm st) as [alert|] eqn:Ev; cbn [snd].
    + destruct (FormFacts.validateForm_alert _ _ _ _ Ev) as (t & m & ->).
      split.
      * intros (e & [<-|[]] & He). discriminate.
      * intros (H1 & H2 & H3 & H4 & H5 & _).
        assert (Hnone : Some (Alert t m) = None) by (apply Hv; auto).
        discriminate.
    + destruct (proj1 Hv eq_refl) as (H1 & H2 & H3 & H4 & H5).
      destruct (toISOString (date st)) as [iso|]; cbn [snd].
      * split; [intros _; repeat split; auto; discriminate|]. intros _.
        eexists. split; [now left|]. now destruct (isEditMode params).
      * split.
        -- intros (e & [<-|[]] & He). discriminate.
        -- intros (_ & _ & _ & _ & _ & Hno). congruence.
  - intros e data Hin He. unfold FormDates.handleSubmit in Hin.
    destruct (validateForm st) as [alert|] eqn:Ev; cbn [snd] in Hin.
    + destruct (FormFacts.validateForm_alert _ _ _ _ Ev) as (t & m & ->).
      destruct Hin as [<-|[]]. destruct He as [He|[id' He]]; discriminate.
    + destruct (toISOString (date st)) as [iso|]; cbn [snd] in Hin.
      * destruct Hin as [<-|[<-|[]]].
        -- destruct (isEditMode params);
             destruct He as [He|[id' He]]; try discriminate;
             [injection He as _ <-|injection He as <-]; reflexivity.
        -- destruct response; destruct He as [He|[id' He]]; discriminate.
      * destruct Hin as [<-|[]]. destruct He as [He|[id' He]]; discriminate.
  - intro Hiso. unfold FormDates.handleSubmit, Form.handleSubmit.
    destruct (validateForm st); [reflexivity|]. rewrite Hiso.
    reflexivity.
Qed.

End Submission.

End FormDatesFacts.

(** ** Opening a transaction to edit it *)

Section EditFlow.
Variable toString : float -> string.
Variable remote : Form.Remote.
Variable parseFloat : string -> float.
Variable trim : string -> string.
Variable now : string.

(** X16: a transaction opened from the list is found again in the form.
    When the form is shown, amount (as text), description, kind and date
    are the transaction's, the category selected is the first the store
    lists under the transaction's category name, and the query for its
    subcategories is under way.  When the answer arrives, nothing else
    having been done, the subcategories listed are that category's and the
    subcategory selected is the first of them under the transaction's
    subcategory name, none if there is no such.  What the form then sends,
    once valid, is an update of that transaction, dated as [toISOString]
    gives the transaction's date; where that date does not parse nothing
    is sent. *)
Theorem edit_prefill (t : Transaction float) (cats : list Form.Category)
  (cat : Form.Category) (subs : list Form.Subcategory) :
  let params := ListScreen.editTransaction toString t in
  toString (amount t) <> EmptyString ->
  date t <> EmptyString ->
  Form.categoryName params <> EmptyString ->
  Form.categoriesTable remote = Data cats ->
  find (fun c => String.eqb (Form.cat_name c) (Form.categoryName params)) cats
  = Some cat ->
  Form.cat_id cat <> EmptyString ->
  Form.subcategoriesOf remote (Form.cat_id cat) = Data subs ->
  let opened := FormAsync.initializeForm params remote now in
  let prefilled st :=
    Form.amount st = toString (amount t)
    /\ Form.description st = description t
    /\ Form.type st = type t
    /\ Form.date st = date t
    /\ Form.selectedCategory st = Form.cat_id cat in
  FormAsync.queries opened = [Form.cat_id cat]
  /\ prefilled (FormAsync.form opened)
  /\ exists s,
       FormAsync.run params remote parseFloat trim now opened
         [FormAsync.SubcategoriesArrive (Form.cat_id cat)] = Some s
       /\ FormAsync.queries s = []
       /\ prefilled (FormAsync.form s)
       /\ Form.subcategories (FormAsync.form s) = subs
       /\ Form.selectedSubcategory (FormAsync.form s)
          = (if Form.nonEmpty (Form.subcategoryName params)
             then match find (fun sub =>
                                String.eqb (Form.sub_name sub)
                                  (Form.subcategoryName params)) subs with
                  | Some sub => Form.sub_id sub
                  | None => EmptyString
                  end
             else EmptyString)
       /\ forall (toISOString : string -> option string)
                 (response : Response unit),
            Form.validateForm parseFloat trim (FormAsync.form s) = None ->
            let sent :=
              snd (FormDates.handleSubmit params parseFloat trim toISOString
                     response (FormAsync.form s)) in
            match toISOString (date t) with
            | Some iso =>
                exists shown,
                  sent
                  = [Form.Update (id t)
                       (FormDates.transactionData parseFloat trim iso
                          (FormAsync.form s));
                     shown]
            | None =>
                forall e, In e sent -> FormSession.isWrite e = false
            end.
Proof.
  intros params Hamount Hdate Hname Htable Hfind Hid Hsubs opened prefilled.
  assert (Hopened :
            opened
            = FormAsync.mkScreen
                (Form.setDate (date t)
                   (Form.setType (type t)
                      (Form.setDescription (description t)
                         (Form.setAmount (toString (amount t))
                            (Form.setSelectedCategory (Form.cat_id cat)
                               (Form.setCategories cats
                                  (Form.initialState now)))))))
                [Form.cat_id cat]
                [Form.SelectCategories;
                 Form.SelectSubcategories (Form.cat_id cat)]).
  { subst opened. unfold FormAsync.initializeForm.
    rewrite Htable. unfold FormAsync.matchCategory.
    cbn [Form.categories Form.setCategories Form.initialState].
    assert (Hcats : negb (List.length cats =? 0) = true).
    { destruct cats; [discriminate | reflexivity]. }
    rewrite Hcats, (nonEmpty_of _ Hname), Hfind.
    change (Form.isEditMode params) with true. cbn [andb].
    unfold FormAsync.changeSelectedCategory.
    cbn [Form.selectedCategory Form.setCategories Form.initialState].
    assert (Hneq : String.eqb (Form.cat_id cat) EmptyString = false).
    { apply String.eqb_neq. exact Hid. }
    rewrite Hneq. unfold FormAsync.onSelectedCategory.
    cbn [Form.selectedCategory Form.setSelectedCategory].
    rewrite (nonEmpty_of _ Hid).
    change (Form.p_amount params) with (toString (amount t)).
    change (Form.p_date params) with (date t).
    rewrite (nonEmpty_of _ Hamount), (nonEmpty_of _ Hdate). reflexivity. }
  rewrite Hopened. cbn [FormAsync.queries FormAsync.form].
  split; [reflexivity|]. split; [subst prefilled; now repeat split|].
  cbn [FormAsync.run FormAsync.offered FormAsync.queries existsb].
  rewrite String.eqb_refl. cbn [orb FormAsync.step FormAsync.form].
  unfold FormAsync.subcategoriesArrive. rewrite Hsubs.
  cbn [FormAsync.queries FormAsync.effects FormAsync.removeFirst].
  rewrite String.eqb_refl.
  eexists. split; [reflexivity|]. cbn [FormAsync.queries FormAsync.form].
  split; [reflexivity|].
  set (st0 := Form.setSubcategories subs _).
  destruct (FormSessionFacts.matchSubcategory_fields params st0)
    as (Hsel & Hlist & _ & Ha & Hd & Hty).
  assert (Hsame : Form.date (Form.matchSubcategory params st0) = Form.date st0).
  { unfold Form.matchSubcategory.
    destruct (Form.isEditMode params && _ && _); [|reflexivity].
    now destruct (find _ (Form.subcategories st0)). }
  split.
  { subst prefilled. cbv beta. rewrite Ha, Hd, Hty, Hsame, Hsel.
    now repeat split. }
  split; [rewrite Hlist; reflexivity|].
  assert (Hsub : Form.selectedSubcategory (Form.matchSubcategory params st0)
                 = (if Form.nonEmpty (Form.subcategoryName params)
                    then match find (fun sub =>
                                       String.eqb (Form.sub_name sub)
                                         (Form.subcategoryName params)) subs
                         with
                         | Some sub => Form.sub_id sub
                         | None => EmptyString
                         end
                    else EmptyString)).
  { unfold Form.matchSubcategory.
    change (Form.isEditMode params) with true.
    change (Form.subcategories st0) with subs. cbn [andb].
    destruct (negb (List.length subs =? 0)) eqn:Esubs;
      destruct (Form.nonEmpty (Form.subcategoryName params)) eqn:Ename;
      cbn [andb]; try reflexivity.
    - now destruct (find _ subs).
    - destruct subs; [reflexivity|discriminate]. }
  split; [exact Hsub|].
  intros toISOString response Hvalid.
  unfold FormDates.handleSubmit. rewrite Hvalid, Hsame.
  change (Form.date st0) with (date t).
  destruct (toISOString (date t)) as [iso|]; cbn [snd].
  - change (Form.isEditMode params) with true. cbn iota. eauto.
  - intros e [<-|[]]. reflexivity.
Qed.

End EditFlow.

(** ** Transactions list: deleting and refreshing *)

Section DeleteAndTotals.
Local Open Scope Qc_scope.

#[local] Abbreviation txs := (list (Transaction Qc)).
#[local] Abbreviation others :=
  (fun (id' : string) (t : Transaction Qc) => negb (String.eqb (id t) id')).

(** Removing the one row of an id takes its share off any sum over the
    rows. *)
Lemma filter_others_measure (f : Transaction Qc -> Qc) (t : Transaction Qc)
  (l : txs) :
  NoDup (map id l) -> In t l ->
  fold_left (fun sum x => add sum (f x)) (filter (others (id t)) l) 0
  = fold_left (fun sum x => add sum (f x)) l 0 - f t.
Proof.
  induction l as [|x l IH]; intros Hnd Hin; [destruct Hin|].
  inversion Hnd as [|? ? Hnotin Hnd']; subst.
  cbn [filter]. destruct (String.eqb (id x) (id t)) eqn:E; cbn [negb].
  - apply String.eqb_eq in E.
    assert (Hx : x = t).
    { destruct Hin as [Hx|Hin]; auto.
      exfalso. apply Hnotin. rewrite E. now apply in_map. }
    subst x.
    assert (Hall : filter (others (id t)) l = l).
    { apply forallb_filter_id, forallb_forall. intros y Hy.
      destruct (String.eqb (id y) (id t)) eqn:Ey; auto.
      apply String.eqb_eq in Ey. exfalso. apply Hnotin.
      rewrite <- Ey. now apply in_map. }
    rewrite Hall, (fold_add_cons f). ring.
  - destruct Hin as [Hx|Hin].
    + subst x. rewrite String.eqb_refl in E. discriminate.
    + rewrite !(fold_add_cons f), (IH Hnd' Hin). ring.
Qed.

Lemma getTotalBalance_signed (l : txs) :
  getTotalBalance l
  = fold_left (fun sum x => add sum (ListScreen.signedAmount x)) l 0.
Proof.
  induction l as [|x l IH]; [reflexivity|].
  rewrite getTotalBalance_cons, (fold_add_cons ListScreen.signedAmount), IH.
  reflexivity.
Qed.

(** X17: when the rows have distinct ids, a delete the store accepts
    takes the row's signed amount off the balance, and its amount off the
    total of its kind, the other total staying as it is. *)
Theorem delete_updates_totals (transactions : txs) (t : Transaction Qc)
  (description' : string) :
  NoDup (map id transactions) -> In t transactions ->
  let rest :=
    fst (TransactionsList.confirmDelete (id t) description'
           TransactionsList.DeleteIt (Data tt) transactions) in
  getTotalBalance rest
  = getTotalBalance transactions - ListScreen.signedAmount t
  /\ fst (getTotals rest)
     = fst (getTotals transactions) - (if isIncome t then amount t else 0)
  /\ snd (getTotals rest)
     = snd (getTotals transactions) - (if isExpense t then amount t else 0).
Proof.
  intros Hnd Hin. cbv zeta.
  unfold TransactionsList.confirmDelete, TransactionsList.deleteTransaction.
  cbn [fst]. split; [|split].
  - rewrite !getTotalBalance_signed. now apply filter_others_measure.
  - unfold getTotals, sumAmounts. cbn [fst].
    change (@zero Qc Qc_Number) with 0.
    rewrite <- (fold_add_filter isIncome amount transactions),
      <- (fold_add_filter isIncome amount (filter _ transactions)).
    now apply (filter_others_measure
                 (fun x => if isIncome x then amount x else 0)).
  - unfold getTotals, sumAmounts. cbn [snd].
    change (@zero Qc Qc_Number) with 0.
    rewrite <- (fold_add_filter isExpense amount transactions),
      <- (fold_add_filter isExpense amount (filter _ transactions)).
    now apply (filter_others_measure
                 (fun x => if isExpense x then amount x else 0)).
Qed.

End DeleteAndTotals.

Section ListSession.
Context {A : Type}.

#[local] Abbreviation without :=
  (fun (deleted : list string) (t : Transaction A) =>
     negb (existsb (String.eqb (id t)) deleted)).

Lemma step_without (rows : list (Transaction A)) (deleted : list string)
  (e : ListScreen.Event A) :
  ListScreen.isFetched e = false ->
  exists deleted',
    ListScreen.step (filter (without deleted) rows) e
    = filter (without deleted') rows.
Proof.
  intro Hno. destruct e as [response|index choice response];
    cbn [ListScreen.step].
  - destruct response as [data|m|m]; [discriminate| |];
      exists deleted; reflexivity.
  - destruct (nth_error (filter (without deleted) rows) index) as [item|];
      [|now exists deleted].
    unfold TransactionsList.confirmDelete, TransactionsList.deleteTransaction.
    destruct choice; [now exists deleted|].
    destruct response as [u|m|m]; cbn [fst]; [|now exists deleted..].
    exists (id item :: deleted).
    induction rows as [|x rows IH]; [reflexivity|]. cbn [filter existsb].
    destruct (existsb (String.eqb (id x)) deleted) eqn:Ed; cbn [negb].
    + rewrite orb_true_r. cbn [negb]. exact IH.
    + rewrite orb_false_r. cbn [filter].
      destruct (String.eqb (id x) (id item)); cbn [negb]; now rewrite IH.
Qed.

Lemma run_without (events : list (ListScreen.Event A)) :
  forall (rows : list (Transaction A)) (deleted : list string),
  forallb (fun e => negb (ListScreen.isFetched e)) events = true ->
  exists deleted',
    ListScreen.run (filter (without deleted) rows) events
    = filter (without deleted') rows.
Proof.
  unfold ListScreen.run.
  induction events as [|e events IH]; intros rows deleted Hno;
    cbn [fold_left].
  - now exists deleted.
  - cbn [forallb] in Hno. apply andb_prop in Hno. destruct Hno as [He Hno].
    apply negb_true_iff in He.
    destruct (step_without rows deleted e He) as [deleted' ->].
    now apply IH.
Qed.

(** X18: on the list screen rows come from the store alone and leave by
    id alone: after a fetch the store answers with rows, and any fetches
    that fail, cancelled deletes, refused deletes and accepted deletes
    after it, the list is those rows, in their order, without the rows of
    some ids. *)
Theorem list_session_rows (before after : list (ListScreen.Event A))
  (rows start : list (Transaction A)) :
  forallb (fun e => negb (ListScreen.isFetched e)) after = true ->
  exists deleted : list string,
    ListScreen.run start (before ++ ListScreen.Fetch (Data rows) :: after)
    = filter (fun t => negb (existsb (String.eqb (id t)) deleted)) rows.
Proof.
  intro Hno. unfold ListScreen.run. rewrite fold_left_app. cbn [fold_left].
  cbn [ListScreen.step ListScreen.fetchTransactions fst].
  assert (Hrows : filter (without []) rows = rows).
  { apply forallb_filter_id, forallb_forall. now intros. }
  destruct (run_without after rows [] Hno) as [deleted Hd].
  rewrite Hrows in Hd. exists deleted. exact Hd.
Qed.

End ListSession.

(** ** Modal transaction form *)

Section ModalForm.
Variable parseFloat : string -> float.
Variable toString : float -> string.

#[local] Abbreviation saveTransaction :=
  (TransactionForm.saveTransaction parseFloat).
#[local] Abbreviation onEditData := (TransactionForm.onEditData toString).

(** X19: the modal form does nothing while the title or the amount is
    empty; otherwise it sends its request with [parseFloat] of the amount
    text unchecked, and reports and closes in the same way whether the
    store accepts the write or answers with an error.  Opened on a record
    and saved as it is, it sends an update of that record with the title
    and category of the record. *)
Theorem saveTransaction_spec (editData : option TransactionForm.EditData)
  (st : TransactionForm.State) :
  (forall response,
     saveTransaction editData response st = []
     <-> TransactionForm.title st = EmptyString
         \/ TransactionForm.amount st = EmptyString)
  /\ (TransactionForm.title st <> EmptyString ->
      TransactionForm.amount st <> EmptyString ->
      forall u message,
        saveTransaction editData (Error message) st
        = saveTransaction editData (Data u) st
        /\ exists request,
             saveTransaction editData (Data u) st
             = [request; TransactionForm.Saved; TransactionForm.Close]
             /\ match request with
                | TransactionForm.Update _ row | TransactionForm.Insert row =>
                    TransactionForm.r_amount row
                    = parseFloat (TransactionForm.amount st)
                | _ => False
                end)
  /\ forall e u,
       TransactionForm.ed_title e <> EmptyString ->
       toString (TransactionForm.ed_amount e) <> EmptyString ->
       saveTransaction (Some e) (Data u) (onEditData (Some e))
       = [TransactionForm.Update (TransactionForm.ed_id e)
            (TransactionForm.mkRow (TransactionForm.ed_title e)
               (parseFloat (toString (TransactionForm.ed_amount e)))
               (TransactionForm.ed_category e));
          TransactionForm.Saved; TransactionForm.Close].
Proof.
  unfold TransactionForm.saveTransaction. split; [|split].
  - intro response.
    destruct (TransactionForm.title st) as [|c s];
    destruct (TransactionForm.amount st) as [|c' s']; cbn;
      try (split; [auto | reflexivity]).
    split; [|intros [H|H]; discriminate].
    destruct response; discriminate.
  - intros Ht Ha u message.
    rewrite (nonEmpty_of _ Ht), (nonEmpty_of _ Ha). cbn [negb orb].
    split; [reflexivity|]. eexists. split; [reflexivity|].
    now destruct editData.
  - intros e u Ht Ha. cbn [TransactionForm.onEditData TransactionForm.title
                             TransactionForm.amount TransactionForm.category].
    now rewrite (nonEmpty_of _ Ht), (nonEmpty_of _ Ha).
Qed.

End ModalForm.

(** ** Dashboard: the recent transactions *)

Section Dashboard.
Context {A : Type} `{Number A}.

(** The order in which the store returns the rows: [later a b] when the
    date [a] is not before the date [b]. *)
Variable later : string -> string -> Prop.

(** X20: when the store returns the rows latest first, as the query asks,
    the dashboard shows the first 5 of them, all when there are fewer, and
    no row it leaves out is later than a row it shows. *)
Theorem recentTransactions_latest (transactions : list (Transaction A))
  (stats : DashboardStats A) :
  StronglySorted (fun a b => later (date a) (date b)) transactions ->
  let shown :=
    recentTransactions (fetchDashboardData (Data transactions) stats) in
  List.length shown = Nat.min 5 (List.length transactions)
  /\ exists rest,
       transactions = shown ++ rest
       /\ forall r t, In r shown -> In t rest -> later (date r) (date t).
Proof.
  intros Hsorted shown. subst shown.
  change (recentTransactions (fetchDashboardData (Data transactions) stats))
    with (firstn 5 transactions).
  split; [apply length_firstn|].
  exists (skipn 5 transactions). split.
  - symmetry. apply firstn_skipn.
  - rewrite <- (firstn_skipn 5 transactions) in Hsorted.
    apply StronglySorted_split in Hsorted. apply Hsorted.
Qed.

End Dashboard.

(** ** The statements at concrete inputs *)

Module Witnesses.
Import Samples.

(** The splits [l = pre ++ t :: post] of a list given by its elements. *)
Ltac at_each_split E tac :=
  lazymatch type of E with
  | [] = ?pre ++ _ :: _ => destruct pre; discriminate E
  | _ :: _ = ?pre ++ _ :: _ =>
      let x := fresh "x" in
      let pre' := fresh "pre" in
      destruct pre as [|x pre']; cbn [app] in E;
      [injection E as <- <-; tac
      |injection E as <- E; at_each_split E tac]
  end.

(** The members of a list given by its elements. *)
Ltac at_each_member H :=
  vm_compute in H; repeat (destruct H as [<-|H]); try contradiction.

(** The example of the specification: balance 500 on both screens, and one
    entry in the breakdown. *)
Example salaryAndFood_balance :
  getTotalBalance salaryAndFood = 500%float
  /\ (forall stats,
        totalBalance (fetchDashboardData (Data salaryAndFood) stats)
        = 500%float)
  /\ processCategoryData salaryAndFood
     = [mkCategorySpending "Food" 500%float 2 100%float "#FF6B6B"].
Proof. repeat split; intros; vm_compute; reflexivity. Qed.

Lemma winter_dates (t : Transaction Qc) :
  In t winter ->
  fourDigitYear (utcFullYear (date t)) /\ (0 <= utcMonth (date t) <= 11)%Z.
Proof.
  intros [<-|[<-|[<-|[<-|[]]]]]; vm_compute; repeat split; discriminate.
Defined.

Lemma processMonthlyData_witness :
  StronglySorted
    (fun a b => forall t1 t2, In t1 winter -> In t2 winter ->
       monthKey utcFullYear utcMonth t1 = a ->
       monthKey utcFullYear utcMonth t2 = b ->
       (monthOf utcFullYear utcMonth t1 < monthOf utcFullYear utcMonth t2)%Z)
    (monthlyKeys utcFullYear utcMonth winter).
Proof.
  destruct (processMonthlyData_spec utcFullYear utcMonth monthShort winter)
    as (_ & _ & _ & _ & _ & Hcalendar).
  apply Hcalendar. exact winter_dates.
Defined.

Lemma winter_timestamps (t : Transaction float) :
  In t FloatSamples.winter -> isExpense t = true ->
  isoTimestamp (date t) (utcFullYear (date t)) (utcMonth (date t) + 1)
    (utcDay (date t)).
Proof.
  intros Hin _. unfold isoTimestamp.
  assert (Htime : exists time,
            date t
            = (isoDate (utcFullYear (date t)) (utcMonth (date t) + 1)
                 (utcDay (date t)) ++ "T" ++ time)%string).
  { exists (substring 11 13 (date t)).
    destruct Hin as [<-|[<-|[<-|[<-|[<-|[]]]]]]; vm_compute; reflexivity. }
  destruct Hin as [<-|[<-|[<-|[<-|[<-|[]]]]]];
    (split; [|split; [|split; [|exact Htime]]]);
    vm_compute; split; discriminate.
Defined.

Lemma winter_steady :
  steadyTotals dateKey (filter isExpense FloatSamples.winter).
Proof.
  intros pre t post E.
  change (filter isExpense FloatSamples.winter)
    with [dated "2023-12-30T09:00:00.000Z" expense 40%float;
          dated "2024-01-02T18:45:00.000Z" expense 25.5%float;
          dated "2024-02-11T08:15:00.000Z" expense 0.1%float;
          dated "2024-01-02T21:00:00.000Z" expense 0.2%float] in E.
  at_each_split E
    ltac:(vm_compute; intro Hf; first [reflexivity | discriminate Hf]).
Defined.

Lemma processDailyData_witness :
  processDailyData FloatSamples.winter
  = map (dayRow FloatSamples.winter)
      (map dd_date (processDailyData FloatSamples.winter))
  /\ StronglySorted
       (fun a b => forall t1 t2,
          In t1 FloatSamples.winter -> isExpense t1 = true ->
          In t2 FloatSamples.winter -> isExpense t2 = true ->
          dateKey t1 = a -> dateKey t2 = b ->
          (dayNumber (utcFullYear (date t1)) (utcMonth (date t1) + 1)
             (utcDay (date t1))
           < dayNumber (utcFullYear (date t2)) (utcMonth (date t2) + 1)
               (utcDay (date t2)))%Z)
       (map dd_date (processDailyData FloatSamples.winter)).
Proof.
  destruct (processDailyData_spec FloatSamples.winter)
    as (_ & _ & _ & Hsums & Hcalendar).
  split.
  - apply Hsums. exact winter_steady.
  - apply (Hcalendar (fun t => utcFullYear (date t))
             (fun t => (utcMonth (date t) + 1)%Z)
             (fun t => utcDay (date t))).
    exact winter_timestamps.
Defined.

Lemma savingsRate_witness :
  ts_savingsRate (calculateTotalStats days30 salaryAndFood)
  = 50%float
  /\ ts_savingsRate
       (calculateTotalStats days30 [spend "Food" 5%float])
     = 0%float.
Proof.
  split.
  - pose proof (proj1 (savingsRate_spec days30 salaryAndFood)
                  eq_refl) as Hrate.
    vm_compute in Hrate |- *. exact Hrate.
  - exact (proj2 (savingsRate_spec days30 [spend "Food" 5%float])
             eq_refl eq_refl).
Defined.

Lemma roundedTie_steady :
  steadyTotals categoryName FloatSamples.roundedTie.
Proof.
  intros pre t post E. unfold FloatSamples.roundedTie in E.
  at_each_split E
    ltac:(vm_compute; intro Hf; first [reflexivity | discriminate Hf]).
Defined.

Lemma roundedTie_consistent :
  consistent
    (map (categorySum FloatSamples.roundedTie)
       (map categoryName FloatSamples.roundedTie)).
Proof.
  split.
  - intros a b Ha Hb. at_each_member Ha; at_each_member Hb;
      vm_compute; congruence.
  - intros a b c Ha Hb Hc.
    at_each_member Ha; at_each_member Hb; at_each_member Hc;
      vm_compute; congruence.
Defined.

Lemma roundedTie_agree (a b : float) :
  In a (map (categorySum FloatSamples.roundedTie)
          (map categoryName FloatSamples.roundedTie)) ->
  In b (map (categorySum FloatSamples.roundedTie)
          (map categoryName FloatSamples.roundedTie)) ->
  exceeds b a = gtb b a.
Proof.
  intros Ha Hb. at_each_member Ha; at_each_member Hb;
    vm_compute; reflexivity.
Defined.

Lemma topCategory_witness :
  let top := ts_topCategory (calculateTotalStats days30 FloatSamples.roundedTie) in
  top = "B"%string
  /\ In top (map categoryName FloatSamples.roundedTie)
  /\ (forall c, In c (map categoryName FloatSamples.roundedTie) ->
        exceeds (categorySum FloatSamples.roundedTie c)
          (categorySum FloatSamples.roundedTie top) = false)
  /\ (forall c, In c (map categoryName FloatSamples.roundedTie) ->
        gtb (categorySum FloatSamples.roundedTie c)
          (categorySum FloatSamples.roundedTie top) = false).
Proof.
  destruct (proj1 topCategory_spec float float_Number days30
              FloatSamples.roundedTie) as [_ Hsome].
  destruct Hsome as (Hin & Hmax & _ & Hgt).
  - discriminate.
  - exact roundedTie_steady.
  - exact roundedTie_consistent.
  - split; [reflexivity|]. split; [exact Hin|]. split; [exact Hmax|].
    exact (proj1 (Hgt roundedTie_agree)).
Defined.

Lemma thirds_names (t : Transaction float) :
  In t FloatSamples.thirds -> isExpense t = true ->
  In (categoryName t) ["Food"; "Rent"; "Fun"]%string.
Proof.
  intros [<-|[<-|[<-|[<-|[]]]]] E; vm_compute in E; try discriminate E;
    vm_compute; auto.
Defined.

Lemma thirds_rounded :
  roundedShares floatValue binary64_roundoff
    (categoryAmounts FloatSamples.thirds).
Proof.
  change (categoryAmounts FloatSamples.thirds)
    with [1%float; 1%float; 1%float].
  split; [vm_compute; reflexivity|].
  split; [vm_compute; reflexivity|].
  split; [intros _; vm_compute; reflexivity|].
  split; [|split].
  - intros a Ha. at_each_member Ha; vm_compute; reflexivity.
  - intros pre a post E.
    at_each_split E ltac:(vm_compute; discriminate).
  - intros a Ha. at_each_member Ha; split; vm_compute; discriminate.
Defined.

Lemma categoryPercentages_witness :
  (Qabs (sumOf floatValue
           (map cs_percentage (processCategoryData FloatSamples.thirds))
         - 100)
   <= 2000 * binary64_roundoff)%Q.
Proof.
  destruct (proj1 categoryPercentages_spec float float_Number
              FloatSamples.thirds) as (_ & _ & Hsum).
  apply (Hsum floatValue binary64_roundoff ["Food"; "Rent"; "Fun"]%string).
  - reflexivity.
  - exact thirds_names.
  - cbn. lia.
  - vm_compute. discriminate.
  - vm_compute. discriminate.
  - exact thirds_rounded.
Defined.

Lemma invalid_submission_witness :
  Form.handleSubmit addMode parseFloatInteger trimAscii (Data tt) minusFive
  = (minusFive, [Form.Alert "Invalid Input" "Amount must be greater than 0"])
  /\ Form.noWrite
       (snd (Form.handleSubmit addMode parseFloatInteger trimAscii (Data tt)
               minusFive)).
Proof.
  destruct (FormFacts.invalid_submission_rejected addMode parseFloatInteger
              trimAscii (Data tt) minusFive) as [Hany Hminus].
  split.
  - apply Hminus; reflexivity.
  - apply Hany. right. right. left. reflexivity.
Defined.

Lemma valid_submission_witness :
  Form.td_description (Form.transactionData parseFloatInteger trimAscii lunch)
  = trimAscii (Form.description lunch)
  /\ Form.td_subcategory_id
       (Form.transactionData parseFloatInteger trimAscii lunch) = None.
Proof.
  destruct (FormFacts.valid_submission_record addMode parseFloatInteger
              trimAscii (Data tt) lunch eq_refl)
    as (_ & Hdescription & Hnull & _).
  split; [exact Hdescription | exact (Hnull eq_refl)].
Defined.

Lemma confirmed_delete_witness :
  fst (TransactionsList.confirmDelete "t1" "Lunch" TransactionsList.DeleteIt
         (Error "permission denied") twoRows) = twoRows
  /\ ~ In "t1"%string
         (map id (fst (TransactionsList.confirmDelete "t1" "Lunch"
                         TransactionsList.DeleteIt (Data tt) twoRows))).
Proof.
  split.
  - apply (TransactionsListFacts.confirmed_delete_spec "t1" "Lunch"
             (Error "permission denied") twoRows).
    intros [u Hu]. discriminate.
  - apply (TransactionsListFacts.confirmed_delete_spec "t1" "Lunch"
             (Data tt) twoRows).
    + cbn. auto.
    + eauto.
Defined.

End Witnesses.

(** ** The further statements at concrete inputs *)

Module MoreWitnesses.
Import Samples MoreSamples.

Lemma foodAndRent_names (t : Transaction Qc) :
  In t foodAndRent -> isExpense t = true ->
  In (categoryName t) ["Food"; "Rent"]%string.
Proof.
  intros [<-|[<-|[<-|[<-|[]]]]] E; vm_compute in E; try discriminate E;
    vm_compute; auto.
Defined.

Lemma processCategoryData_colors_witness :
  NoDup (map cs_color (processCategoryData foodAndRent)).
Proof.
  apply (processCategoryData_colors foodAndRent ["Food"; "Rent"]%string).
  - exact foodAndRent_names.
  - simpl. lia.
Defined.

Lemma processCategoryData_adds_up_witness :
  sumBy cs_amount (processCategoryData foodAndRent)
  = sumAmounts (filter isExpense foodAndRent)
  /\ list_sum (map cs_count (processCategoryData foodAndRent))
     = List.length (filter isExpense foodAndRent).
Proof.
  apply (processCategoryData_adds_up foodAndRent ["Food"; "Rent"]%string).
  - exact foodAndRent_names.
  - simpl. lia.
Defined.

Lemma winter_months (t : Transaction Qc) :
  In t winter ->
  In (monthKey utcFullYear utcMonth t) ["2023-12"; "2024-01"; "2024-02"]%string.
Proof.
  intros [<-|[<-|[<-|[<-|[]]]]]; vm_compute; auto.
Defined.

Lemma processMonthlyData_adds_up_witness :
  sumBy md_income (processMonthlyData utcFullYear utcMonth monthShort winter)
  = sumAmounts (filter isIncome winter)
  /\ sumBy md_expense
       (processMonthlyData utcFullYear utcMonth monthShort winter)
     = sumAmounts (filter isExpense winter)
  /\ sumBy md_net (processMonthlyData utcFullYear utcMonth monthShort winter)
     = (sumAmounts (filter isIncome winter)
        - sumAmounts (filter isExpense winter))%Qc.
Proof.
  apply (processMonthlyData_adds_up utcFullYear utcMonth monthShort winter
           ["2023-12"; "2024-01"; "2024-02"]%string).
  - exact winter_months.
  - simpl. lia.
Defined.

Lemma winter_days (t : Transaction Qc) :
  In t winter -> isExpense t = true ->
  In (dateKey t) ["2023-12-30"; "2024-01-02"; "2024-02-11"]%string.
Proof.
  intros [<-|[<-|[<-|[<-|[]]]]] E; vm_compute in E; try discriminate E;
    vm_compute; auto.
Defined.

Lemma processDailyData_adds_up_witness :
  sumBy dd_amount (processDailyData winter)
  = sumAmounts (filter isExpense winter).
Proof.
  apply (processDailyData_adds_up winter
           ["2023-12-30"; "2024-01-02"; "2024-02-11"]%string).
  - exact winter_days.
  - simpl. lia.
Defined.

Lemma no_category_no_subcategory_witness :
  exists s,
    FormSamples.session FormSamples.calmPicks = Some s
    /\ FormSamples.calm FormSamples.calmPicks = true
    /\ FormAsync.queries s = []
    /\ Form.selectedCategory (FormAsync.form s) = EmptyString
    /\ Form.subcategories (FormAsync.form s) = []
    /\ Form.selectedSubcategory (FormAsync.form s) = EmptyString.
Proof.
  destruct (FormSamples.session FormSamples.calmPicks) as [s|] eqn:E;
    [|vm_compute in E; discriminate E].
  exists s.
  assert (Hs : FormAsync.queries s = []
               /\ Form.selectedCategory (FormAsync.form s) = EmptyString).
  { vm_compute in E. injection E as <-. split; reflexivity. }
  destruct Hs as [Hq Hnone].
  split; [reflexivity|]. split; [reflexivity|].
  split; [exact Hq|]. split; [exact Hnone|].
  exact (FormAsyncFacts.no_category_no_subcategory addMode store
           parseFloatInteger trimAscii "2024-03-01T12:00:00.000Z"
           FormSamples.calmPicks s E eq_refl Hq Hnone).
Defined.

(** Without the condition on the order of the events the statements do
    not hold: when Food is chosen and cleared before its subcategories
    arrive, the list holds Groceries with no category selected. *)
Example late_answer :
  exists s,
    FormSamples.session FormSamples.lateAnswer = Some s
    /\ FormSamples.calm FormSamples.lateAnswer = false
    /\ FormAsync.queries s = []
    /\ Form.selectedCategory (FormAsync.form s) = EmptyString
    /\ Form.subcategories (FormAsync.form s) = [groceries].
Proof. eexists. split; [vm_compute; reflexivity|]. now repeat split. Qed.

Lemma store_faithful : FormSession.faithful store.
Proof.
  intros categoryId rows Hrows sub Hin.
  assert (E : rows
              = filter (fun sub => String.eqb (Form.sub_category_id sub)
                                     categoryId) [groceries; flights]).
  { exact (f_equal (fun r => match r with Data x => x | _ => [] end)
             (eq_sym Hrows)). }
  rewrite E in Hin. apply filter_In in Hin. destruct Hin as [_ Hin].
  now apply String.eqb_eq in Hin.
Defined.

Lemma subcategories_of_selected_category_witness :
  exists s,
    FormSamples.session FormSamples.calmChange = Some s
    /\ FormSamples.calm FormSamples.calmChange = true
    /\ FormAsync.queries s = []
    /\ (forall sub, In sub (Form.subcategories (FormAsync.form s)) ->
          Form.sub_category_id sub = Form.selectedCategory (FormAsync.form s)).
Proof.
  destruct (FormSamples.session FormSamples.calmChange) as [s|] eqn:E;
    [|vm_compute in E; discriminate E].
  exists s.
  assert (Hq : FormAsync.queries s = []).
  { vm_compute in E. injection E as <-. reflexivity. }
  split; [reflexivity|]. split; [reflexivity|]. split; [exact Hq|].
  exact (proj1 (FormAsyncFacts.subcategories_of_selected_category addMode
                  store parseFloatInteger trimAscii
                  "2024-03-01T12:00:00.000Z" FormSamples.calmChange s
                  store_faithful E eq_refl Hq)).
Defined.

Lemma written_category_is_listed_witness :
  exists st effects,
    Samples.session lunchEntered = Some (st, effects)
    /\ (forall e, In e effects ->
          match e with
          | Form.Insert data | Form.Update _ data =>
              exists cat, In cat (FormSession.loaded store)
                          /\ Form.cat_id cat = Form.td_category_id data
          | _ => True
          end)
    /\ (FormSession.loaded store = [] ->
        forall e, In e effects -> FormSession.isWrite e = false).
Proof.
  destruct (Samples.session lunchEntered) as [[st effects]|] eqn:E;
    [|vm_compute in E; discriminate E].
  exists st, effects. split; [reflexivity|].
  exact (FormSessionFacts.written_category_is_listed addMode store
           parseFloatInteger trimAscii "2024-03-01T12:00:00.000Z"
           lunchEntered st effects E).
Defined.

Lemma resubmission_after_add_refused_witness :
  Form.handleSubmit addMode parseFloatInteger trimAscii (Data tt)
    (fst (Form.successOk addMode store "2024-03-02T08:00:00.000Z" lunch))
  = (fst (Form.successOk addMode store "2024-03-02T08:00:00.000Z" lunch),
     [Form.Alert "Invalid Input" "Please enter a valid amount"]).
Proof.
  apply (FormSessionFacts.resubmission_after_add_refused addMode store
           parseFloatInteger trimAscii "2024-03-02T08:00:00.000Z" (Data tt)
           lunch).
  reflexivity.
Defined.

Lemma edit_prefill_witness :
  let params :=
    ListScreen.editTransaction toStringInteger FormSamples.storedLunch in
  let opened :=
    FormAsync.initializeForm params store "2024-03-05T08:00:00.000Z" in
  FormAsync.queries opened = ["c1"%string]
  /\ Form.amount (FormAsync.form opened) = "12"%string
  /\ Form.date (FormAsync.form opened) = "2024-03-01T12:00:00+00:00"%string
  /\ exists s,
       FormAsync.run params store parseFloatInteger trimAscii
         "2024-03-05T08:00:00.000Z" opened [FormAsync.SubcategoriesArrive "c1"]
       = Some s
       /\ Form.subcategories (FormAsync.form s) = [groceries]
       /\ Form.selectedSubcategory (FormAsync.form s) = "s1"%string
       /\ exists shown,
            snd (FormDates.handleSubmit params parseFloatInteger trimAscii
                   FormSamples.toISOStringUtc (Data tt) (FormAsync.form s))
            = [Form.Update "t7"
                 (FormDates.transactionData parseFloatInteger trimAscii
                    "2024-03-01T12:00:00.000Z" (FormAsync.form s));
               shown].
Proof.
  destruct (edit_prefill toStringInteger store parseFloatInteger trimAscii
              "2024-03-05T08:00:00.000Z" FormSamples.storedLunch
              [food; travel] food [groceries])
    as (Hq & (Hamount & _ & _ & Hdate & _) & s & Hrun & _ & _ & Hsubs & Hsub
        & Hsend).
  - vm_compute. discriminate.
  - discriminate.
  - vm_compute. discriminate.
  - reflexivity.
  - reflexivity.
  - vm_compute. discriminate.
  - reflexivity.
  - split; [exact Hq|]. split; [rewrite Hamount; reflexivity|].
    split; [exact Hdate|]. exists s. split; [exact Hrun|].
    split; [exact Hsubs|]. split; [rewrite Hsub; reflexivity|].
    assert (Hvalid : Form.validateForm parseFloatInteger trimAscii
                       (FormAsync.form s) = None).
    { vm_compute in Hrun. injection Hrun as <-. vm_compute. reflexivity. }
    exact (Hsend FormSamples.toISOStringUtc (Data tt) Hvalid).
Defined.

Lemma ledger_ids : NoDup (map id ledger).
Proof.
  repeat (constructor; [cbn; intuition discriminate|]). constructor.
Defined.

Lemma delete_updates_totals_witness :
  getTotalBalance
    (fst (TransactionsList.confirmDelete "t1" "Lunch"
            TransactionsList.DeleteIt (Data tt) ledger))
  = (getTotalBalance ledger - ListScreen.signedAmount (nth 0 ledger (tx income (Q2Qc 0))))%Qc.
Proof.
  apply (delete_updates_totals ledger (nth 0 ledger (tx income (Q2Qc 0)))
           "Lunch").
  - exact ledger_ids.
  - cbn. auto.
Defined.

Lemma list_session_rows_witness :
  exists deleted,
    ListScreen.run [] listEvents
    = filter (fun t => negb (existsb (String.eqb (id t)) deleted)) ledger.
Proof.
  apply (list_session_rows
           [ListScreen.Fetch (Error "offline"%string)]
           [ListScreen.Fetch (Thrown "timeout"%string);
            ListScreen.LongPress 0 TransactionsList.DeleteIt (Data tt);
            ListScreen.LongPress 0 TransactionsList.DeleteIt
              (Error "denied"%string)]
           ledger []).
  reflexivity.
Defined.

Lemma ledger_latest_first :
  StronglySorted
    (fun a b => JS.localeCompare (date b) (date a) <> Gt) ledger.
Proof.
  repeat (constructor; [|repeat constructor; vm_compute; discriminate]).
  constructor.
Defined.

Lemma recentTransactions_latest_witness :
  List.length
    (recentTransactions
       (fetchDashboardData (Data ledger)
          (mkDashboardStats (Q2Qc 0) (Q2Qc 0) (Q2Qc 0) 0 [])))
  = Nat.min 5 (List.length ledger).
Proof.
  apply (recentTransactions_latest
           (fun a b => JS.localeCompare b a <> Gt) ledger).
  exact ledger_latest_first.
Defined.

End MoreWitnesses.
